(** * Versioned symmetric encryption envelope (tutanota-crypto)

    A shallow embedding of the symmetric cipher subsystem:

    - [AesKeyLength], [SymmetricCipherUtils], [SymmetricKeyDeriver] and
      [AesCbcFacade] follow the TypeScript sources under
      packages/tutanota-crypto/lib/encryption/symmetric;
    - [Aes] follows the older aesEncrypt of lib/encryption/Aes.ts;
    - [Java.SymmetricKeyDeriver], [Java.AesCbcFacade], [Java.AeadFacade] and
      [Java.SymmetricCipherFacade] follow the Java classes of
      de.tutao.common.crypto.symmetric (the overloads of the facade's private
      encrypt and decrypt carry their number of arguments in the name).

    Bytes are integers (a Uint8Array / byte[] is a [list Z]).  An AES key is
    represented by the bytes [keyToUint8Array] yields for it.  The sjcl
    BitArray behind it packs four bytes per 32-bit word, a remainder of one
    to three bytes taking a word of its own, so the TypeScript expression
    [key.length] is the number of key bytes divided by four and rounded up
    ([bitArrayLength]).

    Thrown exceptions are values of [Error]; every operation runs in the
    monad [M], which threads the secure random source and a trace of the
    cryptographic operations performed so far, so that statements such as
    "fails before any block-cipher decryption" can be expressed. *)

From Stdlib Require Import String Ascii ZArith Bool List Lia.
Import ListNotations.

Local Open Scope string_scope.
Local Open Scope list_scope.
Local Open Scope Z_scope.

(* ------------------------------------------------------------------ *)
(** ** Bytes *)

Definition bytes := list Z.

Definition byteLength (a : bytes) : Z := Z.of_nat (length a).

(** JavaScript [TypedArray.prototype.subarray(begin, end)]: a negative index
    counts from the end, every index is clamped to the array, and an empty
    view results when the clamped end does not exceed the clamped begin. *)
Definition relativeIndex (len i : Z) : Z :=
  if i <? 0 then Z.max (len + i) 0 else Z.min i len.

Definition subarray (a : bytes) (b e : Z) : bytes :=
  let len := byteLength a in
  let b' := relativeIndex len b in
  let e' := relativeIndex len e in
  firstn (Z.to_nat (e' - b')) (skipn (Z.to_nat b') a).

(** JavaScript [TypedArray.prototype.slice(begin, end)]: the indices are
    treated as by [subarray]; the result is a copy instead of a view. *)
Definition slice (a : bytes) (b e : Z) : bytes := subarray a b e.

(** [concat] of tutanota-utils and [ArrayUtils.merge]: plain concatenation. *)
Definition concat (parts : list bytes) : bytes := List.concat parts.

Definition xorBytes (a b : bytes) : bytes :=
  map (fun p => Z.lxor (fst p) (snd p)) (combine a b).

Definition asciiBytes (s : string) : bytes :=
  map (fun c => Z.of_nat (nat_of_ascii c)) (list_ascii_of_string s).

(** JavaScript [Uint8Array.from(s)] for a string [s]: the string is iterated
    character by character and every one-character string goes through
    ToNumber and then ToUint8.  A decimal digit yields its value; white space
    yields 0; any other character yields NaN, which is stored as 0. *)
Definition charToUint8 (c : ascii) : Z :=
  let n := Z.of_nat (nat_of_ascii c) in
  if (48 <=? n) && (n <=? 57) then n - 48 else 0.

Definition Uint8Array_from_string (s : string) : bytes :=
  map charToUint8 (list_ascii_of_string s).

(* ------------------------------------------------------------------ *)
(** ** Exceptions, trace and the runtime monad *)

Inductive Error : Type :=
| CryptoError (msg : string)            (* TypeScript: throw new CryptoError *)
| JsError (msg : string)                (* TypeScript: throw new Error *)
| AuthenticationFailed                  (* MAC verification mismatch *)
| InvalidKeyLength                      (* KeyLengthPolicy *)
| InvalidIvLength                       (* CbcEngine *)
| InvalidBlockLength                    (* CbcEngine *)
| DecryptionFailed                      (* CbcEngine *)
| RuntimeException (msg : string)       (* Java *)
| TutaDbException (msg : string)        (* Java: new TutaDbException(String) *)
| TutaDbExceptionOf (cause : Error)     (* Java: new TutaDbException(e) *)
| IllegalArgumentException              (* Java: Arrays.copyOfRange *)
| ArrayIndexOutOfBoundsException        (* Java: Arrays.copyOfRange *)
| AssertionError                        (* Java: assert *)
| NullPointerException.                 (* Java: use of a null reference *)

Inductive Res (A : Type) : Type :=
| Ok (a : A)
| Throw (e : Error).
Arguments Ok {A} a.
Arguments Throw {A} e.

Inductive Event : Type :=
| EvRandom (n : nat) (out : bytes)
| EvHmac (key data : bytes)
| EvCbcEncrypt (key iv plaintext : bytes) (padding : bool)
| EvCbcDecrypt (key iv ciphertext : bytes) (padding : bool).

(** The world: the not yet consumed output of the secure random source and
    the operations performed so far, oldest first. *)
Record World : Type := mkWorld {
  randomness : nat -> Z;
  trace : list Event
}.

(** The world after some more operations. *)
Definition addEvents (w : World) (evs : list Event) : World :=
  mkWorld (randomness w) (trace w ++ evs).

Definition M (A : Type) : Type := World -> Res A * World.

Definition ret {A} (a : A) : M A := fun w => (Ok a, w).

Definition throw {A} (e : Error) : M A := fun w => (Throw e, w).

Definition bind {A B} (m : M A) (f : A -> M B) : M B :=
  fun w =>
    match m w with
    | (Ok a, w') => f a w'
    | (Throw e, w') => (Throw e, w')
    end.

Definition lift {A} (r : Res A) : M A := fun w => (r, w).

Definition emit (ev : Event) : M unit :=
  fun w => (Ok tt, addEvents w [ev]).

Definition try_catch {A} (m : M A) (handler : Error -> M A) : M A :=
  fun w =>
    match m w with
    | (Ok a, w') => (Ok a, w')
    | (Throw e, w') => handler e w'
    end.

Declare Scope m_scope.
Delimit Scope m_scope with m.
Notation "x <- m ;; k" := (bind m (fun x => k))
  (at level 61, m at next level, right associativity) : m_scope.
Notation "m ;;; k" := (bind m (fun _ => k))
  (at level 61, right associativity) : m_scope.
Local Open Scope m_scope.

Definition bindR {A B} (r : Res A) (f : A -> Res B) : Res B :=
  match r with
  | Ok a => f a
  | Throw e => Throw e
  end.

(** The events a computation adds to the trace. *)
Definition cbcDecryptEvent (ev : Event) : bool :=
  match ev with
  | EvCbcDecrypt _ _ _ _ => true
  | _ => false
  end.

Definition cbcEvent (ev : Event) : bool :=
  match ev with
  | EvCbcDecrypt _ _ _ _ | EvCbcEncrypt _ _ _ _ => true
  | _ => false
  end.

(** [secureRandom.nextBytes(new byte[n])]. *)
Definition nextBytes (n : nat) : M bytes :=
  fun w =>
    let out := map (randomness w) (seq 0 n) in
    (Ok out,
     mkWorld (fun i => randomness w (i + n)%nat) (trace w ++ [EvRandom n out])).

(* ------------------------------------------------------------------ *)
(** ** External collaborators

    Hash functions, HKDF, HMAC and the AES block cipher are trusted
    primitives (sha256Hash, sha512Hash, hkdf, hmacSha256 and sjcl.cipher.aes
    in TypeScript; ShaFacade, Hkdf, HMacFacade and javax.crypto in Java).
    [getAesSubKeys] (used by the older Aes.ts) and
    [SymmetricCipherVersion.getFromCiphertext] (used by the Java facade) are
    functions whose declarations lie outside the sources at hand; they are
    taken as parameters as well, and so is the JVM setting that decides
    whether a Java [assert] statement is executed. *)

Inductive SymmetricCipherVersion : Type :=
| UnusedReservedUnauthenticated
| AesCbcThenHmac
| Aead.

Record LegacySubKeys : Type := mkLegacySubKeys {
  cKey : bytes;
  mKey : option bytes
}.

Class Primitives : Type := {
  sha256Hash : bytes -> bytes;
  sha512Hash : bytes -> bytes;
  hkdf : option bytes -> bytes -> bytes -> Z -> bytes;
  hmacSha256 : bytes -> bytes -> bytes;
  aesEncryptBlock : bytes -> bytes -> bytes;
  aesDecryptBlock : bytes -> bytes -> bytes;
  getAesSubKeys : bytes -> bool -> LegacySubKeys;
  getFromCiphertext : bytes -> Res SymmetricCipherVersion;
  assertionsEnabled : bool   (* whether the JVM runs with assertions enabled *)
}.

(** The standard contracts of the primitives. *)
Class PrimitivesOk (P : Primitives) : Prop := {
  sha256Hash_length : forall m, length (sha256Hash m) = 32%nat;
  sha512Hash_length : forall m, length (sha512Hash m) = 64%nat;
  hkdf_length : forall salt ikm info n, 0 <= n -> byteLength (hkdf salt ikm info n) = n;
  hmacSha256_length : forall k m, length (hmacSha256 k m) = 32%nat;
  aesEncryptBlock_length :
    forall k b, length b = 16%nat -> length (aesEncryptBlock k b) = 16%nat;
  aesDecryptBlock_encrypt :
    forall k b, length b = 16%nat -> aesDecryptBlock k (aesEncryptBlock k b) = b
}.

(* ------------------------------------------------------------------ *)
(** ** Constants of SymmetricCipherUtils *)

Definition FIXED_IV : bytes := repeat 136 16.   (* hex 8888...88 *)
Definition BLOCK_SIZE_BYTES : Z := 16.
Definition IV_BYTE_LENGTH : Z := BLOCK_SIZE_BYTES.
Definition SYMMETRIC_CIPHER_VERSION_PREFIX_LENGTH_BYTES : Z := 1.
Definition SYMMETRIC_AUTHENTICATION_TAG_LENGTH_BYTES : Z := 32.
Definition MAC_LENGTH_BYTES : Z := 32.

(** Modelled from the spec: the declaration of the cipher-version enum
    (SymmetricCipherVersion.ts / SymmetricCipherVersion.java) is outside the
    sources; the spec fixes the one-byte wire encoding 0, 1, 2. *)
Definition versionValue (v : SymmetricCipherVersion) : Z :=
  match v with
  | UnusedReservedUnauthenticated => 0
  | AesCbcThenHmac => 1
  | Aead => 2
  end.

(** Modelled from the spec: [symmetricCipherVersionToUint8Array] and
    [SymmetricCipherVersion.asBytes] yield the one-byte version tag. *)
Definition symmetricCipherVersionToUint8Array (v : SymmetricCipherVersion) : bytes :=
  [versionValue v].

(** Modelled from the spec: the constant MAC_ENABLED_PREFIX of Aes.ts is
    declared outside the sources; it is the version byte 0x01 that precedes an
    authenticated envelope. *)
Definition MAC_ENABLED_PREFIX : Z := 1.

(* ------------------------------------------------------------------ *)
(** ** CbcEngine

    sjcl.mode.cbc and javax.crypto.Cipher are outside the sources; the mode
    is modelled from section 4.3 of the spec: standard AES-CBC; the padding flag
    selects PKCS#7 block padding or none; none requires the length to be a
    multiple of 16 bytes (InvalidBlockLength otherwise); the IV must be
    exactly 16 bytes (InvalidIvLength otherwise); a decryption whose padding
    is malformed fails with DecryptionFailed. *)

Fixpoint splitBlocks (fuel : nat) (data : bytes) : list bytes :=
  match fuel with
  | O => []
  | S fuel' =>
      match data with
      | [] => []
      | _ => firstn 16 data :: splitBlocks fuel' (skipn 16 data)
      end
  end.

Definition blocksOf (data : bytes) : list bytes := splitBlocks (length data) data.

Definition isBlock (b : bytes) : Prop := length b = 16%nat.

(** Modelled from the spec: PKCS#7 block padding, 1 to 16 bytes each holding
    the number of bytes added. *)
Definition pkcs7Pad (data : bytes) : bytes :=
  let n := (16 - Nat.modulo (length data) 16)%nat in
  data ++ repeat (Z.of_nat n) n.

(** Modelled from the spec: removal of the PKCS#7 padding; a malformed
    padding is a DecryptionFailed. *)
Definition pkcs7Unpad (data : bytes) : Res bytes :=
  match rev data with
  | [] => Throw DecryptionFailed
  | b :: _ =>
      let n := Z.to_nat b in
      if (1 <=? b) && (b <=? 16) && (n <=? length data)%nat
         && forallb (Z.eqb b) (skipn (length data - n) data)
      then Ok (firstn (length data - n) data)
      else Throw DecryptionFailed
  end.

Section CbcEngine.
Context {P : Primitives}.

Fixpoint cbcEncryptBlocks (key prev : bytes) (blocks : list bytes) : list bytes :=
  match blocks with
  | [] => []
  | b :: rest =>
      let c := aesEncryptBlock key (xorBytes b prev) in
      c :: cbcEncryptBlocks key c rest
  end.

Fixpoint cbcDecryptBlocks (key prev : bytes) (blocks : list bytes) : list bytes :=
  match blocks with
  | [] => []
  | c :: rest =>
      xorBytes (aesDecryptBlock key c) prev :: cbcDecryptBlocks key c rest
  end.

(** Modelled from the spec: CbcEngine.encryptBlock (sjcl.mode.cbc.encrypt,
    Cipher.doFinal in encrypt mode), CBC chaining over the AES block cipher. *)
Definition cbcEncrypt (key plaintext iv : bytes) (padding : bool) : Res bytes :=
  if negb (length iv =? 16)%nat then Throw InvalidIvLength
  else if padding
       then Ok (concat (cbcEncryptBlocks key iv (blocksOf (pkcs7Pad plaintext))))
       else if negb (Nat.modulo (length plaintext) 16 =? 0)%nat
            then Throw InvalidBlockLength
            else Ok (concat (cbcEncryptBlocks key iv (blocksOf plaintext))).

(** Modelled from the spec: CbcEngine.decryptBlock (sjcl.mode.cbc.decrypt,
    Cipher.doFinal in decrypt mode). *)
Definition cbcDecrypt (key ciphertext iv : bytes) (padding : bool) : Res bytes :=
  if negb (length iv =? 16)%nat then Throw InvalidIvLength
  else if negb (Nat.modulo (length ciphertext) 16 =? 0)%nat
       then Throw InvalidBlockLength
       else
         let plain := concat (cbcDecryptBlocks key iv (blocksOf ciphertext)) in
         if padding then pkcs7Unpad plain else Ok plain.

(** A call of the library's CBC encryption or decryption, recorded in the
    trace. *)
Definition cbc_encrypt (key plaintext iv : bytes) (padding : bool) : M bytes :=
  emit (EvCbcEncrypt key iv plaintext padding) ;;;
  lift (cbcEncrypt key plaintext iv padding).

Definition cbc_decrypt (key ciphertext iv : bytes) (padding : bool) : M bytes :=
  emit (EvCbcDecrypt key iv ciphertext padding) ;;;
  lift (cbcDecrypt key ciphertext iv padding).
End CbcEngine.

(* ------------------------------------------------------------------ *)
(** ** Hmac *)

Section Hmac.
Context {P : Primitives}.

(** A call of hmacSha256 / HMacFacade.hmac256, recorded in the trace. *)
Definition hmac (key data : bytes) : M bytes :=
  emit (EvHmac key data) ;;;
  ret (hmacSha256 key data).

Definition bytesEqual (a b : bytes) : bool :=
  if list_eq_dec Z.eq_dec a b then true else false.

(** Modelled from the spec: verifyHmacSha256 (Hmac.ts, HMacFacade.java) is
    outside the sources.  Section 4.4 of the spec: recompute HMAC-SHA256
    over the data and compare against the provided tag; fail with
    AuthenticationFailed on mismatch.  (That the comparison takes constant
    time is a property of the running time, which this model does not
    represent.) *)
Definition verifyHmacSha256 (key data tag : bytes) : M unit :=
  computedTag <- hmac key data ;;
  if bytesEqual computedTag tag then ret tt else throw AuthenticationFailed.
End Hmac.

(* ------------------------------------------------------------------ *)
(** ** AesKeyLength.ts *)

Module AesKeyLength.

Inductive t : Type := Aes128 | Aes256.

Definition bits (l : t) : Z :=
  match l with
  | Aes128 => 128
  | Aes256 => 256
  end.

Definition eqb (a b : t) : bool :=
  match a, b with
  | Aes128, Aes128 | Aes256, Aes256 => true
  | _, _ => false
  end.

(** [Object.keys(AesKeyLength).map(k => AesKeyLength[k])] also lists the
    member names of the numeric enum; a name never equals a number under
    [includes], so only the two numeric members matter. *)
Definition ACCEPTED_BIT_LENGTHS : list t := [Aes128; Aes256].

Definition getKeyLengthAsBytes (keyLength : t) : Z := bits keyLength / 8.

(** [key.length] of an AesKey.  An AesKey is an sjcl BitArray, a [number[]]
    of 32-bit words; this development represents a key by the bytes it holds
    (so [keyToUint8Array] and [uint8ArrayToBitArray] do not change the
    representation).  [uint8ArrayToBitArray] packs four bytes into one word
    and a remainder of one to three bytes into a last, partial word (the test
    of bitArrayToUint8Array in SymmetricCipherUtilsTest.ts converts the single
    byte 170 to and from a BitArray of one element), so the BitArray that
    holds n bytes has ceil(n/4) elements. *)
Definition bitArrayLength (key : bytes) : Z := (byteLength key + 3) / 4.

(** The length is measured in words: [key.length * 4 * 8]. *)
Definition getAndVerifyAesKeyLength (key : bytes) (acceptedBitLengths : list t) : Res t :=
  let keyLength := bitArrayLength key * 4 * 8 in
  match find (fun l => bits l =? keyLength) acceptedBitLengths with
  | Some l => Ok l
  | None => Throw (CryptoError "Illegal key length")
  end.

End AesKeyLength.
Import AesKeyLength.

(* ------------------------------------------------------------------ *)
(** ** SymmetricCipherUtils.ts *)

Definition keyToUint8Array (key : bytes) : bytes := key.

Definition uint8ArrayToKey (array : bytes) : Res bytes :=
  bindR (getAndVerifyAesKeyLength array ACCEPTED_BIT_LENGTHS) (fun _ => Ok array).

(** [assertNotNull] of tutanota-utils. *)
Definition assertNotNull {A} (value : option A) : Res A :=
  match value with
  | Some v => Ok v
  | None => Throw (JsError "AssertNotNull failed : null")
  end.

Section ExtractIv.
(** [base64ToUint8Array] of tutanota-utils, a data-format helper outside the
    sources. *)
Variable base64ToUint8Array : string -> Res bytes.

Definition extractIvFromCipherText (encrypted : string) : Res bytes :=
  bindR (base64ToUint8Array encrypted) (fun encryptedBytes =>
  let hasMac := byteLength encryptedBytes mod 2 =? 1 in
  let cipherTextWithoutMac :=
    if hasMac
    then subarray encryptedBytes 1 (byteLength encryptedBytes - MAC_LENGTH_BYTES)
    else encryptedBytes in
  if byteLength cipherTextWithoutMac <? IV_BYTE_LENGTH
  then Throw (CryptoError "insufficient bytes in cipherTextWithoutMac to extract iv")
  else Ok (slice cipherTextWithoutMac 0 IV_BYTE_LENGTH)).
End ExtractIv.

(* ------------------------------------------------------------------ *)
(** ** SymmetricKeyDeriver.ts *)

Record SubKeys : Type := mkSubKeys {
  encryptionKey : bytes;
  authenticationKey : option bytes
}.

Definition AEAD_KEY_DERIVATION_INFO : string := "AEAD key splitting".

Module SymmetricKeyDeriver.
Section SymmetricKeyDeriver.
Context {P : Primitives}.

(** The info argument the Aead branch hands to hkdf. *)
Definition infoWithCipherVersion (symmetricCipherVersion : SymmetricCipherVersion) : bytes :=
  concat [Uint8Array_from_string AEAD_KEY_DERIVATION_INFO;
          symmetricCipherVersionToUint8Array symmetricCipherVersion].

Definition deriveSubKeys (key : bytes) (symmetricCipherVersion : SymmetricCipherVersion)
  : Res SubKeys :=
  bindR (getAndVerifyAesKeyLength key ACCEPTED_BIT_LENGTHS) (fun keyLength =>
  let keyBytes := keyToUint8Array key in
  match symmetricCipherVersion with
  | UnusedReservedUnauthenticated =>
      if negb (AesKeyLength.eqb keyLength Aes128)
      then Throw (CryptoError "key length is incompatible with cipherVersion")
      else Ok (mkSubKeys key None)
  | AesCbcThenHmac =>
      let hashedKey :=
        match keyLength with
        | Aes128 => sha256Hash (keyToUint8Array key)
        | Aes256 => sha512Hash (keyToUint8Array key)
        end in
      bindR (uint8ArrayToKey (subarray hashedKey 0 (getKeyLengthAsBytes keyLength)))
        (fun encKey =>
      bindR (uint8ArrayToKey
               (subarray hashedKey (getKeyLengthAsBytes keyLength) (byteLength hashedKey)))
        (fun authKey =>
      Ok (mkSubKeys encKey (Some authKey))))
  | Aead =>
      let info := infoWithCipherVersion symmetricCipherVersion in
      let outputKeyLength := 2 * getKeyLengthAsBytes Aes256 in
      let derivedKeys := hkdf None keyBytes info outputKeyLength in
      bindR (uint8ArrayToKey (subarray derivedKeys 0 (getKeyLengthAsBytes Aes256)))
        (fun encKey =>
      bindR (uint8ArrayToKey
               (subarray derivedKeys (getKeyLengthAsBytes Aes256) outputKeyLength))
        (fun authKey =>
      Ok (mkSubKeys encKey (Some authKey))))
  end).
End SymmetricKeyDeriver.
End SymmetricKeyDeriver.

(* ------------------------------------------------------------------ *)
(** ** AesCbcFacade.ts *)

Module AesCbcFacade.
Section AesCbcFacade.
Context {P : Primitives}.

Definition encrypt (key plainText : bytes) (hasRandomIvToPrepend : bool) (iv : bytes)
           (padding : bool) (cipherVersion : SymmetricCipherVersion) : M bytes :=
  subKeys <- lift (SymmetricKeyDeriver.deriveSubKeys key cipherVersion) ;;
  cipherText <- cbc_encrypt (encryptionKey subKeys) plainText iv padding ;;
  let unauthenticatedCiphertext :=
    if hasRandomIvToPrepend then concat [iv; cipherText] else cipherText in
  match cipherVersion with
  | UnusedReservedUnauthenticated => ret unauthenticatedCiphertext
  | AesCbcThenHmac =>
      authKey <- lift (assertNotNull (authenticationKey subKeys)) ;;
      authenticationTag <- hmac authKey unauthenticatedCiphertext ;;
      ret (concat [symmetricCipherVersionToUint8Array AesCbcThenHmac;
                   unauthenticatedCiphertext; authenticationTag])
  | Aead => throw (CryptoError "unexpected cipher version")
  end.

Definition decrypt (key cipherText : bytes) (randomIv padding : bool)
           (cipherVersion : SymmetricCipherVersion) : M bytes :=
  subKeys <- lift (SymmetricKeyDeriver.deriveSubKeys key cipherVersion) ;;
  cipherTextWithoutMacAndVersionByte <-
    match cipherVersion with
    | UnusedReservedUnauthenticated => ret cipherText
    | AesCbcThenHmac =>
        authKey <- lift (assertNotNull (authenticationKey subKeys)) ;;
        let body :=
          subarray cipherText SYMMETRIC_CIPHER_VERSION_PREFIX_LENGTH_BYTES
                   (byteLength cipherText - SYMMETRIC_AUTHENTICATION_TAG_LENGTH_BYTES) in
        let providedMacBytes :=
          subarray cipherText
                   (byteLength cipherText - SYMMETRIC_AUTHENTICATION_TAG_LENGTH_BYTES)
                   (byteLength cipherText) in
        verifyHmacSha256 authKey body providedMacBytes ;;;
        ret body
    | Aead => throw (JsError "unexpected cipher version")
    end ;;
  let iv :=
    if randomIv then subarray cipherTextWithoutMacAndVersionByte 0 IV_BYTE_LENGTH
    else FIXED_IV in
  let aesCbcCiphertext :=
    if randomIv
    then subarray cipherTextWithoutMacAndVersionByte IV_BYTE_LENGTH
                  (byteLength cipherTextWithoutMacAndVersionByte)
    else cipherTextWithoutMacAndVersionByte in
  try_catch (cbc_decrypt (encryptionKey subKeys) aesCbcCiphertext iv padding)
            (fun _ => throw (CryptoError "aes decryption failed")).
End AesCbcFacade.
End AesCbcFacade.

(* ------------------------------------------------------------------ *)
(** ** Aes.ts (the older entry point) *)

Module Aes.
Section Aes.
Context {P : Primitives}.

(** [iv], [usePadding] and [useMac] are optional in the source (a fresh
    random IV, true and true by default); here the caller passes them. *)
Definition aesEncrypt (key bytes_ iv : bytes) (usePadding useMac : bool) : M bytes :=
  keyLength <- lift (getAndVerifyAesKeyLength key ACCEPTED_BIT_LENGTHS) ;;
  if negb (byteLength iv =? IV_BYTE_LENGTH)
  then throw (CryptoError "Illegal IV length")
  else
    if negb useMac && AesKeyLength.eqb keyLength Aes256
    then throw (CryptoError "Can't use AES-256 without MAC")
    else
      let subKeys := getAesSubKeys key useMac in
      encryptedBits <- cbc_encrypt (cKey subKeys) bytes_ iv usePadding ;;
      let data := concat [iv; encryptedBits] in
      if useMac
      then
        macKey <- lift (assertNotNull (mKey subKeys)) ;;
        macBytes <- hmac macKey data ;;
        ret (concat [[MAC_ENABLED_PREFIX]; data; macBytes])
      else ret data.

(** [iv] and [usePadding] are optional in the source (a fresh random IV and
    true by default); here the caller passes them. *)
Definition aes256EncryptSearchIndexEntry (key bytes_ iv : bytes) (usePadding : bool)
  : M bytes :=
  lift (getAndVerifyAesKeyLength key [Aes256]) ;;;
  if negb (byteLength iv =? IV_BYTE_LENGTH)
  then throw (CryptoError "Illegal IV length")
  else
    let subKeys := getAesSubKeys key false in
    encryptedBits <- cbc_encrypt (cKey subKeys) bytes_ iv usePadding ;;
    ret (concat [iv; keyToUint8Array encryptedBits]).

Definition aesDecryptImpl (key encryptedBytes : bytes) (usePadding enforceMac : bool)
  : M bytes :=
  lift (getAndVerifyAesKeyLength key ACCEPTED_BIT_LENGTHS) ;;;
  let hasMac := byteLength encryptedBytes mod 2 =? 1 in
  if enforceMac && negb hasMac
  then throw (CryptoError "mac expected but not present")
  else
    let subKeys := getAesSubKeys key hasMac in
    cipherTextWithoutMac <-
      (if hasMac
       then
         let body := subarray encryptedBytes 1 (byteLength encryptedBytes - MAC_LENGTH_BYTES) in
         let providedMacBytes :=
           subarray encryptedBytes (byteLength encryptedBytes - MAC_LENGTH_BYTES)
                    (byteLength encryptedBytes) in
         macKey <- lift (assertNotNull (mKey subKeys)) ;;
         verifyHmacSha256 macKey body providedMacBytes ;;;
         ret body
       else ret encryptedBytes) ;;
    let iv := slice cipherTextWithoutMac 0 IV_BYTE_LENGTH in
    if negb (byteLength iv =? IV_BYTE_LENGTH)
    then throw (CryptoError "Invalid IV length in aesDecrypt")
    else
      let ciphertext :=
        slice cipherTextWithoutMac IV_BYTE_LENGTH (byteLength cipherTextWithoutMac) in
      try_catch (cbc_decrypt (cKey subKeys) ciphertext iv usePadding)
                (fun _ => throw (CryptoError "aes decryption failed")).

Definition authenticatedAesDecrypt (key encryptedBytes : bytes) (usePadding : bool)
  : M bytes :=
  aesDecryptImpl key encryptedBytes usePadding true.
End Aes.
End Aes.

(* ------------------------------------------------------------------ *)
(** ** The Java classes *)

Module Java.

(** [Arrays.copyOfRange(original, from, to)]: [to] may lie beyond the end of
    the array, in which case the copy is filled up with zeros. *)
Definition copyOfRange (original : bytes) (from to : Z) : Res bytes :=
  let newLength := to - from in
  if newLength <? 0 then Throw IllegalArgumentException
  else if (from <? 0) || (byteLength original <? from)
       then Throw ArrayIndexOutOfBoundsException
       else
         let available := skipn (Z.to_nat from) original in
         let n := Z.to_nat newLength in
         Ok (firstn n available ++ repeat 0 (n - length available)).

Definition merge (parts : list bytes) : bytes := concat parts.

Definition keyToBytes (key : bytes) : bytes := key.

(** Modelled from the spec: AesKeyLength.java is outside the sources.
    Section 4.1 of the spec: classify(key) yields 128 or 256 and fails with
    InvalidKeyLength if the byte length is anything other than 16 or 32. *)
Definition AesKeyLength_get (key : bytes) : Res AesKeyLength.t :=
  if byteLength key =? 16 then Ok Aes128
  else if byteLength key =? 32 then Ok Aes256
  else Throw InvalidKeyLength.

Definition getKeyLengthBytes (keyLength : AesKeyLength.t) : Z := bits keyLength / 8.

Definition AES256_KEY_LENGTH_BYTES : Z := 32.

(** The checked exceptions of javax.crypto that the facades catch and wrap
    into a TutaDbException. *)
Definition checkedCryptoException (e : Error) : bool :=
  match e with
  | InvalidIvLength | InvalidBlockLength | DecryptionFailed => true
  | _ => false
  end.

Definition wrapError (e : Error) : Error :=
  if checkedCryptoException e then TutaDbExceptionOf e else e.

(** try { ... } catch (InvalidKeyException | IllegalBlockSizeException | ...  e)
    { throw new TutaDbException(e); } *)
Definition wrapChecked {A} (m : M A) : M A :=
  try_catch m (fun e => throw (wrapError e)).

Section Helpers.
Context {P : Primitives}.

Definition javaAssert (cond : bool) : M unit :=
  if assertionsEnabled && negb cond then throw AssertionError else ret tt.

Definition isSome {A} (o : option A) : bool :=
  match o with Some _ => true | None => false end.

(** Use of a [@Nullable] reference. *)
Definition deref {A} (o : option A) : Res A :=
  match o with
  | Some v => Ok v
  | None => Throw NullPointerException
  end.
End Helpers.

(** *** SymmetricKeyDeriver.java *)

Module SymmetricKeyDeriver.
Section SymmetricKeyDeriver.
Context {P : Primitives}.

Definition infoWithCipherVersion (symmetricCipherVersion : SymmetricCipherVersion) : bytes :=
  merge [asciiBytes AEAD_KEY_DERIVATION_INFO;
         symmetricCipherVersionToUint8Array symmetricCipherVersion].

Definition deriveSubKeys (key : bytes) (symmetricCipherVersion : SymmetricCipherVersion)
  : Res SubKeys :=
  bindR (AesKeyLength_get key) (fun keyLength =>
  let keyBytes := keyToBytes key in
  match symmetricCipherVersion with
  | UnusedReservedUnauthenticated =>
      if negb (AesKeyLength.eqb keyLength Aes128)
      then Throw (RuntimeException "key length is incompatible with cipherVersion")
      else Ok (mkSubKeys key None)
  | AesCbcThenHmac =>
      let hash :=
        match keyLength with
        | Aes128 => sha256Hash keyBytes
        | Aes256 => sha512Hash keyBytes
        end in
      bindR (copyOfRange hash 0 (getKeyLengthBytes keyLength)) (fun encKey =>
      bindR (copyOfRange hash (getKeyLengthBytes keyLength)
                         (2 * getKeyLengthBytes keyLength)) (fun authKey =>
      Ok (mkSubKeys encKey (Some authKey))))
  | Aead =>
      let info := infoWithCipherVersion symmetricCipherVersion in
      let outputKeyLength := 2 * AES256_KEY_LENGTH_BYTES in
      let derivedKeys := hkdf None keyBytes info outputKeyLength in
      bindR (copyOfRange derivedKeys 0 AES256_KEY_LENGTH_BYTES) (fun encKey =>
      bindR (copyOfRange derivedKeys AES256_KEY_LENGTH_BYTES outputKeyLength)
        (fun authKey =>
      Ok (mkSubKeys encKey (Some authKey))))
  end).
End SymmetricKeyDeriver.
End SymmetricKeyDeriver.

(** *** AesCbcFacade.java *)

Module AesCbcFacade.
Section AesCbcFacade.
Context {P : Primitives}.

Definition encrypt (key plainText : bytes) (hasRandomIvToPrepend : bool)
           (iv : bytes) (padding : bool) (cipherVersion : SymmetricCipherVersion)
  : M bytes :=
  subKeys <- lift (SymmetricKeyDeriver.deriveSubKeys key cipherVersion) ;;
  cipherText <- cbc_encrypt (encryptionKey subKeys) plainText iv padding ;;
  let unauthenticatedCiphertext :=
    if hasRandomIvToPrepend then merge [iv; cipherText] else cipherText in
  match cipherVersion with
  | UnusedReservedUnauthenticated => ret unauthenticatedCiphertext
  | AesCbcThenHmac =>
      javaAssert (isSome (authenticationKey subKeys)) ;;;
      authKey <- lift (deref (authenticationKey subKeys)) ;;
      authenticationTag <- hmac authKey unauthenticatedCiphertext ;;
      ret (merge [symmetricCipherVersionToUint8Array AesCbcThenHmac;
                  unauthenticatedCiphertext; authenticationTag])
  | Aead => throw (RuntimeException "unexpected cipher version")
  end.

Definition decrypt (key cipherText : bytes) (randomIv padding : bool)
           (cipherVersion : SymmetricCipherVersion) : M bytes :=
  wrapChecked (
    subKeys <- lift (SymmetricKeyDeriver.deriveSubKeys key cipherVersion) ;;
    cipherTextWithoutMacAndVersionByte <-
      match cipherVersion with
      | UnusedReservedUnauthenticated => ret cipherText
      | AesCbcThenHmac =>
          javaAssert (isSome (authenticationKey subKeys)) ;;;
          body <- lift (copyOfRange cipherText
                          SYMMETRIC_CIPHER_VERSION_PREFIX_LENGTH_BYTES
                          (byteLength cipherText
                           - SYMMETRIC_AUTHENTICATION_TAG_LENGTH_BYTES)) ;;
          providedMacBytes <-
            lift (copyOfRange cipherText
                    (byteLength cipherText - SYMMETRIC_AUTHENTICATION_TAG_LENGTH_BYTES)
                    (byteLength cipherText)) ;;
          authKey <- lift (deref (authenticationKey subKeys)) ;;
          verifyHmacSha256 authKey body providedMacBytes ;;;
          ret body
      | Aead => throw (RuntimeException "unexpected cipher version")
      end ;;
    ivAndCiphertext <-
      (if randomIv
       then
         iv <- lift (copyOfRange cipherTextWithoutMacAndVersionByte 0 IV_BYTE_LENGTH) ;;
         c <- lift (copyOfRange cipherTextWithoutMacAndVersionByte IV_BYTE_LENGTH
                      (byteLength cipherTextWithoutMacAndVersionByte)) ;;
         ret (iv, c)
       else ret (FIXED_IV, cipherTextWithoutMacAndVersionByte)) ;;
    cbc_decrypt (encryptionKey subKeys) (snd ivAndCiphertext) (fst ivAndCiphertext)
                padding).
End AesCbcFacade.
End AesCbcFacade.

(** *** AeadFacade.java *)

Module AeadFacade.
Section AeadFacade.
Context {P : Primitives}.

(** [HMacFacade.hmac256(key, data...)] is outside the sources; by section 4.5
    of the spec the tag is computed over the concatenation of its data
    arguments, here the authenticated region followed by the associated
    data. *)
Definition encrypt (key plainText iv : bytes) (padding : bool)
           (associatedData : bytes) : M bytes :=
  subKeys <- lift (SymmetricKeyDeriver.deriveSubKeys key Aead) ;;
  javaAssert (isSome (authenticationKey subKeys)) ;;;
  aesCbcCiphertext <- cbc_encrypt (encryptionKey subKeys) plainText iv padding ;;
  let unauthenticatedData :=
    merge [symmetricCipherVersionToUint8Array Aead; iv; aesCbcCiphertext] in
  authKey <- lift (deref (authenticationKey subKeys)) ;;
  tag <- hmac authKey (merge [unauthenticatedData; associatedData]) ;;
  ret (merge [unauthenticatedData; tag]).

Definition decrypt (key cipherText : bytes) (padding : bool)
           (associatedData : bytes) : M bytes :=
  wrapChecked (
    subKeys <- lift (SymmetricKeyDeriver.deriveSubKeys key Aead) ;;
    javaAssert (isSome (authenticationKey subKeys)) ;;;
    cipherTextWithoutMac <-
      lift (copyOfRange cipherText 0
              (byteLength cipherText - SYMMETRIC_AUTHENTICATION_TAG_LENGTH_BYTES)) ;;
    authenticationTag <-
      lift (copyOfRange cipherText
              (byteLength cipherText - SYMMETRIC_AUTHENTICATION_TAG_LENGTH_BYTES)
              (byteLength cipherText)) ;;
    authKey <- lift (deref (authenticationKey subKeys)) ;;
    verifyHmacSha256 authKey (merge [cipherTextWithoutMac; associatedData])
                     authenticationTag ;;;
    iv <- lift (copyOfRange cipherTextWithoutMac
                  SYMMETRIC_CIPHER_VERSION_PREFIX_LENGTH_BYTES
                  (SYMMETRIC_CIPHER_VERSION_PREFIX_LENGTH_BYTES + IV_BYTE_LENGTH)) ;;
    aesCbcCiphertext <-
      lift (copyOfRange cipherTextWithoutMac
              (SYMMETRIC_CIPHER_VERSION_PREFIX_LENGTH_BYTES + IV_BYTE_LENGTH)
              (byteLength cipherTextWithoutMac)) ;;
    cbc_decrypt (encryptionKey subKeys) aesCbcCiphertext iv padding).
End AeadFacade.
End AeadFacade.

(** *** SymmetricCipherFacade.java *)

Module SymmetricCipherFacade.
Section SymmetricCipherFacade.
Context {P : Primitives}.

Definition getCipherVersion (cipherText key : bytes) : M SymmetricCipherVersion :=
  cipherVersion <- lift (getFromCiphertext cipherText) ;;
  match cipherVersion with
  | UnusedReservedUnauthenticated =>
      keyLength <- lift (AesKeyLength_get key) ;;
      if negb (AesKeyLength.eqb keyLength Aes128)
      then throw (TutaDbException "mac is enforced but not present")
      else ret cipherVersion
  | _ => ret cipherVersion
  end.

(** encrypt(key, plainText, hasRandomIv, padding, cipherVersion) *)
Definition encrypt5 (key plainText : bytes) (hasRandomIv padding : bool)
           (cipherVersion : SymmetricCipherVersion) : M bytes :=
  wrapChecked (
    iv <- (if hasRandomIv then nextBytes (Z.to_nat IV_BYTE_LENGTH) else ret FIXED_IV) ;;
    match cipherVersion with
    | UnusedReservedUnauthenticated | AesCbcThenHmac =>
        AesCbcFacade.encrypt key plainText hasRandomIv iv padding cipherVersion
    | Aead =>
        javaAssert hasRandomIv ;;;
        throw (RuntimeException "Not enabled")
    end).

(** encrypt(key, plainText, padding, cipherVersion) *)
Definition encrypt4 (key plainText : bytes) (padding : bool)
           (cipherVersion : SymmetricCipherVersion) : M bytes :=
  encrypt5 key plainText true padding cipherVersion.

(** decrypt(key, cipherText, randomIv, padding) *)
Definition decrypt4 (key cipherText : bytes) (randomIv padding : bool) : M bytes :=
  cipherVersion <- getCipherVersion cipherText key ;;
  match cipherVersion with
  | UnusedReservedUnauthenticated | AesCbcThenHmac =>
      AesCbcFacade.decrypt key cipherText randomIv padding cipherVersion
  | Aead => throw (RuntimeException "not yet enabled")
  end.

(** decrypt(key, cipherText, padding) *)
Definition decrypt3 (key cipherText : bytes) (padding : bool) : M bytes :=
  decrypt4 key cipherText true padding.

(** [new SecretKeySpec(bytes, "AES")] rejects an empty array. *)
Definition newSecretKeySpec (keyBytes : bytes) : M bytes :=
  match keyBytes with
  | [] => throw IllegalArgumentException
  | _ => ret keyBytes
  end.

Definition encryptBytes (key bytes_ : bytes) : M bytes :=
  encrypt4 key bytes_ true AesCbcThenHmac.

Definition decryptBytes (key bytes_ : bytes) : M bytes :=
  decrypt3 key bytes_ true.

Definition encryptKey (key keyToEncrypt : bytes) : M bytes :=
  keyLength <- lift (AesKeyLength_get key) ;;
  match keyLength with
  | Aes128 =>
      encrypt5 key (keyToBytes keyToEncrypt) false false UnusedReservedUnauthenticated
  | Aes256 =>
      encrypt4 key (keyToBytes keyToEncrypt) false AesCbcThenHmac
  end.

Definition decryptKey (key bytes_ : bytes) : M bytes :=
  keyLength <- lift (AesKeyLength_get key) ;;
  match keyLength with
  | Aes128 => plain <- decrypt4 key bytes_ false false ;; newSecretKeySpec plain
  | Aes256 => plain <- decrypt3 key bytes_ false ;; newSecretKeySpec plain
  end.
End SymmetricCipherFacade.
End SymmetricCipherFacade.

End Java.

(* ------------------------------------------------------------------ *)
(** ** A concrete instance of the collaborators

    Small executable stand-ins with the right shapes (a digest of the
    requested length, an invertible block transformation).  They serve to run
    the definitions on concrete inputs. *)

Module Toy.

Definition digest (n : nat) (data : bytes) : bytes :=
  map (fun i => fold_left (fun acc b => (acc * 31 + b + Z.of_nat i) mod 256)
                          data (Z.of_nat i))
      (seq 0 n).

Definition fit (n : nat) (data : bytes) : bytes := firstn n (data ++ repeat 0 n).

Definition blockEncrypt (key block : bytes) : bytes :=
  rev (xorBytes block (fit 16 key)).

Definition blockDecrypt (key block : bytes) : bytes :=
  xorBytes (rev block) (fit 16 key).

Definition legacySubKeys (key : bytes) (mac : bool) : LegacySubKeys :=
  if mac
  then
    let h := if (length key =? 16)%nat then digest 32 key else digest 64 key in
    mkLegacySubKeys (firstn (length key) h) (Some (skipn (length key) h))
  else mkLegacySubKeys key None.

Definition versionOfCiphertext (cipherText : bytes) : Res SymmetricCipherVersion :=
  match cipherText with
  | 1 :: _ => Ok AesCbcThenHmac
  | 2 :: _ => Ok Aead
  | _ => Ok UnusedReservedUnauthenticated
  end.

#[global] Instance primitives : Primitives := {|
  sha256Hash := digest 32;
  sha512Hash := digest 64;
  hkdf := fun salt ikm info n => digest (Z.to_nat n) (info ++ ikm);
  hmacSha256 := fun key data => digest 32 (key ++ data);
  aesEncryptBlock := blockEncrypt;
  aesDecryptBlock := blockDecrypt;
  getAesSubKeys := legacySubKeys;
  getFromCiphertext := versionOfCiphertext;
  assertionsEnabled := false
|}.

Definition world0 : World := mkWorld (fun i => Z.of_nat i) [].
Definition zeros (n : nat) : bytes := repeat 0 n.

End Toy.

(* ================================================================== *)
(** * Properties *)

(* ------------------------------------------------------------------ *)
(** ** Lists of bytes *)

Lemma byteLength_app (a b : bytes) : byteLength (a ++ b) = byteLength a + byteLength b.
Proof. unfold byteLength. rewrite length_app. lia. Qed.

Lemma byteLength_nonneg (a : bytes) : 0 <= byteLength a.
Proof. unfold byteLength. lia. Qed.

Lemma firstn_app_exact {A} (a b : list A) : firstn (length a) (a ++ b) = a.
Proof.
  rewrite firstn_app, Nat.sub_diag, firstn_all. simpl. apply app_nil_r.
Qed.

Lemma skipn_app_exact {A} (a b : list A) : skipn (length a) (a ++ b) = b.
Proof.
  rewrite skipn_app, Nat.sub_diag, skipn_all. reflexivity.
Qed.

(** The middle part of a three-part array, by [subarray]. *)
Lemma subarray_mid (a b c : bytes) :
  subarray (a ++ b ++ c) (byteLength a) (byteLength a + byteLength b) = b.
Proof.
  unfold subarray, relativeIndex.
  rewrite !byteLength_app.
  pose proof (byteLength_nonneg a). pose proof (byteLength_nonneg b).
  pose proof (byteLength_nonneg c).
  destruct (Z.ltb_spec (byteLength a) 0); [lia|].
  destruct (Z.ltb_spec (byteLength a + byteLength b) 0); [lia|].
  rewrite !Z.min_l by lia.
  replace (Z.to_nat (byteLength a + byteLength b - byteLength a)) with (length b)
    by (unfold byteLength; lia).
  replace (Z.to_nat (byteLength a)) with (length a) by (unfold byteLength; lia).
  rewrite skipn_app_exact. apply firstn_app_exact.
Qed.

Lemma copyOfRange_mid (a b c : bytes) :
  Java.copyOfRange (a ++ b ++ c) (byteLength a) (byteLength a + byteLength b) = Ok b.
Proof.
  unfold Java.copyOfRange.
  rewrite !byteLength_app.
  pose proof (byteLength_nonneg a). pose proof (byteLength_nonneg b).
  pose proof (byteLength_nonneg c).
  destruct (Z.ltb_spec (byteLength a + byteLength b - byteLength a) 0); [lia|].
  destruct (Z.ltb_spec (byteLength a) 0); [lia|].
  destruct (Z.ltb_spec (byteLength a + (byteLength b + byteLength c)) (byteLength a)); [lia|].
  simpl.
  replace (Z.to_nat (byteLength a + byteLength b - byteLength a)) with (length b)
    by (unfold byteLength; lia).
  replace (Z.to_nat (byteLength a)) with (length a) by (unfold byteLength; lia).
  rewrite skipn_app_exact, firstn_app_exact, length_app.
  replace (length b - (length b + length c))%nat with 0%nat by lia.
  simpl. rewrite app_nil_r. reflexivity.
Qed.

Lemma bytesEqual_refl (a : bytes) : bytesEqual a a = true.
Proof. unfold bytesEqual. destruct (list_eq_dec Z.eq_dec a a); congruence. Qed.

Lemma bytesEqual_neq (a b : bytes) : a <> b -> bytesEqual a b = false.
Proof. unfold bytesEqual. destruct (list_eq_dec Z.eq_dec a b); congruence. Qed.

Lemma xorBytes_length (a b : bytes) :
  length a = length b -> length (xorBytes a b) = length a.
Proof.
  intros H. unfold xorBytes. rewrite length_map, length_combine. lia.
Qed.

Lemma xorBytes_cancel (a b : bytes) :
  length a = length b -> xorBytes (xorBytes a b) b = a.
Proof.
  revert b. induction a as [|x a IH]; intros [|y b] H; simpl in *; try discriminate.
  - reflexivity.
  - unfold xorBytes in *. simpl. f_equal.
    + rewrite Z.lxor_assoc, Z.lxor_nilpotent. apply Z.lxor_0_r.
    + apply IH. lia.
Qed.

(* ------------------------------------------------------------------ *)
(** ** CBC mode inverts itself *)

Lemma splitBlocks_concat (fuel : nat) :
  forall data, (length data <= fuel)%nat -> concat (splitBlocks fuel data) = data.
Proof.
  induction fuel as [|fuel IH]; intros data Hlen.
  - destruct data; simpl in *; [reflexivity | lia].
  - destruct data as [|x data]; [reflexivity|].
    change (splitBlocks (S fuel) (x :: data))
      with (firstn 16 (x :: data) :: splitBlocks fuel (skipn 16 (x :: data))).
    unfold concat in *. rewrite concat_cons, IH.
    + apply firstn_skipn.
    + rewrite length_skipn. simpl in *. lia.
Qed.

Lemma splitBlocks_isBlock (fuel : nat) :
  forall data,
    (length data <= fuel)%nat -> Nat.modulo (length data) 16 = 0%nat ->
    Forall isBlock (splitBlocks fuel data).
Proof.
  induction fuel as [|fuel IH]; intros data Hlen Hmod.
  - constructor.
  - destruct data as [|x data]; [constructor|].
    change (splitBlocks (S fuel) (x :: data))
      with (firstn 16 (x :: data) :: splitBlocks fuel (skipn 16 (x :: data))).
    assert (16 <= length (x :: data))%nat.
    { destruct (Nat.lt_ge_cases (length (x :: data)) 16) as [Hlt|]; [|assumption].
      rewrite Nat.mod_small in Hmod by assumption. simpl in Hmod. discriminate. }
    constructor.
    + unfold isBlock. rewrite length_firstn. lia.
    + apply IH.
      * rewrite length_skipn. lia.
      * rewrite length_skipn.
        replace (length (x :: data)) with ((length (x :: data) - 16) + 1 * 16)%nat in Hmod
          by lia.
        rewrite Nat.Div0.mod_add in Hmod. exact Hmod.
Qed.

Lemma concat_blocks_length (blocks : list bytes) :
  Forall isBlock blocks -> length (concat blocks) = (16 * length blocks)%nat.
Proof.
  induction 1 as [|b blocks Hb _ IH]; [reflexivity|].
  unfold concat in *. rewrite concat_cons, length_app, IH, Hb. simpl. lia.
Qed.

Lemma splitBlocks_of_blocks (blocks : list bytes) :
  Forall isBlock blocks ->
  forall fuel, (length (concat blocks) <= fuel)%nat ->
               splitBlocks fuel (concat blocks) = blocks.
Proof.
  induction 1 as [|b blocks Hb Hrest IH]; intros fuel Hfuel.
  - destruct fuel; reflexivity.
  - unfold concat in *. rewrite concat_cons in *. rewrite length_app in Hfuel.
    unfold isBlock in Hb.
    destruct fuel as [|fuel]; [lia|].
    destruct b as [|x b]; [discriminate|].
    change (splitBlocks (S fuel) ((x :: b) ++ List.concat blocks))
      with (firstn 16 ((x :: b) ++ List.concat blocks)
              :: splitBlocks fuel (skipn 16 ((x :: b) ++ List.concat blocks))).
    rewrite <- Hb, firstn_app_exact, skipn_app_exact.
    f_equal. apply IH. lia.
Qed.

Lemma blocksOf_concat (blocks : list bytes) :
  Forall isBlock blocks -> blocksOf (concat blocks) = blocks.
Proof.
  intros H. unfold blocksOf. apply splitBlocks_of_blocks; [assumption | lia].
Qed.

Lemma pkcs7Pad_length (data : bytes) : Nat.modulo (length (pkcs7Pad data)) 16 = 0%nat.
Proof.
  unfold pkcs7Pad. rewrite length_app, repeat_length.
  pose proof (Nat.mod_upper_bound (length data) 16 ltac:(lia)) as Hlt.
  pose proof (Nat.div_mod_eq (length data) 16) as Hdm.
  replace (length data + (16 - length data mod 16))%nat
    with (0 + (length data / 16 + 1) * 16)%nat by lia.
  rewrite Nat.Div0.mod_add. reflexivity.
Qed.

Lemma forallb_repeat (b : Z) (n : nat) : forallb (Z.eqb b) (repeat b n) = true.
Proof. induction n; simpl; [reflexivity|]. rewrite Z.eqb_refl. assumption. Qed.

Lemma pkcs7Unpad_pad (data : bytes) : pkcs7Unpad (pkcs7Pad data) = Ok data.
Proof.
  unfold pkcs7Unpad, pkcs7Pad.
  pose proof (Nat.mod_upper_bound (length data) 16 ltac:(lia)) as Hlt.
  set (n := (16 - length data mod 16)%nat).
  assert (Hn : (1 <= n <= 16)%nat) by (unfold n; lia).
  assert (Hb : Z.to_nat (Z.of_nat n) = n) by lia.
  assert (Hrange : 1 <= Z.of_nat n <= 16) by lia.
  remember (Z.of_nat n) as b eqn:Eb.
  clearbody n. clear Eb Hlt.
  rewrite rev_app_distr, rev_repeat.
  destruct n as [|n']; [lia|].
  change (repeat b (S n') ++ rev data) with (b :: (repeat b n' ++ rev data)).
  cbv beta iota.
  rewrite Hb, length_app, repeat_length.
  replace (length data + S n' - S n')%nat with (length data) by lia.
  rewrite skipn_app_exact, firstn_app_exact, forallb_repeat.
  destruct (Z.leb_spec 1 b); [|lia].
  destruct (Z.leb_spec b 16); [|lia].
  destruct (Nat.leb_spec (S n') (length data + S n')); [|lia].
  reflexivity.
Qed.

Section CbcLemmas.
Context {P : Primitives} {OK : PrimitivesOk P}.

Lemma cbcEncryptBlocks_isBlock (key : bytes) (blocks : list bytes) :
  Forall isBlock blocks ->
  forall prev, isBlock prev -> Forall isBlock (cbcEncryptBlocks key prev blocks).
Proof.
  induction 1 as [|b blocks Hb _ IH]; intros prev Hprev; simpl; constructor.
  - apply aesEncryptBlock_length. rewrite xorBytes_length; unfold isBlock in *; lia.
  - apply IH. apply aesEncryptBlock_length.
    rewrite xorBytes_length; unfold isBlock in *; lia.
Qed.

Lemma cbcDecryptBlocks_encrypt (key : bytes) (blocks : list bytes) :
  Forall isBlock blocks ->
  forall prev, isBlock prev ->
               cbcDecryptBlocks key prev (cbcEncryptBlocks key prev blocks) = blocks.
Proof.
  induction 1 as [|b blocks Hb _ IH]; intros prev Hprev; simpl; [reflexivity|].
  unfold isBlock in *.
  assert (Hx : length (xorBytes b prev) = 16%nat) by (rewrite xorBytes_length; lia).
  rewrite aesDecryptBlock_encrypt by exact Hx.
  rewrite xorBytes_cancel by lia.
  f_equal. apply IH. apply aesEncryptBlock_length. exact Hx.
Qed.

Lemma cbcRoundTripBlocks (key iv data : bytes) :
  isBlock iv -> Nat.modulo (length data) 16 = 0%nat ->
  let c := concat (cbcEncryptBlocks key iv (blocksOf data)) in
  Nat.modulo (length c) 16 = 0%nat /\
  concat (cbcDecryptBlocks key iv (blocksOf c)) = data.
Proof.
  intros Hiv Hmod c.
  assert (Hb : Forall isBlock (blocksOf data))
    by (apply splitBlocks_isBlock; [lia | assumption]).
  assert (Hc : Forall isBlock (cbcEncryptBlocks key iv (blocksOf data)))
    by (apply cbcEncryptBlocks_isBlock; assumption).
  split.
  - unfold c. rewrite concat_blocks_length by assumption.
    rewrite Nat.mul_comm. apply Nat.Div0.mod_mul.
  - unfold c. rewrite blocksOf_concat by assumption.
    rewrite cbcDecryptBlocks_encrypt by assumption.
    apply splitBlocks_concat. lia.
Qed.

(** Decryption under the same key, IV and padding mode returns what was
    encrypted. *)
Lemma cbcDecrypt_cbcEncrypt (key plaintext iv c : bytes) (padding : bool) :
  cbcEncrypt key plaintext iv padding = Ok c ->
  cbcDecrypt key c iv padding = Ok plaintext.
Proof.
  unfold cbcEncrypt, cbcDecrypt.
  destruct (Nat.eqb_spec (length iv) 16) as [Hiv|]; cbn [negb]; [|discriminate].
  destruct padding.
  - intros [= <-].
    destruct (cbcRoundTripBlocks key iv (pkcs7Pad plaintext) Hiv (pkcs7Pad_length _))
      as [Hm Hd].
    rewrite Hm, Hd. cbn [Nat.eqb negb]. apply pkcs7Unpad_pad.
  - destruct (Nat.eqb_spec (length plaintext mod 16) 0) as [Hmod|]; cbn [negb];
      [|discriminate].
    intros [= <-].
    destruct (cbcRoundTripBlocks key iv plaintext Hiv Hmod) as [Hm Hd].
    rewrite Hm, Hd. reflexivity.
Qed.

Lemma cbcEncrypt_iv_length (key plaintext iv c : bytes) (padding : bool) :
  cbcEncrypt key plaintext iv padding = Ok c -> length iv = 16%nat.
Proof.
  unfold cbcEncrypt.
  destruct (Nat.eqb_spec (length iv) 16); cbn [negb]; [auto | discriminate].
Qed.

(** Encryption succeeds on a 16-byte IV whenever padding is on or the
    plaintext fills whole blocks. *)
Lemma cbcEncrypt_succeeds (key plaintext iv : bytes) (padding : bool) :
  length iv = 16%nat ->
  padding = true \/ Nat.modulo (length plaintext) 16 = 0%nat ->
  exists c, cbcEncrypt key plaintext iv padding = Ok c.
Proof.
  intros Hiv Hp. unfold cbcEncrypt. rewrite Hiv. cbn [Nat.eqb negb].
  destruct padding; [eauto|].
  destruct Hp as [|Hm]; [discriminate|]. rewrite Hm. cbn [Nat.eqb negb]. eauto.
Qed.
End CbcLemmas.

(* ------------------------------------------------------------------ *)
(** ** The concrete instance meets the contracts *)

Lemma toy_digest_length (n : nat) (data : bytes) : length (Toy.digest n data) = n.
Proof. unfold Toy.digest. rewrite length_map. apply length_seq. Qed.

Lemma toy_fit_length (n : nat) (data : bytes) : length (Toy.fit n data) = n.
Proof.
  unfold Toy.fit. rewrite length_firstn, length_app, repeat_length. lia.
Qed.

#[global] Instance toy_ok : PrimitivesOk Toy.primitives.
Proof.
  constructor; cbn [sha256Hash sha512Hash hkdf hmacSha256 aesEncryptBlock
                    aesDecryptBlock Toy.primitives]; intros.
  - apply toy_digest_length.
  - apply toy_digest_length.
  - unfold byteLength. rewrite toy_digest_length. lia.
  - apply toy_digest_length.
  - unfold Toy.blockEncrypt. rewrite length_rev, xorBytes_length; [assumption|].
    rewrite toy_fit_length. assumption.
  - unfold Toy.blockDecrypt, Toy.blockEncrypt. rewrite rev_involutive.
    apply xorBytes_cancel. rewrite toy_fit_length. assumption.
Qed.

(* ------------------------------------------------------------------ *)
(** ** Key lengths and slices *)

Lemma bitArrayLength_words (key : bytes) (n : Z) :
  bitArrayLength key = n <-> 4 * n - 3 <= byteLength key <= 4 * n.
Proof.
  unfold bitArrayLength.
  pose proof (Z.div_mod (byteLength key + 3) 4 ltac:(lia)) as Hd.
  pose proof (Z.mod_pos_bound (byteLength key + 3) 4 ltac:(lia)) as Hm.
  split; intros H; lia.
Qed.

Lemma bitArrayLength_16 (key : bytes) : length key = 16%nat -> bitArrayLength key = 4.
Proof. intros H. unfold bitArrayLength, byteLength. rewrite H. reflexivity. Qed.

Lemma bitArrayLength_32 (key : bytes) : length key = 32%nat -> bitArrayLength key = 8.
Proof. intros H. unfold bitArrayLength, byteLength. rewrite H. reflexivity. Qed.

Lemma getAndVerifyAesKeyLength_words4 (key : bytes) :
  bitArrayLength key = 4 -> getAndVerifyAesKeyLength key ACCEPTED_BIT_LENGTHS = Ok Aes128.
Proof. intros H. unfold getAndVerifyAesKeyLength. rewrite H. reflexivity. Qed.

Lemma getAndVerifyAesKeyLength_words8 (key : bytes) :
  bitArrayLength key = 8 -> getAndVerifyAesKeyLength key ACCEPTED_BIT_LENGTHS = Ok Aes256.
Proof. intros H. unfold getAndVerifyAesKeyLength. rewrite H. reflexivity. Qed.

Lemma getAndVerifyAesKeyLength_16 (key : bytes) :
  length key = 16%nat -> getAndVerifyAesKeyLength key ACCEPTED_BIT_LENGTHS = Ok Aes128.
Proof. intros H. apply getAndVerifyAesKeyLength_words4, bitArrayLength_16, H. Qed.

Lemma getAndVerifyAesKeyLength_32 (key : bytes) :
  length key = 32%nat -> getAndVerifyAesKeyLength key ACCEPTED_BIT_LENGTHS = Ok Aes256.
Proof. intros H. apply getAndVerifyAesKeyLength_words8, bitArrayLength_32, H. Qed.

Lemma getAndVerifyAesKeyLength_other (key : bytes) :
  bitArrayLength key <> 4 -> bitArrayLength key <> 8 ->
  getAndVerifyAesKeyLength key ACCEPTED_BIT_LENGTHS = Throw (CryptoError "Illegal key length").
Proof.
  intros H1 H2. unfold getAndVerifyAesKeyLength, ACCEPTED_BIT_LENGTHS.
  cbn [find bits].
  destruct (Z.eqb_spec 128 (bitArrayLength key * 4 * 8)); [lia|].
  destruct (Z.eqb_spec 256 (bitArrayLength key * 4 * 8)); [lia|].
  reflexivity.
Qed.

Lemma getAndVerifyAesKeyLength_inv (key : bytes) (l : AesKeyLength.t) :
  getAndVerifyAesKeyLength key ACCEPTED_BIT_LENGTHS = Ok l ->
  (l = Aes128 /\ bitArrayLength key = 4) \/ (l = Aes256 /\ bitArrayLength key = 8).
Proof.
  unfold getAndVerifyAesKeyLength, ACCEPTED_BIT_LENGTHS.
  cbn [find bits].
  destruct (Z.eqb_spec 128 (bitArrayLength key * 4 * 8)).
  - intros [= <-]. left. split; [reflexivity | lia].
  - destruct (Z.eqb_spec 256 (bitArrayLength key * 4 * 8)); [|discriminate].
    intros [= <-]. right. split; [reflexivity | lia].
Qed.

Lemma uint8ArrayToKey_16 (a : bytes) : length a = 16%nat -> uint8ArrayToKey a = Ok a.
Proof. intros H. unfold uint8ArrayToKey. rewrite getAndVerifyAesKeyLength_16; auto. Qed.

Lemma uint8ArrayToKey_32 (a : bytes) : length a = 32%nat -> uint8ArrayToKey a = Ok a.
Proof. intros H. unfold uint8ArrayToKey. rewrite getAndVerifyAesKeyLength_32; auto. Qed.

Lemma subarray_in_range (a : bytes) (b e : Z) :
  0 <= b <= e -> e <= byteLength a ->
  subarray a b e = firstn (Z.to_nat (e - b)) (skipn (Z.to_nat b) a).
Proof.
  intros Hb He. unfold subarray, relativeIndex.
  destruct (Z.ltb_spec b 0); [lia|]. destruct (Z.ltb_spec e 0); [lia|].
  rewrite !Z.min_l by lia. reflexivity.
Qed.

Lemma copyOfRange_in_range (a : bytes) (b e : Z) :
  0 <= b <= e -> e <= byteLength a ->
  Java.copyOfRange a b e = Ok (firstn (Z.to_nat (e - b)) (skipn (Z.to_nat b) a)).
Proof.
  intros Hb He. unfold Java.copyOfRange.
  destruct (Z.ltb_spec (e - b) 0); [lia|].
  destruct (Z.ltb_spec b 0); [lia|].
  destruct (Z.ltb_spec (byteLength a) b); [lia|].
  cbn [orb].
  replace (Z.to_nat (e - b) - length (skipn (Z.to_nat b) a))%nat with 0%nat.
  - cbn [repeat]. rewrite app_nil_r. reflexivity.
  - rewrite length_skipn. unfold byteLength in *. lia.
Qed.

Lemma halves (n : nat) (h : bytes) :
  length h = (2 * n)%nat ->
  firstn n h ++ firstn n (skipn n h) = h /\
  length (firstn n h) = n /\ length (firstn n (skipn n h)) = n /\
  firstn n (skipn n h) = skipn n h.
Proof.
  intros H.
  assert (Hs : firstn n (skipn n h) = skipn n h)
    by (apply firstn_all2; rewrite length_skipn; lia).
  rewrite Hs, firstn_skipn, length_firstn, length_skipn.
  repeat split; lia.
Qed.

(* ------------------------------------------------------------------ *)
(** ** SymmetricKeyDeriver *)

Section KeyDerivation.
Context {P : Primitives} {OK : PrimitivesOk P}.

Lemma deriveSubKeys_hmac_128 (key : bytes) :
  length key = 16%nat ->
  SymmetricKeyDeriver.deriveSubKeys key AesCbcThenHmac
  = Ok (mkSubKeys (firstn 16 (sha256Hash key)) (Some (skipn 16 (sha256Hash key)))).
Proof.
  intros H. unfold SymmetricKeyDeriver.deriveSubKeys.
  rewrite getAndVerifyAesKeyLength_16 by assumption. cbn [bindR].
  unfold keyToUint8Array.
  pose proof (sha256Hash_length key) as Hh.
  destruct (halves 16 (sha256Hash key) Hh) as (_ & H1 & H2 & H3).
  change (getKeyLengthAsBytes Aes128) with 16.
  rewrite !subarray_in_range by (unfold byteLength; lia).
  replace (Z.to_nat (byteLength (sha256Hash key) - 16)) with 16%nat
    by (unfold byteLength; lia).
  change (Z.to_nat (16 - 0)) with 16%nat. change (Z.to_nat 0) with 0%nat.
  change (Z.to_nat 16) with 16%nat. rewrite skipn_O.
  rewrite H3 in *. rewrite !uint8ArrayToKey_16 by assumption.
  reflexivity.
Qed.

Lemma deriveSubKeys_hmac_256 (key : bytes) :
  length key = 32%nat ->
  SymmetricKeyDeriver.deriveSubKeys key AesCbcThenHmac
  = Ok (mkSubKeys (firstn 32 (sha512Hash key)) (Some (skipn 32 (sha512Hash key)))).
Proof.
  intros H. unfold SymmetricKeyDeriver.deriveSubKeys.
  rewrite getAndVerifyAesKeyLength_32 by assumption. cbn [bindR].
  unfold keyToUint8Array.
  pose proof (sha512Hash_length key) as Hh.
  destruct (halves 32 (sha512Hash key) Hh) as (_ & H1 & H2 & H3).
  change (getKeyLengthAsBytes Aes256) with 32.
  rewrite !subarray_in_range by (unfold byteLength; lia).
  replace (Z.to_nat (byteLength (sha512Hash key) - 32)) with 32%nat
    by (unfold byteLength; lia).
  change (Z.to_nat (32 - 0)) with 32%nat. change (Z.to_nat 0) with 0%nat.
  change (Z.to_nat 32) with 32%nat. rewrite skipn_O.
  rewrite H3 in *. rewrite !uint8ArrayToKey_32 by assumption.
  reflexivity.
Qed.

(** With a valid key the AesCbcThenHmac derivation yields an encryption
    key and an authentication key. *)
Lemma deriveSubKeys_hmac_valid (key : bytes) :
  length key = 16%nat \/ length key = 32%nat ->
  exists ek ak,
    SymmetricKeyDeriver.deriveSubKeys key AesCbcThenHmac = Ok (mkSubKeys ek (Some ak)).
Proof.
  intros [H|H]; [rewrite deriveSubKeys_hmac_128 | rewrite deriveSubKeys_hmac_256];
    eauto.
Qed.

Lemma deriveSubKeys_unauthenticated_words4 (key : bytes) :
  bitArrayLength key = 4 ->
  SymmetricKeyDeriver.deriveSubKeys key UnusedReservedUnauthenticated
  = Ok (mkSubKeys key None).
Proof.
  intros H. unfold SymmetricKeyDeriver.deriveSubKeys.
  rewrite getAndVerifyAesKeyLength_words4 by assumption. reflexivity.
Qed.

Lemma deriveSubKeys_unauthenticated_inv (key : bytes) (sk : SubKeys) :
  SymmetricKeyDeriver.deriveSubKeys key UnusedReservedUnauthenticated = Ok sk ->
  sk = mkSubKeys key None /\ bitArrayLength key = 4.
Proof.
  unfold SymmetricKeyDeriver.deriveSubKeys.
  destruct (getAndVerifyAesKeyLength key ACCEPTED_BIT_LENGTHS) as [l|e] eqn:E;
    cbn [bindR]; [|discriminate].
  destruct (getAndVerifyAesKeyLength_inv _ _ E) as [[-> Hl]|[-> Hl]];
    cbn [AesKeyLength.eqb negb]; [|discriminate].
  intros [= <-]. auto.
Qed.

Lemma deriveSubKeys_hmac_inv (key : bytes) (sk : SubKeys) :
  SymmetricKeyDeriver.deriveSubKeys key AesCbcThenHmac = Ok sk ->
  exists ak, authenticationKey sk = Some ak.
Proof.
  unfold SymmetricKeyDeriver.deriveSubKeys.
  destruct (getAndVerifyAesKeyLength key ACCEPTED_BIT_LENGTHS) as [l|e];
    cbn [bindR]; [|discriminate].
  destruct (uint8ArrayToKey _) as [ek|]; cbn [bindR]; [|discriminate].
  destruct (uint8ArrayToKey _) as [ak|]; cbn [bindR]; [|discriminate].
  intros [= <-]. exists ak. reflexivity.
Qed.

(** The info bytes the TypeScript Aead branch passes to hkdf: eighteen
    zero bytes and the version byte. *)
Lemma infoWithCipherVersion_typescript :
  SymmetricKeyDeriver.infoWithCipherVersion Aead = repeat 0 18 ++ [2].
Proof. reflexivity. Qed.

Lemma infoWithCipherVersion_java :
  Java.SymmetricKeyDeriver.infoWithCipherVersion Aead
  = [65; 69; 65; 68; 32; 107; 101; 121; 32; 115; 112; 108; 105; 116; 116; 105; 110; 103; 2].
Proof. reflexivity. Qed.

Lemma deriveSubKeys_aead_typescript (key : bytes) :
  length key = 16%nat \/ length key = 32%nat ->
  let d := hkdf None key (SymmetricKeyDeriver.infoWithCipherVersion Aead) 64 in
  SymmetricKeyDeriver.deriveSubKeys key Aead
  = Ok (mkSubKeys (firstn 32 d) (Some (skipn 32 d))).
Proof.
  intros H d. unfold SymmetricKeyDeriver.deriveSubKeys.
  assert (exists l, getAndVerifyAesKeyLength key ACCEPTED_BIT_LENGTHS = Ok l) as [l ->].
  { destruct H; [rewrite getAndVerifyAesKeyLength_16 | rewrite getAndVerifyAesKeyLength_32];
      eauto. }
  cbn [bindR]. unfold keyToUint8Array.
  change (getKeyLengthAsBytes Aes256) with 32. change (2 * 32) with 64.
  fold d.
  assert (Hd : byteLength d = 64) by (apply hkdf_length; lia).
  assert (Hh : length d = (2 * 32)%nat) by (unfold byteLength in Hd; lia).
  destruct (halves 32 d Hh) as (_ & H1 & H2 & H3).
  rewrite !subarray_in_range by lia.
  change (Z.to_nat (32 - 0)) with 32%nat. change (Z.to_nat 0) with 0%nat.
  change (Z.to_nat (64 - 32)) with 32%nat.
  change (Z.to_nat 32) with 32%nat. rewrite skipn_O.
  rewrite H3 in *. rewrite !uint8ArrayToKey_32 by assumption.
  reflexivity.
Qed.

Lemma AesKeyLength_get_valid (key : bytes) :
  length key = 16%nat \/ length key = 32%nat ->
  exists l, Java.AesKeyLength_get key = Ok l /\ Z.of_nat (length key) = Java.getKeyLengthBytes l.
Proof.
  unfold Java.AesKeyLength_get, byteLength. intros [H|H]; rewrite H.
  - exists Aes128. split; reflexivity.
  - exists Aes256. split; reflexivity.
Qed.

Lemma AesKeyLength_get_inv (key : bytes) (l : AesKeyLength.t) :
  Java.AesKeyLength_get key = Ok l ->
  (l = Aes128 /\ length key = 16%nat) \/ (l = Aes256 /\ length key = 32%nat).
Proof.
  unfold Java.AesKeyLength_get, byteLength.
  destruct (Z.eqb_spec (Z.of_nat (length key)) 16).
  - intros [= <-]. left. split; [reflexivity | lia].
  - destruct (Z.eqb_spec (Z.of_nat (length key)) 32); [|discriminate].
    intros [= <-]. right. split; [reflexivity | lia].
Qed.

(** The Java derivation for Aead: HKDF with null salt over the key bytes,
    info the ASCII bytes of the label followed by the version byte, 64
    bytes of output split in two 32-byte keys. *)
Lemma deriveSubKeys_aead_java (key : bytes) :
  length key = 16%nat \/ length key = 32%nat ->
  let info := asciiBytes "AEAD key splitting" ++ symmetricCipherVersionToUint8Array Aead in
  let d := hkdf None key info 64 in
  Java.SymmetricKeyDeriver.deriveSubKeys key Aead = Ok (mkSubKeys (firstn 32 d) (Some (skipn 32 d)))
  /\ length (firstn 32 d) = 32%nat /\ length (skipn 32 d) = 32%nat.
Proof.
  intros H info d. unfold Java.SymmetricKeyDeriver.deriveSubKeys.
  destruct (AesKeyLength_get_valid key H) as (l & -> & _).
  cbn [bindR]. unfold Java.keyToBytes.
  change (2 * Java.AES256_KEY_LENGTH_BYTES) with 64.
  change Java.AES256_KEY_LENGTH_BYTES with 32.
  change (Java.SymmetricKeyDeriver.infoWithCipherVersion Aead) with info. fold d.
  assert (Hd : byteLength d = 64) by (apply hkdf_length; lia).
  assert (Hh : length d = (2 * 32)%nat) by (unfold byteLength in Hd; lia).
  destruct (halves 32 d Hh) as (_ & H1 & H2 & H3).
  rewrite !copyOfRange_in_range by lia.
  change (Z.to_nat (32 - 0)) with 32%nat. change (Z.to_nat 0) with 0%nat.
  change (Z.to_nat (64 - 32)) with 32%nat.
  change (Z.to_nat 32) with 32%nat. rewrite skipn_O. cbn [bindR].
  rewrite H3 in *. repeat split; assumption.
Qed.
End KeyDerivation.

(** C4: for every valid key, deriveSubKeys with version AesCbcThenHmac
    hashes the raw key bytes with SHA-256 (16-byte key) or SHA-512 (32-byte
    key) and returns the first keyLength bytes of the hash as the encryption
    key and the second keyLength bytes as the authentication key; the two
    keys together are the whole hash, nothing is cut off. *)
Theorem C4_deriveSubKeys_splits_hash {P : Primitives} {OK : PrimitivesOk P} (key : bytes) :
  length key = 16%nat \/ length key = 32%nat ->
  let n := length key in
  let h := if (n =? 16)%nat then sha256Hash key else sha512Hash key in
  SymmetricKeyDeriver.deriveSubKeys key AesCbcThenHmac
  = Ok (mkSubKeys (firstn n h) (Some (firstn n (skipn n h))))
  /\ firstn n h ++ firstn n (skipn n h) = h
  /\ length (firstn n h) = n
  /\ length (firstn n (skipn n h)) = n.
Proof.
  intros [H|H] n h; subst n h; rewrite H; cbn [Nat.eqb].
  - destruct (halves 16 (sha256Hash key) (sha256Hash_length key)) as (Ha & Hb & Hc & Hd).
    rewrite deriveSubKeys_hmac_128, Hd by assumption.
    rewrite Hd in Ha, Hc. auto.
  - destruct (halves 32 (sha512Hash key) (sha512Hash_length key)) as (Ha & Hb & Hc & Hd).
    rewrite deriveSubKeys_hmac_256, Hd by assumption.
    rewrite Hd in Ha, Hc. auto.
Qed.

Lemma C4_deriveSubKeys_splits_hash_witness :
  let key := Toy.zeros 32 in
  SymmetricKeyDeriver.deriveSubKeys key AesCbcThenHmac
  = Ok (mkSubKeys (firstn 32 (sha512Hash key)) (Some (firstn 32 (skipn 32 (sha512Hash key)))))
  /\ firstn 32 (sha512Hash key) ++ firstn 32 (skipn 32 (sha512Hash key)) = sha512Hash key
  /\ length (firstn 32 (sha512Hash key)) = 32%nat
  /\ length (firstn 32 (skipn 32 (sha512Hash key))) = 32%nat.
Proof.
  exact (C4_deriveSubKeys_splits_hash (Toy.zeros 32) (or_intror eq_refl)).
Defined.

(** C5 (TypeScript): for every valid key, deriveSubKeys with version Aead
    runs HKDF with null salt over the raw key bytes and splits 64 bytes of
    output in two 32-byte keys, but the info it passes is eighteen zero bytes
    followed by the version byte: Uint8Array.from applied to the label string
    does not yield the label's ASCII bytes. *)
Theorem C5_typescript_info_is_not_ascii {P : Primitives} {OK : PrimitivesOk P} (key : bytes) :
  length key = 16%nat \/ length key = 32%nat ->
  let info := repeat 0 18 ++ [versionValue Aead] in
  let d := hkdf None key info 64 in
  SymmetricKeyDeriver.deriveSubKeys key Aead = Ok (mkSubKeys (firstn 32 d) (Some (skipn 32 d)))
  /\ info <> asciiBytes "AEAD key splitting" ++ [versionValue Aead].
Proof.
  intros H info d. split.
  - apply (deriveSubKeys_aead_typescript key H).
  - discriminate.
Qed.

Lemma C5_typescript_info_is_not_ascii_witness :
  let key := Toy.zeros 16 in
  let info := repeat 0 18 ++ [versionValue Aead] in
  let d := hkdf None key info 64 in
  SymmetricKeyDeriver.deriveSubKeys key Aead = Ok (mkSubKeys (firstn 32 d) (Some (skipn 32 d)))
  /\ info <> asciiBytes "AEAD key splitting" ++ [versionValue Aead].
Proof.
  exact (C5_typescript_info_is_not_ascii (Toy.zeros 16) (or_introl eq_refl)).
Defined.

(** On the concrete instance the TypeScript and the Java derivation yield
    different Aead sub-keys for the same master key. *)
Example deriveSubKeys_aead_typescript_differs_from_java :
  SymmetricKeyDeriver.deriveSubKeys (Toy.zeros 16) Aead
  <> Java.SymmetricKeyDeriver.deriveSubKeys (Toy.zeros 16) Aead.
Proof. vm_compute. discriminate. Qed.




(* ------------------------------------------------------------------ *)
(** ** AesCbcFacade: what a run does *)

Lemma addEvents_addEvents (w : World) (a b : list Event) :
  addEvents (addEvents w a) b = addEvents w (a ++ b).
Proof. unfold addEvents. cbn [randomness trace]. rewrite <- app_assoc. reflexivity. Qed.

Ltac run_monad :=
  cbv [bind lift ret throw emit try_catch hmac verifyHmacSha256 cbc_encrypt cbc_decrypt
       Java.wrapChecked Java.javaAssert Java.deref Java.isSome assertNotNull
       encryptionKey authenticationKey].

Ltac run_monad_in H :=
  cbv [bind lift ret throw emit try_catch hmac verifyHmacSha256 cbc_encrypt cbc_decrypt
       Java.wrapChecked Java.javaAssert Java.deref Java.isSome assertNotNull
       encryptionKey authenticationKey] in H.

Section FacadeRuns.
Context {P : Primitives}.

Lemma encrypt_unauthenticated_run (key pt iv : bytes) (prepend padding : bool) (w : World) :
  bitArrayLength key = 4 ->
  AesCbcFacade.encrypt key pt prepend iv padding UnusedReservedUnauthenticated w
  = (match cbcEncrypt key pt iv padding with
     | Ok c => Ok (if prepend then iv ++ c else c)
     | Throw e => Throw e
     end,
     addEvents w [EvCbcEncrypt key iv pt padding]).
Proof.
  intros Hk. unfold AesCbcFacade.encrypt.
  rewrite deriveSubKeys_unauthenticated_words4 by assumption.
  run_monad.
  destruct (cbcEncrypt key pt iv padding) as [c|e]; [|reflexivity].
  destruct prepend; unfold concat; cbn [List.concat]; rewrite ?app_nil_r; reflexivity.
Qed.

Lemma encrypt_hmac_run (key pt iv ek ak : bytes) (prepend padding : bool) (w : World) :
  SymmetricKeyDeriver.deriveSubKeys key AesCbcThenHmac = Ok (mkSubKeys ek (Some ak)) ->
  AesCbcFacade.encrypt key pt prepend iv padding AesCbcThenHmac w
  = match cbcEncrypt ek pt iv padding with
    | Ok c =>
        let unauthenticated := if prepend then iv ++ c else c in
        (Ok ([versionValue AesCbcThenHmac] ++ unauthenticated
             ++ hmacSha256 ak unauthenticated),
         addEvents w [EvCbcEncrypt ek iv pt padding; EvHmac ak unauthenticated])
    | Throw e => (Throw e, addEvents w [EvCbcEncrypt ek iv pt padding])
    end.
Proof.
  intros Hd. unfold AesCbcFacade.encrypt. rewrite Hd.
  run_monad.
  destruct (cbcEncrypt ek pt iv padding) as [c|e]; [|reflexivity].
  rewrite addEvents_addEvents.
  destruct prepend; unfold concat, symmetricCipherVersionToUint8Array;
    cbn [List.concat app]; rewrite ?app_nil_r; reflexivity.
Qed.

Lemma decrypt_unauthenticated_run (key ct : bytes) (randomIv padding : bool) (w : World) :
  bitArrayLength key = 4 ->
  let iv := if randomIv then subarray ct 0 IV_BYTE_LENGTH else FIXED_IV in
  let c := if randomIv then subarray ct IV_BYTE_LENGTH (byteLength ct) else ct in
  AesCbcFacade.decrypt key ct randomIv padding UnusedReservedUnauthenticated w
  = (match cbcDecrypt key c iv padding with
     | Ok p => Ok p
     | Throw _ => Throw (CryptoError "aes decryption failed")
     end,
     addEvents w [EvCbcDecrypt key iv c padding]).
Proof.
  intros Hk iv c. unfold AesCbcFacade.decrypt.
  rewrite deriveSubKeys_unauthenticated_words4 by assumption.
  run_monad. fold iv c.
  destruct (cbcDecrypt key c iv padding); reflexivity.
Qed.

Lemma decrypt_hmac_run (key ct ek ak : bytes) (randomIv padding : bool) (w : World) :
  SymmetricKeyDeriver.deriveSubKeys key AesCbcThenHmac = Ok (mkSubKeys ek (Some ak)) ->
  let body := subarray ct 1 (byteLength ct - 32) in
  let tag := subarray ct (byteLength ct - 32) (byteLength ct) in
  let iv := if randomIv then subarray body 0 IV_BYTE_LENGTH else FIXED_IV in
  let c := if randomIv then subarray body IV_BYTE_LENGTH (byteLength body) else body in
  AesCbcFacade.decrypt key ct randomIv padding AesCbcThenHmac w
  = if bytesEqual (hmacSha256 ak body) tag
    then (match cbcDecrypt ek c iv padding with
          | Ok p => Ok p
          | Throw _ => Throw (CryptoError "aes decryption failed")
          end,
          addEvents w [EvHmac ak body; EvCbcDecrypt ek iv c padding])
    else (Throw AuthenticationFailed, addEvents w [EvHmac ak body]).
Proof.
  intros Hd body tag iv c. unfold AesCbcFacade.decrypt. rewrite Hd.
  run_monad.
  change SYMMETRIC_CIPHER_VERSION_PREFIX_LENGTH_BYTES with 1.
  change SYMMETRIC_AUTHENTICATION_TAG_LENGTH_BYTES with 32.
  fold body tag.
  destruct (bytesEqual (hmacSha256 ak body) tag); [|reflexivity].
  fold iv c. rewrite addEvents_addEvents.
  destruct (cbcDecrypt ek c iv padding); reflexivity.
Qed.
End FacadeRuns.

(* ------------------------------------------------------------------ *)
(** ** Slicing an envelope *)

Lemma subarray_app_prefix (a b : bytes) (n : Z) :
  n = byteLength a -> subarray (a ++ b) 0 n = a.
Proof.
  intros ->. pose proof (subarray_mid [] a b) as H.
  cbn [app] in H. change (byteLength []) with 0 in H. exact H.
Qed.

Lemma subarray_app_suffix (a b : bytes) (n m : Z) :
  n = byteLength a -> m = byteLength (a ++ b) -> subarray (a ++ b) n m = b.
Proof.
  intros -> ->. pose proof (subarray_mid a b []) as H.
  rewrite app_nil_r in H. rewrite byteLength_app. exact H.
Qed.

Lemma envelope_body (v : Z) (body tag : bytes) :
  length tag = 32%nat ->
  let ct := [v] ++ body ++ tag in
  subarray ct 1 (byteLength ct - 32) = body.
Proof.
  intros Ht ct. pose proof (subarray_mid [v] body tag) as H.
  change (byteLength [v]) with 1 in H. unfold ct.
  rewrite !byteLength_app. change (byteLength [v]) with 1.
  replace (1 + (byteLength body + byteLength tag) - 32) with (1 + byteLength body)
    by (unfold byteLength; lia).
  exact H.
Qed.

Lemma envelope_tag (v : Z) (body tag : bytes) :
  length tag = 32%nat ->
  let ct := [v] ++ body ++ tag in
  subarray ct (byteLength ct - 32) (byteLength ct) = tag.
Proof.
  intros Ht ct. unfold ct. rewrite app_assoc.
  apply subarray_app_suffix; [|reflexivity].
  rewrite !byteLength_app. unfold byteLength. lia.
Qed.

Lemma copyOfRange_app_prefix (a b : bytes) (n : Z) :
  n = byteLength a -> Java.copyOfRange (a ++ b) 0 n = Ok a.
Proof.
  intros ->. pose proof (copyOfRange_mid [] a b) as H.
  cbn [app] in H. change (byteLength []) with 0 in H. exact H.
Qed.

Lemma copyOfRange_app_suffix (a b : bytes) (n m : Z) :
  n = byteLength a -> m = byteLength (a ++ b) -> Java.copyOfRange (a ++ b) n m = Ok b.
Proof.
  intros -> ->. pose proof (copyOfRange_mid a b []) as H.
  rewrite app_nil_r in H. rewrite byteLength_app. exact H.
Qed.

(* ------------------------------------------------------------------ *)
(** ** AesCbcFacade: layout, authentication order and round trip *)

Section AesCbcFacadeProperties.
Context {P : Primitives} {OK : PrimitivesOk P}.

Lemma encrypt_hmac_inv (key pt iv env : bytes) (prepend padding : bool) (w w' : World) :
  AesCbcFacade.encrypt key pt prepend iv padding AesCbcThenHmac w = (Ok env, w') ->
  exists ek ak c,
    SymmetricKeyDeriver.deriveSubKeys key AesCbcThenHmac = Ok (mkSubKeys ek (Some ak))
    /\ cbcEncrypt ek pt iv padding = Ok c
    /\ env = [versionValue AesCbcThenHmac] ++ (if prepend then iv ++ c else c)
             ++ hmacSha256 ak (if prepend then iv ++ c else c)
    /\ w' = addEvents w [EvCbcEncrypt ek iv pt padding;
                         EvHmac ak (if prepend then iv ++ c else c)].
Proof.
  intros H.
  destruct (SymmetricKeyDeriver.deriveSubKeys key AesCbcThenHmac) as [sk|e] eqn:Hd.
  - destruct (deriveSubKeys_hmac_inv key sk Hd) as [ak Hak].
    destruct sk as [ek oak]. cbn [authenticationKey] in Hak. subst oak.
    rewrite (encrypt_hmac_run key pt iv ek ak prepend padding w Hd) in H.
    destruct (cbcEncrypt ek pt iv padding) as [c|e] eqn:Hc; [|discriminate].
    cbv zeta in H. injection H as <- <-.
    exists ek, ak, c. auto.
  - unfold AesCbcFacade.encrypt in H. rewrite Hd in H. discriminate.
Qed.

Lemma encrypt_unauthenticated_inv (key pt iv env : bytes) (prepend padding : bool)
      (w w' : World) :
  AesCbcFacade.encrypt key pt prepend iv padding UnusedReservedUnauthenticated w
  = (Ok env, w') ->
  exists c,
    bitArrayLength key = 4
    /\ cbcEncrypt key pt iv padding = Ok c
    /\ env = (if prepend then iv ++ c else c).
Proof.
  intros H.
  destruct (SymmetricKeyDeriver.deriveSubKeys key UnusedReservedUnauthenticated)
    as [sk|e] eqn:Hd.
  - destruct (deriveSubKeys_unauthenticated_inv key sk Hd) as [_ Hk].
    rewrite (encrypt_unauthenticated_run key pt iv prepend padding w Hk) in H.
    destruct (cbcEncrypt key pt iv padding) as [c|e] eqn:Hc; [|discriminate].
    injection H as <- <-. exists c. auto.
  - unfold AesCbcFacade.encrypt in H. rewrite Hd in H. discriminate.
Qed.

(** What was encrypted by AesCbcFacade is recovered by its decrypt, provided
    the IV travels with the envelope or is the fixed IV. *)
Lemma aesCbcFacade_roundtrip (key pt iv env : bytes) (prepend padding : bool)
      (version : SymmetricCipherVersion) (w w' : World) :
  AesCbcFacade.encrypt key pt prepend iv padding version w = (Ok env, w') ->
  prepend = true \/ iv = FIXED_IV ->
  forall w2, fst (AesCbcFacade.decrypt key env prepend padding version w2) = Ok pt.
Proof.
  intros H Hiv w2. destruct version.
  - destruct (encrypt_unauthenticated_inv _ _ _ _ _ _ _ _ H) as (c & Hk & Hc & ->).
    rewrite (decrypt_unauthenticated_run _ _ _ _ _ Hk). cbn [fst].
    pose proof (cbcEncrypt_iv_length _ _ _ _ _ Hc) as Hl.
    destruct prepend.
    + rewrite subarray_app_prefix by (unfold byteLength; rewrite Hl; reflexivity).
      rewrite subarray_app_suffix by (unfold byteLength; rewrite ?Hl; reflexivity).
      rewrite (cbcDecrypt_cbcEncrypt _ _ _ _ _ Hc). reflexivity.
    + destruct Hiv as [Hp | ->]; [discriminate|].
      rewrite (cbcDecrypt_cbcEncrypt _ _ _ _ _ Hc). reflexivity.
  - destruct (encrypt_hmac_inv _ _ _ _ _ _ _ _ H) as (ek & ak & c & Hd & Hc & -> & _).
    rewrite (decrypt_hmac_run _ _ ek ak _ _ _ Hd).
    pose proof (cbcEncrypt_iv_length _ _ _ _ _ Hc) as Hl.
    set (u := if prepend then iv ++ c else c).
    pose proof (hmacSha256_length ak u) as Ht.
    rewrite (envelope_body _ u _ Ht), (envelope_tag _ u _ Ht), bytesEqual_refl.
    cbn [fst]. unfold u. destruct prepend.
    + rewrite subarray_app_prefix by (unfold byteLength; rewrite Hl; reflexivity).
      rewrite subarray_app_suffix by (unfold byteLength; rewrite ?Hl; reflexivity).
      rewrite (cbcDecrypt_cbcEncrypt _ _ _ _ _ Hc). reflexivity.
    + destruct Hiv as [Hp | ->]; [discriminate|].
      rewrite (cbcDecrypt_cbcEncrypt _ _ _ _ _ Hc). reflexivity.
  - unfold AesCbcFacade.encrypt in H. run_monad_in H.
    destruct (SymmetricKeyDeriver.deriveSubKeys key Aead) as [sk|e]; [|discriminate].
    destruct (cbcEncrypt _ pt iv padding); discriminate.
Qed.
End AesCbcFacadeProperties.

(* ------------------------------------------------------------------ *)
(** ** AeadFacade (Java) *)

Section AeadFacadeProperties.
Context {P : Primitives} {OK : PrimitivesOk P}.

Lemma java_deriveSubKeys_aead_valid (key : bytes) :
  length key = 16%nat \/ length key = 32%nat ->
  exists ek ak, Java.SymmetricKeyDeriver.deriveSubKeys key Aead = Ok (mkSubKeys ek (Some ak)).
Proof.
  intros H. destruct (deriveSubKeys_aead_java key H) as (Hd & _). eauto.
Qed.

Lemma java_deriveSubKeys_aead_inv (key : bytes) (sk : SubKeys) :
  Java.SymmetricKeyDeriver.deriveSubKeys key Aead
  = Ok sk -> exists ak, authenticationKey sk = Some ak.
Proof.
  unfold Java.SymmetricKeyDeriver.deriveSubKeys.
  destruct (Java.AesKeyLength_get key) as [l|e]; cbn [bindR]; [|discriminate].
  destruct (Java.copyOfRange _ 0 _) as [ek|]; cbn [bindR]; [|discriminate].
  destruct (Java.copyOfRange _ _ _) as [ak|]; cbn [bindR]; [|discriminate].
  intros [= <-]. exists ak. reflexivity.
Qed.

Lemma aeadFacade_encrypt_run (key pt iv ad ek ak : bytes) (padding : bool) (w : World) :
  Java.SymmetricKeyDeriver.deriveSubKeys key Aead = Ok (mkSubKeys ek (Some ak)) ->
  Java.AeadFacade.encrypt key pt iv padding ad w
  = match cbcEncrypt ek pt iv padding with
    | Ok c =>
        let region := [versionValue Aead] ++ iv ++ c in
        (Ok (region ++ hmacSha256 ak (region ++ ad)),
         addEvents w [EvCbcEncrypt ek iv pt padding; EvHmac ak (region ++ ad)])
    | Throw e => (Throw e, addEvents w [EvCbcEncrypt ek iv pt padding])
    end.
Proof.
  intros Hd. unfold Java.AeadFacade.encrypt. rewrite Hd.
  run_monad. cbn [negb]. rewrite andb_false_r.
  destruct (cbcEncrypt ek pt iv padding) as [c|e]; [|reflexivity].
  rewrite addEvents_addEvents.
  unfold Java.merge, concat, symmetricCipherVersionToUint8Array.
  cbn [List.concat app]. rewrite !app_nil_r. reflexivity.
Qed.

(** The result of the CBC decryption as it leaves the Java facade: checked
    exceptions come out wrapped. *)
Lemma aeadFacade_decrypt_run (key iv c tag ad ek ak : bytes) (v : Z) (padding : bool)
      (w : World) :
  Java.SymmetricKeyDeriver.deriveSubKeys key Aead = Ok (mkSubKeys ek (Some ak)) ->
  length iv = 16%nat -> length tag = 32%nat ->
  let region := [v] ++ iv ++ c in
  Java.AeadFacade.decrypt key (region ++ tag) padding ad w
  = if bytesEqual (hmacSha256 ak (region ++ ad)) tag
    then (match cbcDecrypt ek c iv padding with
          | Ok p => Ok p
          | Throw e => Throw (Java.wrapError e)
          end,
          addEvents w [EvHmac ak (region ++ ad); EvCbcDecrypt ek iv c padding])
    else (Throw AuthenticationFailed, addEvents w [EvHmac ak (region ++ ad)]).
Proof.
  intros Hd Hiv Htag region. unfold Java.AeadFacade.decrypt. rewrite Hd.
  change SYMMETRIC_AUTHENTICATION_TAG_LENGTH_BYTES with 32.
  change SYMMETRIC_CIPHER_VERSION_PREFIX_LENGTH_BYTES with 1.
  change (1 + IV_BYTE_LENGTH) with 17.
  rewrite (copyOfRange_app_prefix region tag)
    by (rewrite byteLength_app; unfold byteLength; lia).
  rewrite (copyOfRange_app_suffix region tag)
    by (rewrite ?byteLength_app; unfold byteLength; lia).
  assert (Hiv' : Java.copyOfRange region 1 17 = Ok iv).
  { pose proof (copyOfRange_mid [v] iv c) as H. change (byteLength [v]) with 1 in H.
    replace (1 + byteLength iv) with 17 in H by (unfold byteLength; lia). exact H. }
  assert (Hc' : Java.copyOfRange region 17 (byteLength region) = Ok c).
  { unfold region. rewrite app_assoc. apply copyOfRange_app_suffix; [|reflexivity].
    rewrite byteLength_app. unfold byteLength. cbn [length]. lia. }
  run_monad. cbn [negb]. rewrite andb_false_r.
  rewrite Hiv', Hc'.
  unfold Java.merge, concat. cbn [List.concat]. rewrite !app_nil_r.
  destruct (bytesEqual (hmacSha256 ak (region ++ ad)) tag); [|reflexivity].
  rewrite addEvents_addEvents.
  destruct (cbcDecrypt ek c iv padding) as [p|e]; reflexivity.
Qed.

Lemma aeadFacade_encrypt_inv (key pt iv ad env : bytes) (padding : bool) (w w' : World) :
  Java.AeadFacade.encrypt key pt iv padding ad w = (Ok env, w') ->
  exists ek ak c,
    Java.SymmetricKeyDeriver.deriveSubKeys key Aead = Ok (mkSubKeys ek (Some ak))
    /\ cbcEncrypt ek pt iv padding = Ok c
    /\ env = ([versionValue Aead] ++ iv ++ c)
             ++ hmacSha256 ak (([versionValue Aead] ++ iv ++ c) ++ ad).
Proof.
  intros H.
  destruct (Java.SymmetricKeyDeriver.deriveSubKeys key Aead) as [sk|e] eqn:Hd.
  - destruct (java_deriveSubKeys_aead_inv key sk Hd) as [ak Hak].
    destruct sk as [ek oak]. cbn [authenticationKey] in Hak. subst oak.
    rewrite (aeadFacade_encrypt_run key pt iv ad ek ak padding w Hd) in H.
    destruct (cbcEncrypt ek pt iv padding) as [c|e] eqn:Hc; [|discriminate].
    cbv zeta in H. exists ek, ak, c. repeat split; congruence.
  - unfold Java.AeadFacade.encrypt in H. rewrite Hd in H. discriminate.
Qed.

Lemma aeadFacade_roundtrip (key pt iv ad env : bytes) (padding : bool) (w w' : World) :
  Java.AeadFacade.encrypt key pt iv padding ad w = (Ok env, w') ->
  forall w2, fst (Java.AeadFacade.decrypt key env padding ad w2) = Ok pt.
Proof.
  intros H w2.
  destruct (aeadFacade_encrypt_inv _ _ _ _ _ _ _ _ H) as (ek & ak & c & Hd & Hc & ->).
  pose proof (cbcEncrypt_iv_length _ _ _ _ _ Hc) as Hl.
  rewrite (aeadFacade_decrypt_run key iv c _ ad ek ak (versionValue Aead) padding w2 Hd Hl)
    by apply hmacSha256_length.
  rewrite bytesEqual_refl. cbn [fst].
  rewrite (cbcDecrypt_cbcEncrypt _ _ _ _ _ Hc). reflexivity.
Qed.
End AeadFacadeProperties.

(* ------------------------------------------------------------------ *)
(** ** Round trip *)

(** Without a prepended IV, decrypt uses the fixed IV; an envelope that was
    encrypted under another IV does not come back.  This holds for every
    block cipher that meets its contract: one block of zeros encrypted under
    the all-zero IV decrypts to the fixed IV itself. *)
Lemma roundtrip_needs_fixed_iv {P : Primitives} {OK : PrimitivesOk P} (key : bytes)
      (w w2 : World) :
  length key = 16%nat ->
  let zeros := repeat 0 16 in
  exists env,
    fst (AesCbcFacade.encrypt key zeros false zeros false UnusedReservedUnauthenticated w)
    = Ok env
    /\ fst (AesCbcFacade.decrypt key env false false UnusedReservedUnauthenticated w2)
       = Ok FIXED_IV
    /\ FIXED_IV <> zeros.
Proof.
  intros Hk zeros.
  set (c := aesEncryptBlock key zeros).
  assert (Hc : length c = 16%nat) by (apply aesEncryptBlock_length; reflexivity).
  assert (Henc : cbcEncrypt key zeros zeros false = Ok c).
  { unfold cbcEncrypt. cbn [length zeros repeat Nat.eqb negb Nat.modulo Nat.divmod snd
                            Nat.sub blocksOf splitBlocks firstn skipn cbcEncryptBlocks].
    change (xorBytes zeros zeros) with zeros. fold c.
    unfold concat. cbn [List.concat]. rewrite app_nil_r. reflexivity. }
  exists c. split; [|split].
  - rewrite encrypt_unauthenticated_run by (apply bitArrayLength_16; assumption).
    cbn [fst]. rewrite Henc. reflexivity.
  - rewrite decrypt_unauthenticated_run by (apply bitArrayLength_16; assumption). cbn [fst].
    unfold cbcDecrypt. rewrite Hc.
    change (negb (length FIXED_IV =? 16)%nat) with false.
    change (negb (16 mod 16 =? 0)%nat) with false. cbv iota.
    replace (blocksOf c) with [c].
    + cbn [cbcDecryptBlocks]. unfold c.
      rewrite aesDecryptBlock_encrypt by reflexivity. reflexivity.
    + symmetry. rewrite <- (app_nil_r c) at 1.
      change (c ++ []) with (concat [c]). apply blocksOf_concat.
      constructor; [exact Hc | constructor].
  - discriminate.
Qed.

(** C1 (as amended): for every key, plaintext and IV and for each cipher
    version, decrypting the envelope that encrypt produced, with the same key
    and the same flags (and, for AEAD, the same associated data), returns
    exactly the original plaintext, provided that the IV was prepended to the
    envelope or is the fixed IV (for AEAD the IV is always in the envelope). *)
Theorem C1_roundtrip {P : Primitives} {OK : PrimitivesOk P}
        (key pt iv : bytes) (padding : bool) :
  (forall (prepend : bool) (version : SymmetricCipherVersion) (w w2 : World) (env : bytes),
     fst (AesCbcFacade.encrypt key pt prepend iv padding version w) = Ok env ->
     prepend = true \/ iv = FIXED_IV ->
     fst (AesCbcFacade.decrypt key env prepend padding version w2) = Ok pt)
  /\ (forall (ad : bytes) (w w2 : World) (env : bytes),
        fst (Java.AeadFacade.encrypt key pt iv padding ad w) = Ok env ->
        fst (Java.AeadFacade.decrypt key env padding ad w2) = Ok pt).
Proof.
  split.
  - intros prepend version w w2 env H Hiv.
    destruct (AesCbcFacade.encrypt key pt prepend iv padding version w) as [r w'] eqn:E.
    cbn [fst] in H. subst r.
    exact (aesCbcFacade_roundtrip key pt iv env prepend padding version w w' E Hiv w2).
  - intros ad w w2 env H.
    destruct (Java.AeadFacade.encrypt key pt iv padding ad w) as [r w'] eqn:E.
    cbn [fst] in H. subst r.
    exact (aeadFacade_roundtrip key pt iv ad env padding w w' E w2).
Qed.

Lemma C1_roundtrip_witness :
  let key := Toy.zeros 32 in
  let pt := [116; 101; 115; 116] in
  fst (AesCbcFacade.decrypt key
         [1; 139; 138; 137; 136; 143; 142; 141; 140; 131; 130; 129; 128; 255; 249; 236; 252;
          52; 53; 54; 55; 56; 57; 58; 59; 60; 61; 62; 63; 64; 65; 66; 67;
          68; 69; 70; 71; 72; 73; 74; 75; 76; 77; 78; 79; 80; 81; 82; 83]
         false true AesCbcThenHmac Toy.world0) = Ok pt
  /\ fst (Java.AeadFacade.decrypt key
            [2; 0; 0; 0; 0; 0; 0; 0; 0; 0; 0; 0; 0; 0; 0; 0; 0;
             24; 216; 152; 88; 24; 216; 152; 88; 24; 216; 152; 88; 96; 167; 241; 32;
             177; 146; 115; 84; 53; 22; 247; 216; 185; 154; 123; 92; 61; 30; 255; 224;
             193; 162; 131; 100; 69; 38; 7; 232; 201; 170; 139; 108; 77; 46; 15; 240]
            true [9] Toy.world0) = Ok pt.
Proof.
  intros key pt. split.
  - apply (proj1 (C1_roundtrip key pt FIXED_IV true)
                 false AesCbcThenHmac Toy.world0 Toy.world0).
    + vm_compute. reflexivity.
    + right. reflexivity.
  - apply (proj2 (C1_roundtrip key pt (Toy.zeros 16) true) [9] Toy.world0 Toy.world0).
    vm_compute. reflexivity.
Defined.

(** The claim as stated, for every IV, fails: with no IV in the envelope and
    an IV other than the fixed one, decrypt returns other bytes. *)
Lemma C1_counterexample_other_iv :
  let key := Toy.zeros 16 in
  let pt := Toy.zeros 16 in
  let iv := Toy.zeros 16 in
  fst (AesCbcFacade.encrypt key pt false iv false UnusedReservedUnauthenticated Toy.world0)
  = Ok (Toy.zeros 16)
  /\ fst (AesCbcFacade.decrypt key (Toy.zeros 16) false false UnusedReservedUnauthenticated
            Toy.world0)
     = Ok (repeat 136 16)
  /\ repeat 136 16 <> pt.
Proof. vm_compute. repeat split; discriminate. Qed.

(* ------------------------------------------------------------------ *)
(** ** Envelope layout and authentication order *)



(** Authenticate, then decrypt.  In AesCbcThenHmac decryption the
    HMAC-SHA-256 tag is recomputed over the body (what lies between the
    1-byte version prefix and the 32-byte trailing tag) and compared with the
    provided tag.  On mismatch decryption fails with an authentication error,
    and the only operation performed is that HMAC computation: no
    block-cipher decryption takes place and no plaintext is returned.
    Whenever plaintext is returned, the tags matched and the HMAC computation
    preceded the CBC decryption.  (How long the comparison takes is not
    represented: this is a statement about results and the order of
    operations only.) *)
Theorem aesCbcFacade_authenticate_then_decrypt {P : Primitives} {OK : PrimitivesOk P}
        (key ct : bytes) (randomIv padding : bool) (w : World) :
  length key = 16%nat \/ length key = 32%nat ->
  let body := subarray ct 1 (byteLength ct - 32) in
  let tag := subarray ct (byteLength ct - 32) (byteLength ct) in
  exists ek ak,
    SymmetricKeyDeriver.deriveSubKeys key AesCbcThenHmac = Ok (mkSubKeys ek (Some ak))
    /\ (hmacSha256 ak body <> tag ->
        AesCbcFacade.decrypt key ct randomIv padding AesCbcThenHmac w
        = (Throw AuthenticationFailed, addEvents w [EvHmac ak body]))
    /\ (forall p w',
          AesCbcFacade.decrypt key ct randomIv padding AesCbcThenHmac w = (Ok p, w') ->
          hmacSha256 ak body = tag
          /\ exists iv c, w' = addEvents w [EvHmac ak body; EvCbcDecrypt ek iv c padding])
    /\ (forall v b t, length t = 32%nat -> ct = [v] ++ b ++ t -> body = b /\ tag = t).
Proof.
  intros Hk body tag.
  destruct (deriveSubKeys_hmac_valid key Hk) as (ek & ak & Hd).
  exists ek, ak. split; [exact Hd|].
  pose proof (decrypt_hmac_run key ct ek ak randomIv padding w Hd) as Hrun.
  cbv zeta in Hrun. fold body tag in Hrun.
  split; [|split].
  - intros Hne. rewrite Hrun, bytesEqual_neq by assumption. reflexivity.
  - intros p w' H. rewrite Hrun in H. unfold bytesEqual in H.
    destruct (list_eq_dec Z.eq_dec (hmacSha256 ak body) tag) as [Heq|]; [|discriminate].
    split; [exact Heq|].
    injection H as _ <-. eauto.
  - intros v b t Ht ->. split; [apply envelope_body | apply envelope_tag]; assumption.
Qed.

Lemma aesCbcFacade_authenticate_then_decrypt_witness :
  let key := Toy.zeros 32 in
  let tampered :=
    [1; 139; 138; 137; 136; 143; 142; 141; 140; 131; 130; 129; 128; 255; 249; 236; 252;
     53; 53; 54; 55; 56; 57; 58; 59; 60; 61; 62; 63; 64; 65; 66; 67;
     68; 69; 70; 71; 72; 73; 74; 75; 76; 77; 78; 79; 80; 81; 82; 83] in
  fst (AesCbcFacade.decrypt key tampered false true AesCbcThenHmac Toy.world0)
  = Throw AuthenticationFailed
  /\ existsb cbcDecryptEvent
       (trace (snd (AesCbcFacade.decrypt key tampered false true AesCbcThenHmac Toy.world0)))
     = false.
Proof.
  intros key tampered.
  destruct (aesCbcFacade_authenticate_then_decrypt key tampered false true Toy.world0
              (or_intror eq_refl)) as (ek & ak & Hd & Hmismatch & _).
  vm_compute in Hd. injection Hd as <- <-.
  rewrite Hmismatch.
  - split; reflexivity.
  - vm_compute. discriminate.
Defined.

(** C9 (as amended): in AEAD decryption the tag over the authenticated
    region and the associated data is verified first; on mismatch decryption
    fails after that HMAC computation alone.  After the tag is verified the
    region is split by position into a 1-byte prefix, a 16-byte IV and the
    remaining ciphertext, which is CBC-decrypted under that IV.  The leading
    byte [v] is covered by the tag but is not compared with the Aead version
    tag: the statement holds for every [v]. *)
Theorem C9_aead_decrypt_splits_by_position {P : Primitives} {OK : PrimitivesOk P}
        (key iv c tag ad : bytes) (v : Z) (padding : bool) (w : World) :
  length key = 16%nat \/ length key = 32%nat ->
  length iv = 16%nat -> length tag = 32%nat ->
  let region := [v] ++ iv ++ c in
  exists ek ak,
    Java.SymmetricKeyDeriver.deriveSubKeys key Aead = Ok (mkSubKeys ek (Some ak))
    /\ (hmacSha256 ak (region ++ ad) <> tag ->
        Java.AeadFacade.decrypt key (region ++ tag) padding ad w
        = (Throw AuthenticationFailed, addEvents w [EvHmac ak (region ++ ad)]))
    /\ (hmacSha256 ak (region ++ ad) = tag ->
        Java.AeadFacade.decrypt key (region ++ tag) padding ad w
        = (match cbcDecrypt ek c iv padding with
           | Ok p => Ok p
           | Throw e => Throw (Java.wrapError e)
           end,
           addEvents w [EvHmac ak (region ++ ad); EvCbcDecrypt ek iv c padding])).
Proof.
  intros Hk Hiv Htag region.
  destruct (java_deriveSubKeys_aead_valid key Hk) as (ek & ak & Hd).
  exists ek, ak. split; [exact Hd|].
  pose proof (aeadFacade_decrypt_run key iv c tag ad ek ak v padding w Hd Hiv Htag) as Hrun.
  cbv zeta in Hrun. fold region in Hrun. split; intros H; rewrite Hrun.
  - rewrite bytesEqual_neq by assumption. reflexivity.
  - rewrite H, bytesEqual_refl. reflexivity.
Qed.

Lemma C9_aead_decrypt_splits_by_position_witness :
  let key := Toy.zeros 32 in
  let iv := Toy.zeros 16 in
  let c := [24; 216; 152; 88; 24; 216; 152; 88; 24; 216; 152; 88; 96; 167; 241; 32] in
  let tag := [177; 146; 115; 84; 53; 22; 247; 216; 185; 154; 123; 92; 61; 30; 255; 224;
              193; 162; 131; 100; 69; 38; 7; 232; 201; 170; 139; 108; 77; 46; 15; 240] in
  fst (Java.AeadFacade.decrypt key (([2] ++ iv ++ c) ++ tag) true [9] Toy.world0)
  = Ok [116; 101; 115; 116].
Proof.
  intros key iv c tag.
  destruct (C9_aead_decrypt_splits_by_position key iv c tag [9] 2 true Toy.world0
              (or_intror eq_refl) eq_refl eq_refl) as (ek & ak & Hd & _ & Hmatch).
  vm_compute in Hd. injection Hd as <- <-.
  rewrite Hmatch; vm_compute; reflexivity.
Defined.

(** The claim as stated fails: an envelope whose leading byte is 7, with a
    tag that matches it, is decrypted; the byte is never compared with the
    Aead version tag 2. *)
Lemma C9_counterexample_version_byte_unchecked :
  let key := Toy.zeros 32 in
  let iv := Toy.zeros 16 in
  let c := [24; 216; 152; 88; 24; 216; 152; 88; 24; 216; 152; 88; 96; 167; 241; 32] in
  let tag := [76; 45; 14; 239; 208; 177; 146; 115; 84; 53; 22; 247; 216; 185; 154; 123;
              92; 61; 30; 255; 224; 193; 162; 131; 100; 69; 38; 7; 232; 201; 170; 139] in
  7 <> versionValue Aead
  /\ fst (Java.AeadFacade.decrypt key (([7] ++ iv ++ c) ++ tag) true [9] Toy.world0)
     = Ok [116; 101; 115; 116].
Proof. vm_compute. split; [discriminate | reflexivity]. Qed.

(* ------------------------------------------------------------------ *)
(** ** Aes.ts: no unauthenticated encryption under a 256-bit key *)

Lemma aes256EncryptSearchIndexEntry_run {P : Primitives}
      (key bytes_ iv : bytes) (usePadding : bool) (w : World) :
  bitArrayLength key = 8 ->
  length iv = 16%nat ->
  let cKey256 := cKey (getAesSubKeys key false) in
  Aes.aes256EncryptSearchIndexEntry key bytes_ iv usePadding w
  = (match cbcEncrypt cKey256 bytes_ iv usePadding with
     | Ok c => Ok (iv ++ c)
     | Throw e => Throw e
     end,
     addEvents w [EvCbcEncrypt cKey256 iv bytes_ usePadding]).
Proof.
  intros Hk Hiv cKey256. unfold Aes.aes256EncryptSearchIndexEntry.
  assert (Hv : getAndVerifyAesKeyLength key [Aes256] = Ok Aes256)
    by (unfold getAndVerifyAesKeyLength; rewrite Hk; reflexivity).
  rewrite Hv. run_monad. change IV_BYTE_LENGTH with 16.
  unfold byteLength. rewrite Hiv. change (Z.of_nat 16 =? 16) with true. cbn [negb].
  fold cKey256.
  destruct (cbcEncrypt cKey256 bytes_ iv usePadding) as [c|e]; [|reflexivity].
  unfold concat, keyToUint8Array. cbn [List.concat]. rewrite app_nil_r. reflexivity.
Qed.

(** C10, as amended: aesEncrypt fails with a CryptoError whenever it is
    called with useMac false and a 256-bit key; nothing has been computed by
    then (the world is unchanged: no CBC encryption, no HMAC), so aesEncrypt
    produces no unauthenticated envelope under a 256-bit key.
    aes256EncryptSearchIndexEntry does: under a 256-bit key and with a
    16-byte IV it runs the CBC encryption and returns the IV followed by the
    ciphertext, with no version byte and no tag, and computes no HMAC. *)
Theorem C10_aesEncrypt_requires_mac_for_256 {P : Primitives}
        (key bytes_ iv : bytes) (usePadding : bool) (w : World) :
  length key = 32%nat ->
  (exists msg,
     Aes.aesEncrypt key bytes_ iv usePadding false w = (Throw (CryptoError msg), w))
  /\ (length iv = 16%nat ->
      let cKey256 := cKey (getAesSubKeys key false) in
      Aes.aes256EncryptSearchIndexEntry key bytes_ iv usePadding w
      = (match cbcEncrypt cKey256 bytes_ iv usePadding with
         | Ok c => Ok (iv ++ c)
         | Throw e => Throw e
         end,
         addEvents w [EvCbcEncrypt cKey256 iv bytes_ usePadding])).
Proof.
  intros Hk. split.
  - unfold Aes.aesEncrypt.
    rewrite getAndVerifyAesKeyLength_32 by assumption.
    run_monad.
    destruct (negb (byteLength iv =? IV_BYTE_LENGTH));
      cbn [negb andb AesKeyLength.eqb]; eauto.
  - intros Hiv. apply aes256EncryptSearchIndexEntry_run; [|assumption].
    apply bitArrayLength_32. assumption.
Qed.

Lemma C10_aesEncrypt_requires_mac_for_256_witness :
  let key := Toy.zeros 32 in
  let iv := Toy.zeros 16 in
  let pt := [116; 101; 115; 116] in
  (exists msg,
     Aes.aesEncrypt key pt iv true false Toy.world0 = (Throw (CryptoError msg), Toy.world0))
  /\ fst (Aes.aes256EncryptSearchIndexEntry key pt iv true Toy.world0)
     = match cbcEncrypt (cKey (getAesSubKeys key false)) pt iv true with
       | Ok c => Ok (iv ++ c)
       | Throw e => Throw e
       end.
Proof.
  intros key iv pt.
  destruct (C10_aesEncrypt_requires_mac_for_256 key pt iv true Toy.world0 eq_refl)
    as [Henc Hidx].
  split; [exact Henc|].
  rewrite (Hidx eq_refl). reflexivity.
Defined.

(** The claim as stated fails: under a 256-bit key
    aes256EncryptSearchIndexEntry returns an envelope that is the IV followed
    by the CBC ciphertext, computed without any HMAC, and that
    authenticatedAesDecrypt does not accept. *)
Lemma C10_counterexample_search_index_entry :
  let key := Toy.zeros 32 in
  let iv := Toy.zeros 16 in
  let pt := [116; 101; 115; 116] in
  let c := [12; 12; 12; 12; 12; 12; 12; 12; 12; 12; 12; 12; 116; 115; 101; 116] in
  byteLength key * 8 = 256
  /\ fst (Aes.aes256EncryptSearchIndexEntry key pt iv true Toy.world0) = Ok (iv ++ c)
  /\ trace (snd (Aes.aes256EncryptSearchIndexEntry key pt iv true Toy.world0))
     = [EvCbcEncrypt (cKey (getAesSubKeys key false)) iv pt true]
  /\ fst (Aes.authenticatedAesDecrypt key (iv ++ c) true Toy.world0)
     = Throw (CryptoError "mac expected but not present").
Proof. vm_compute. repeat split; reflexivity. Qed.

(* ------------------------------------------------------------------ *)
(** ** SymmetricCipherFacade (Java) *)

Section SymmetricCipherFacadeProperties.
Context {P : Primitives} {OK : PrimitivesOk P}.

Lemma AesKeyLength_get_16 (key : bytes) :
  length key = 16%nat -> Java.AesKeyLength_get key = Ok Aes128.
Proof. intros H. unfold Java.AesKeyLength_get, byteLength. rewrite H. reflexivity. Qed.

Lemma AesKeyLength_get_32 (key : bytes) :
  length key = 32%nat -> Java.AesKeyLength_get key = Ok Aes256.
Proof. intros H. unfold Java.AesKeyLength_get, byteLength. rewrite H. reflexivity. Qed.


Lemma java_deriveSubKeys_unauthenticated_128 (key : bytes) :
  length key = 16%nat ->
  Java.SymmetricKeyDeriver.deriveSubKeys key UnusedReservedUnauthenticated
  = Ok (mkSubKeys key None).
Proof.
  intros H.
  unfold Java.SymmetricKeyDeriver.deriveSubKeys.
  rewrite AesKeyLength_get_16 by assumption.
  reflexivity.
Qed.

Lemma java_deriveSubKeys_hmac_256 (key : bytes) :
  length key = 32%nat ->
  Java.SymmetricKeyDeriver.deriveSubKeys key AesCbcThenHmac
  = Ok (mkSubKeys (firstn 32 (sha512Hash key)) (Some (skipn 32 (sha512Hash key)))).
Proof.
  intros H.
  unfold Java.SymmetricKeyDeriver.deriveSubKeys.
  rewrite AesKeyLength_get_32 by assumption.
  cbn [bindR]. unfold Java.keyToBytes.
  pose proof (sha512Hash_length key) as Hh.
  destruct (halves 32 (sha512Hash key) Hh) as (_ & H1 & H2 & H3).
  change (Java.getKeyLengthBytes Aes256) with 32. change (2 * 32) with 64.
  rewrite !copyOfRange_in_range by (unfold byteLength; lia).
  change (Z.to_nat (32 - 0)) with 32%nat. change (Z.to_nat 0) with 0%nat.
  change (Z.to_nat (64 - 32)) with 32%nat. change (Z.to_nat 32) with 32%nat.
  rewrite skipn_O. cbn [bindR]. rewrite H3. reflexivity.
Qed.

(** encryptKey under a 128-bit wrapping key: the bare CBC ciphertext under
    the wrapping key itself, the fixed IV and no padding; nothing is drawn
    from the random source and no tag is computed. *)
Lemma encryptKey_128_run (key keyToEncrypt : bytes) (w : World) :
  length key = 16%nat ->
  Java.SymmetricCipherFacade.encryptKey key keyToEncrypt w
  = (match cbcEncrypt key keyToEncrypt FIXED_IV false with
     | Ok c => Ok c
     | Throw e => Throw (Java.wrapError e)
     end,
     addEvents w [EvCbcEncrypt key FIXED_IV keyToEncrypt false]).
Proof.
  intros Hk.
  unfold Java.SymmetricCipherFacade.encryptKey.
  rewrite AesKeyLength_get_16 by assumption.
  unfold Java.SymmetricCipherFacade.encrypt5, Java.AesCbcFacade.encrypt, Java.keyToBytes.
  rewrite java_deriveSubKeys_unauthenticated_128 by assumption.
  run_monad.
  destruct (cbcEncrypt key keyToEncrypt FIXED_IV false); reflexivity.
Qed.

(** encryptKey under a 256-bit wrapping key: sixteen bytes are drawn from
    the random source, used as the IV and prepended; the envelope carries the
    version byte and the tag. *)
Lemma encryptKey_256_run (key keyToEncrypt : bytes) (w : World) :
  length key = 32%nat ->
  let ek := firstn 32 (sha512Hash key) in
  let ak := skipn 32 (sha512Hash key) in
  let iv := map (randomness w) (seq 0 16) in
  let w1 := mkWorld (fun i => randomness w (i + 16)%nat) (trace w ++ [EvRandom 16 iv]) in
  Java.SymmetricCipherFacade.encryptKey key keyToEncrypt w
  = match cbcEncrypt ek keyToEncrypt iv false with
    | Ok c =>
        (Ok ([versionValue AesCbcThenHmac] ++ (iv ++ c) ++ hmacSha256 ak (iv ++ c)),
         addEvents w1 [EvCbcEncrypt ek iv keyToEncrypt false; EvHmac ak (iv ++ c)])
    | Throw e =>
        (Throw (Java.wrapError e), addEvents w1 [EvCbcEncrypt ek iv keyToEncrypt false])
    end.
Proof.
  intros Hk ek ak iv w1.
  unfold Java.SymmetricCipherFacade.encryptKey.
  rewrite AesKeyLength_get_32 by assumption.
  unfold Java.SymmetricCipherFacade.encrypt4,
         Java.SymmetricCipherFacade.encrypt5,
         Java.AesCbcFacade.encrypt,
         Java.keyToBytes.
  rewrite java_deriveSubKeys_hmac_256 by assumption.
  run_monad. unfold nextBytes.
  change (Z.to_nat IV_BYTE_LENGTH) with 16%nat. fold ek ak iv w1.
  cbn [negb]. rewrite andb_false_r.
  destruct (cbcEncrypt ek keyToEncrypt iv false) as [c|e]; [|reflexivity].
  rewrite addEvents_addEvents.
  unfold Java.merge, concat, symmetricCipherVersionToUint8Array.
  cbn [List.concat app]. rewrite !app_nil_r. reflexivity.
Qed.

Lemma decryptKey_128_run (key ct : bytes) (v : SymmetricCipherVersion) (w : World) :
  length key = 16%nat -> getFromCiphertext ct = Ok v -> v <> Aead ->
  Java.SymmetricCipherFacade.decryptKey key ct w
  = (plain <- Java.AesCbcFacade.decrypt key ct false false v ;;
     Java.SymmetricCipherFacade.newSecretKeySpec plain) w.
Proof.
  intros Hk Hv Hne.
  unfold Java.SymmetricCipherFacade.decryptKey.
  rewrite AesKeyLength_get_16 by assumption.
  unfold Java.SymmetricCipherFacade.decrypt4, Java.SymmetricCipherFacade.getCipherVersion.
  rewrite Hv.
  destruct v; [| |congruence].
  - rewrite AesKeyLength_get_16 by assumption. reflexivity.
  - reflexivity.
Qed.

Lemma decryptKey_256_run (key ct : bytes) (w : World) :
  length key = 32%nat -> getFromCiphertext ct = Ok AesCbcThenHmac ->
  Java.SymmetricCipherFacade.decryptKey key ct w
  = (plain <- Java.AesCbcFacade.decrypt key ct true false AesCbcThenHmac ;;
     Java.SymmetricCipherFacade.newSecretKeySpec plain) w.
Proof.
  intros Hk Hv.
  unfold Java.SymmetricCipherFacade.decryptKey.
  rewrite AesKeyLength_get_32 by assumption.
  unfold Java.SymmetricCipherFacade.decrypt3,
         Java.SymmetricCipherFacade.decrypt4,
         Java.SymmetricCipherFacade.getCipherVersion.
  rewrite Hv.
  reflexivity.
Qed.

End SymmetricCipherFacadeProperties.

(** C6 (as amended): encryptKey and decryptKey never use padding.  Under a
    128-bit wrapping key encryptKey uses the fixed IV, prepends nothing and
    uses version UnusedReservedUnauthenticated (the envelope is the bare CBC
    ciphertext), and decryptKey uses the fixed IV.  Under a 256-bit wrapping
    key encryptKey draws a random IV, prepends it and uses version
    AesCbcThenHmac, and decryptKey takes the IV from the envelope.
    decryptKey takes the cipher version from the ciphertext. *)
Theorem C6_key_wrapping_parameters {P : Primitives} {OK : PrimitivesOk P}
        (key keyToEncrypt ct : bytes) (w : World) :
  (length key = 16%nat ->
   Java.SymmetricCipherFacade.encryptKey key keyToEncrypt w
   = (match cbcEncrypt key keyToEncrypt FIXED_IV false with
      | Ok c => Ok c
      | Throw e => Throw (Java.wrapError e)
      end,
      addEvents w [EvCbcEncrypt key FIXED_IV keyToEncrypt false])
   /\ (forall v, getFromCiphertext ct = Ok v -> v <> Aead ->
                 Java.SymmetricCipherFacade.decryptKey key ct w
                 = (plain <- Java.AesCbcFacade.decrypt key ct false false v ;;
                    Java.SymmetricCipherFacade.newSecretKeySpec plain) w))
  /\ (length key = 32%nat ->
      let ek := firstn 32 (sha512Hash key) in
      let ak := skipn 32 (sha512Hash key) in
      let iv := map (randomness w) (seq 0 16) in
      let w1 := mkWorld (fun i => randomness w (i + 16)%nat)
                        (trace w ++ [EvRandom 16 iv]) in
      Java.SymmetricCipherFacade.encryptKey key keyToEncrypt w
      = match cbcEncrypt ek keyToEncrypt iv false with
        | Ok c =>
            (Ok ([versionValue AesCbcThenHmac] ++ (iv ++ c) ++ hmacSha256 ak (iv ++ c)),
             addEvents w1 [EvCbcEncrypt ek iv keyToEncrypt false; EvHmac ak (iv ++ c)])
        | Throw e =>
            (Throw (Java.wrapError e),
             addEvents w1 [EvCbcEncrypt ek iv keyToEncrypt false])
        end
      /\ (getFromCiphertext ct = Ok AesCbcThenHmac ->
          Java.SymmetricCipherFacade.decryptKey key ct w
          = (plain <- Java.AesCbcFacade.decrypt key ct true false AesCbcThenHmac ;;
             Java.SymmetricCipherFacade.newSecretKeySpec plain) w)).
Proof.
  split; intros Hk.
  - split.
    + apply encryptKey_128_run. assumption.
    + intros v Hv Hne. apply decryptKey_128_run; assumption.
  - cbv zeta. split.
    + apply (encryptKey_256_run key keyToEncrypt w Hk).
    + intros Hv. apply decryptKey_256_run; assumption.
Qed.

Lemma C6_key_wrapping_parameters_witness :
  Java.SymmetricCipherFacade.encryptKey (Toy.zeros 16) (Toy.zeros 32) Toy.world0
  = (Ok (repeat 136 32),
     addEvents Toy.world0 [EvCbcEncrypt (Toy.zeros 16) FIXED_IV (Toy.zeros 32) false]).
Proof.
  rewrite (proj1 (proj1 (C6_key_wrapping_parameters
                           (Toy.zeros 16) (Toy.zeros 32) [] Toy.world0) eq_refl)).
  f_equal.
Defined.

(** The claim as stated fails for a 256-bit wrapping key: encryptKey draws
    sixteen random bytes, encrypts under them and prepends them; the IV in
    use is not the fixed IV. *)
Lemma C6_counterexample_random_iv_for_256 :
  let r := Java.SymmetricCipherFacade.encryptKey (Toy.zeros 32) (Toy.zeros 16) Toy.world0 in
  let iv := map Z.of_nat (seq 0 16) in
  fst r = Ok ([1] ++ iv ++ Toy.zeros 16 ++ map Z.of_nat (seq 24 32))
  /\ trace (snd r)
     = [EvRandom 16 iv;
        EvCbcEncrypt (map Z.of_nat (seq 0 32)) iv (Toy.zeros 16) false;
        EvHmac (map Z.of_nat (seq 32 32)) (iv ++ Toy.zeros 16)]
  /\ iv <> FIXED_IV.
Proof. vm_compute. repeat split; discriminate. Qed.

(** decryptKey under a 128-bit key does not fix the version either: a
    ciphertext detected as AesCbcThenHmac is verified and decrypted as such. *)
Example decryptKey_128_takes_version_from_ciphertext :
  let ct := [1] ++ Toy.zeros 16 ++ map Z.of_nat (seq 0 32) in
  exists w',
    Java.SymmetricCipherFacade.decryptKey (Toy.zeros 16) ct Toy.world0
    = (Throw AuthenticationFailed, w')
    /\ trace w' = [EvHmac (map Z.of_nat (seq 16 16)) (Toy.zeros 16)].
Proof. eexists. vm_compute. split; reflexivity. Qed.



(* ------------------------------------------------------------------ *)
(** ** Encryption succeeds on well-formed input *)

(** The round trip is not vacuous: with a valid key that the version admits,
    a 16-byte IV and either padding or a plaintext of whole blocks, encrypt
    returns an envelope. *)
Lemma aesCbcFacade_encrypt_succeeds {P : Primitives} {OK : PrimitivesOk P}
      (key pt iv : bytes) (prepend padding : bool) (version : SymmetricCipherVersion)
      (w : World) :
  length key = 16%nat \/ (length key = 32%nat /\ version = AesCbcThenHmac) ->
  version <> Aead ->
  length iv = 16%nat ->
  padding = true \/ Nat.modulo (length pt) 16 = 0%nat ->
  exists env, fst (AesCbcFacade.encrypt key pt prepend iv padding version w) = Ok env.
Proof.
  intros Hk Hv Hiv Hp. destruct version; [| |congruence].
  - destruct Hk as [Hk|[_ Hk]]; [|discriminate].
    rewrite encrypt_unauthenticated_run by (apply bitArrayLength_16; assumption). cbn [fst].
    destruct (cbcEncrypt_succeeds key pt iv padding Hiv Hp) as [c ->]. eauto.
  - assert (Hvalid : length key = 16%nat \/ length key = 32%nat) by tauto.
    destruct (deriveSubKeys_hmac_valid key Hvalid) as (ek & ak & Hd).
    rewrite (encrypt_hmac_run key pt iv ek ak prepend padding w Hd).
    destruct (cbcEncrypt_succeeds ek pt iv padding Hiv Hp) as [c ->].
    cbn [fst]. eauto.
Qed.

Lemma aeadFacade_encrypt_succeeds {P : Primitives} {OK : PrimitivesOk P}
      (key pt iv ad : bytes) (padding : bool) (w : World) :
  length key = 16%nat \/ length key = 32%nat ->
  length iv = 16%nat ->
  padding = true \/ Nat.modulo (length pt) 16 = 0%nat ->
  exists env, fst (Java.AeadFacade.encrypt key pt iv padding ad w) = Ok env.
Proof.
  intros Hk Hiv Hp.
  destruct (java_deriveSubKeys_aead_valid key Hk) as (ek & ak & Hd).
  rewrite (aeadFacade_encrypt_run key pt iv ad ek ak padding w Hd).
  destruct (cbcEncrypt_succeeds ek pt iv padding Hiv Hp) as [c ->].
  cbn [fst]. eauto.
Qed.

(* ================================================================== *)
(** * Further properties of the code *)

(* ------------------------------------------------------------------ *)
(** ** Lengths *)

Lemma subarray_length_le (a : bytes) (b e : Z) : (length (subarray a b e) <= length a)%nat.
Proof.
  unfold subarray. rewrite length_firstn, length_skipn. lia.
Qed.

Lemma cbcEncryptBlocks_length {P : Primitives} (key : bytes) (blocks : list bytes) :
  forall prev, length (cbcEncryptBlocks key prev blocks) = length blocks.
Proof.
  induction blocks as [|b blocks IH]; intros prev; simpl; [reflexivity|].
  rewrite IH. reflexivity.
Qed.

Lemma cbcEncryptBlocks_concat_length {P : Primitives} {OK : PrimitivesOk P}
      (key iv data : bytes) :
  length iv = 16%nat -> Nat.modulo (length data) 16 = 0%nat ->
  length (concat (cbcEncryptBlocks key iv (blocksOf data))) = length data.
Proof.
  intros Hiv Hmod.
  assert (Hb : Forall isBlock (blocksOf data))
    by (apply splitBlocks_isBlock; [lia | assumption]).
  rewrite concat_blocks_length by (apply cbcEncryptBlocks_isBlock; assumption).
  rewrite cbcEncryptBlocks_length.
  rewrite <- (concat_blocks_length _ Hb).
  unfold blocksOf. rewrite splitBlocks_concat by lia. reflexivity.
Qed.

Lemma pkcs7Pad_exact_length (data : bytes) :
  length (pkcs7Pad data) = (16 * (length data / 16 + 1))%nat.
Proof.
  unfold pkcs7Pad. rewrite length_app, repeat_length.
  pose proof (Nat.mod_upper_bound (length data) 16 ltac:(lia)) as Hlt.
  pose proof (Nat.div_mod_eq (length data) 16) as Hdm. lia.
Qed.

(** The length of a CBC ciphertext: the plaintext length rounded up to the
    next multiple of 16 beyond it when padding is on, the plaintext length
    itself otherwise. *)
Lemma cbcEncrypt_length {P : Primitives} {OK : PrimitivesOk P}
      (key pt iv c : bytes) (padding : bool) :
  cbcEncrypt key pt iv padding = Ok c ->
  length c = (if padding then 16 * (length pt / 16 + 1) else length pt)%nat
  /\ Nat.modulo (length c) 16 = 0%nat.
Proof.
  unfold cbcEncrypt.
  destruct (Nat.eqb_spec (length iv) 16) as [Hiv|]; cbn [negb]; [|discriminate].
  destruct padding.
  - intros [= <-].
    rewrite cbcEncryptBlocks_concat_length by (auto using pkcs7Pad_length).
    split; [apply pkcs7Pad_exact_length | apply pkcs7Pad_length].
  - destruct (Nat.eqb_spec (length pt mod 16) 0) as [Hmod|]; cbn [negb]; [|discriminate].
    intros [= <-].
    rewrite cbcEncryptBlocks_concat_length by assumption. auto.
Qed.

Lemma odd_length (n : nat) : Nat.modulo n 16 = 0%nat -> (Z.of_nat n + 1) mod 2 = 1.
Proof.
  intros H. pose proof (Nat.div_mod_eq n 16) as Hdm. rewrite H in Hdm.
  replace (Z.of_nat n + 1) with (1 + (8 * Z.of_nat (n / 16)) * 2) by lia.
  rewrite Z.mod_add by lia. reflexivity.
Qed.

Lemma even_length (n : nat) : Nat.modulo n 16 = 0%nat -> Z.of_nat n mod 2 = 0.
Proof.
  intros H. pose proof (Nat.div_mod_eq n 16) as Hdm. rewrite H in Hdm.
  replace (Z.of_nat n) with (0 + (8 * Z.of_nat (n / 16)) * 2) by lia.
  rewrite Z.mod_add by lia. reflexivity.
Qed.

Lemma mod2_shift (n : nat) (k : Z) :
  Nat.modulo n 16 = 0%nat -> (k + Z.of_nat n) mod 2 = k mod 2.
Proof.
  intros H. pose proof (Nat.div_mod_eq n 16) as Hdm. rewrite H in Hdm.
  replace (k + Z.of_nat n) with (k + (8 * Z.of_nat (n / 16)) * 2) by lia.
  apply Z.mod_add. lia.
Qed.

(* ------------------------------------------------------------------ *)
(** ** AesCbcFacade.ts: size of the envelope, rejected inputs *)

(** The envelope of AesCbcFacade.encrypt has a fixed overhead: 33 bytes
    (version byte and tag) for AesCbcThenHmac and none for
    UnusedReservedUnauthenticated, 16 more when the IV is prepended, and the
    CBC ciphertext.  An authenticated envelope therefore has odd length and an
    unauthenticated one even length. *)
Theorem aesCbcFacade_envelope_length {P : Primitives} {OK : PrimitivesOk P}
        (key pt iv env : bytes) (prepend padding : bool)
        (version : SymmetricCipherVersion) (w w' : World) :
  AesCbcFacade.encrypt key pt prepend iv padding version w = (Ok env, w') ->
  let cipherLength := (if padding then 16 * (length pt / 16 + 1) else length pt)%nat in
  let ivLength := (if prepend then 16 else 0)%nat in
  let overhead := match version with AesCbcThenHmac => 33%nat | _ => 0%nat end in
  length env = (overhead + ivLength + cipherLength)%nat
  /\ byteLength env mod 2 = match version with AesCbcThenHmac => 1 | _ => 0 end.
Proof.
  intros H cipherLength ivLength overhead. destruct version.
  - destruct (encrypt_unauthenticated_inv _ _ _ _ _ _ _ _ H) as (c & Hk & Hc & ->).
    pose proof (cbcEncrypt_iv_length _ _ _ _ _ Hc) as Hl.
    destruct (cbcEncrypt_length _ _ _ _ _ Hc) as [Hlen Hmod].
    unfold byteLength, overhead, ivLength, cipherLength.
    destruct prepend; rewrite ?length_app, ?Hl, <- Hlen.
    + split; [lia|].
      replace (Z.of_nat (16 + length c)) with (16 + Z.of_nat (length c)) by lia.
      rewrite mod2_shift by assumption. reflexivity.
    + split; [lia|].
      replace (Z.of_nat (length c)) with (0 + Z.of_nat (length c)) by lia.
      rewrite mod2_shift by assumption. reflexivity.
  - destruct (encrypt_hmac_inv _ _ _ _ _ _ _ _ H) as (ek & ak & c & Hd & Hc & -> & _).
    pose proof (cbcEncrypt_iv_length _ _ _ _ _ Hc) as Hl.
    destruct (cbcEncrypt_length _ _ _ _ _ Hc) as [Hlen Hmod].
    unfold byteLength, overhead, ivLength, cipherLength.
    destruct prepend; rewrite ?length_app, ?hmacSha256_length, ?Hl, <- Hlen; cbn [length].
    + split; [lia|].
      replace (Z.of_nat (1 + (16 + length c + 32))) with (49 + Z.of_nat (length c)) by lia.
      rewrite mod2_shift by assumption. reflexivity.
    + split; [lia|].
      replace (Z.of_nat (1 + (length c + 32))) with (33 + Z.of_nat (length c)) by lia.
      rewrite mod2_shift by assumption. reflexivity.
  - unfold AesCbcFacade.encrypt in H. run_monad_in H.
    destruct (SymmetricKeyDeriver.deriveSubKeys key Aead) as [sk|e]; [|discriminate].
    destruct (cbcEncrypt _ pt iv padding); discriminate.
Qed.

Lemma aesCbcFacade_envelope_length_witness :
  length [1; 139; 138; 137; 136; 143; 142; 141; 140; 131; 130; 129; 128; 255; 249; 236; 252;
          52; 53; 54; 55; 56; 57; 58; 59; 60; 61; 62; 63; 64; 65; 66; 67;
          68; 69; 70; 71; 72; 73; 74; 75; 76; 77; 78; 79; 80; 81; 82; 83] = 49%nat.
Proof.
  refine (proj1 (aesCbcFacade_envelope_length (P := Toy.primitives)
                   (Toy.zeros 32) [116; 101; 115; 116] FIXED_IV _ false true AesCbcThenHmac
                   Toy.world0 _ _)).
  apply injective_projections; [vm_compute; reflexivity | reflexivity].
Defined.

(** A ciphertext of fewer than 32 bytes cannot carry a tag: under
    AesCbcThenHmac, decrypt rejects it with an authentication failure after
    one HMAC computation and without any CBC decryption, for every valid
    key. *)
Theorem aesCbcFacade_decrypt_short_ciphertext {P : Primitives} {OK : PrimitivesOk P}
        (key ct : bytes) (randomIv padding : bool) (w : World) :
  length key = 16%nat \/ length key = 32%nat ->
  (length ct < 32)%nat ->
  exists ak data,
    AesCbcFacade.decrypt key ct randomIv padding AesCbcThenHmac w
    = (Throw AuthenticationFailed, addEvents w [EvHmac ak data]).
Proof.
  intros Hk Hlen.
  destruct (deriveSubKeys_hmac_valid key Hk) as (ek & ak & Hd).
  exists ak, (subarray ct 1 (byteLength ct - 32)).
  rewrite (decrypt_hmac_run key ct ek ak randomIv padding w Hd).
  rewrite bytesEqual_neq; [reflexivity|].
  intros Heq. apply (f_equal (@length Z)) in Heq.
  rewrite hmacSha256_length in Heq.
  pose proof (subarray_length_le ct (byteLength ct - 32) (byteLength ct)). lia.
Qed.

Lemma aesCbcFacade_decrypt_short_ciphertext_witness :
  exists ak data,
    AesCbcFacade.decrypt (Toy.zeros 32) [1; 2; 3] true true AesCbcThenHmac Toy.world0
    = (Throw AuthenticationFailed, addEvents Toy.world0 [EvHmac ak data]).
Proof.
  apply (aesCbcFacade_decrypt_short_ciphertext (P := Toy.primitives)).
  - right. reflexivity.
  - cbn. lia.
Defined.

(** The key length is measured in 32-bit words.  A key that occupies
    neither four nor eight words, that is a key of fewer than 13, of 17 to
    28, or of more than 32 bytes, is rejected by encrypt and by decrypt, for
    every cipher version, before anything is computed. *)
Theorem aesCbcFacade_rejects_invalid_key {P : Primitives}
        (key data iv : bytes) (flag padding : bool) (version : SymmetricCipherVersion)
        (w : World) :
  byteLength key < 13 \/ 16 < byteLength key < 29 \/ 32 < byteLength key ->
  AesCbcFacade.encrypt key data flag iv padding version w
  = (Throw (CryptoError "Illegal key length"), w)
  /\ AesCbcFacade.decrypt key data flag padding version w
     = (Throw (CryptoError "Illegal key length"), w).
Proof.
  intros Hk.
  assert (H4 : bitArrayLength key <> 4) by (rewrite bitArrayLength_words; lia).
  assert (H8 : bitArrayLength key <> 8) by (rewrite bitArrayLength_words; lia).
  assert (Hd : SymmetricKeyDeriver.deriveSubKeys key version
               = Throw (CryptoError "Illegal key length")).
  { unfold SymmetricKeyDeriver.deriveSubKeys.
    rewrite getAndVerifyAesKeyLength_other by assumption. reflexivity. }
  unfold AesCbcFacade.encrypt, AesCbcFacade.decrypt. rewrite Hd. split; reflexivity.
Qed.

Lemma aesCbcFacade_rejects_invalid_key_witness :
  AesCbcFacade.encrypt (Toy.zeros 24) [1] true FIXED_IV true AesCbcThenHmac Toy.world0
  = (Throw (CryptoError "Illegal key length"), Toy.world0)
  /\ AesCbcFacade.decrypt (Toy.zeros 24) [1] true true AesCbcThenHmac Toy.world0
     = (Throw (CryptoError "Illegal key length"), Toy.world0).
Proof.
  apply (aesCbcFacade_rejects_invalid_key (P := Toy.primitives)).
  right. left. vm_compute. split; reflexivity.
Defined.



(* ------------------------------------------------------------------ *)
(** ** AesKeyLength.ts and the Aead sub-keys *)

Lemma bits_injective (a b : AesKeyLength.t) : bits a = bits b -> a = b.
Proof. destruct a, b; cbn; intros H; try reflexivity; discriminate. Qed.

Lemma getAndVerifyAesKeyLength_iff (key : bytes) (accepted : list AesKeyLength.t)
      (l : AesKeyLength.t) :
  getAndVerifyAesKeyLength key accepted = Ok l
  <-> In l accepted /\ bits l = bitArrayLength key * 4 * 8.
Proof.
  unfold getAndVerifyAesKeyLength. split.
  - destruct (find _ accepted) as [l'|] eqn:E; [|discriminate].
    intros [= <-]. apply find_some in E. destruct E as [Hin Hb].
    apply Z.eqb_eq in Hb. auto.
  - intros [Hin Hb].
    destruct (find _ accepted) as [l'|] eqn:E.
    + apply find_some in E. destruct E as [_ Hb']. apply Z.eqb_eq in Hb'.
      f_equal. apply bits_injective. congruence.
    + apply (find_none _ _ E) in Hin. apply Z.eqb_neq in Hin. contradiction.
Qed.

Lemma getAndVerifyAesKeyLength_bytes (key : bytes) (l : AesKeyLength.t) :
  getAndVerifyAesKeyLength key ACCEPTED_BIT_LENGTHS = Ok l
  <-> bits l / 8 - 3 <= byteLength key <= bits l / 8.
Proof.
  rewrite getAndVerifyAesKeyLength_iff.
  assert (Hw : bits l = bitArrayLength key * 4 * 8 <-> bitArrayLength key = bits l / 32).
  { destruct l; cbn [bits];
      [change (128 / 32) with 4 | change (256 / 32) with 8]; lia. }
  rewrite Hw, bitArrayLength_words.
  destruct l; cbn [bits ACCEPTED_BIT_LENGTHS In];
    [change (128 / 32) with 4; change (128 / 8) with 16
    |change (256 / 32) with 8; change (256 / 8) with 32];
    intuition lia.
Qed.

(** getAndVerifyAesKeyLength measures the key in 32-bit words, so it
    classifies by ranges of the byte length: with the default allow-list a
    key of 13 to 16 bytes is taken as 128-bit and a key of 29 to 32 bytes as
    256-bit, and every other key is rejected.  An explicit allow-list only
    restricts the default classification, and the only failure is
    CryptoError(Illegal key length). *)
Theorem getAndVerifyAesKeyLength_spec (key : bytes) :
  (getAndVerifyAesKeyLength key ACCEPTED_BIT_LENGTHS = Ok Aes128
   <-> 13 <= byteLength key <= 16)
  /\ (getAndVerifyAesKeyLength key ACCEPTED_BIT_LENGTHS = Ok Aes256
      <-> 29 <= byteLength key <= 32)
  /\ (getAndVerifyAesKeyLength key ACCEPTED_BIT_LENGTHS
      = Throw (CryptoError "Illegal key length")
      <-> byteLength key < 13 \/ 16 < byteLength key < 29 \/ 32 < byteLength key)
  /\ (forall accepted l,
        getAndVerifyAesKeyLength key accepted = Ok l
        <-> In l accepted /\ getAndVerifyAesKeyLength key ACCEPTED_BIT_LENGTHS = Ok l)
  /\ (forall accepted e,
        getAndVerifyAesKeyLength key accepted = Throw e
        -> e = CryptoError "Illegal key length").
Proof.
  pose proof (getAndVerifyAesKeyLength_bytes key Aes128) as H128.
  pose proof (getAndVerifyAesKeyLength_bytes key Aes256) as H256.
  cbn [bits] in H128, H256.
  change (128 / 8) with 16 in H128. change (256 / 8) with 32 in H256.
  split; [|split; [|split; [|split]]].
  - rewrite H128. lia.
  - rewrite H256. lia.
  - split.
    + intros E.
      destruct (Z_lt_dec (byteLength key) 13) as [|H13]; [auto|].
      destruct (Z_lt_dec 32 (byteLength key)) as [|H32]; [auto|].
      destruct (Z_le_dec (byteLength key) 16) as [H16|H16].
      { pose proof (proj2 H128 ltac:(lia)) as X. rewrite E in X. discriminate. }
      destruct (Z_le_dec 29 (byteLength key)) as [H29|H29].
      { pose proof (proj2 H256 ltac:(lia)) as X. rewrite E in X. discriminate. }
      right. left. lia.
    + intros Hr.
      destruct (getAndVerifyAesKeyLength key ACCEPTED_BIT_LENGTHS) as [l|e] eqn:E.
      * exfalso. apply getAndVerifyAesKeyLength_bytes in E.
        destruct l; cbn [bits] in E;
          [change (128 / 8) with 16 in E | change (256 / 8) with 32 in E]; lia.
      * f_equal. unfold getAndVerifyAesKeyLength in E.
        destruct (find _ ACCEPTED_BIT_LENGTHS); [discriminate | congruence].
  - intros accepted l. rewrite !getAndVerifyAesKeyLength_iff.
    split.
    + intros [Hin Hb]. repeat split; auto. destruct l; cbn; auto.
    + intros [Hin [_ Hb]]. auto.
  - intros accepted e E. unfold getAndVerifyAesKeyLength in E.
    destruct (find _ accepted); [discriminate | congruence].
Qed.

(** For a 16-byte and for a 32-byte master key alike, the Aead derivation
    yields a 32-byte encryption key and a 32-byte authentication key, in the
    TypeScript and in the Java implementation. *)
Theorem deriveSubKeys_aead_key_sizes {P : Primitives} {OK : PrimitivesOk P} (key : bytes) :
  length key = 16%nat \/ length key = 32%nat ->
  (exists ek ak,
     SymmetricKeyDeriver.deriveSubKeys key Aead = Ok (mkSubKeys ek (Some ak))
     /\ length ek = 32%nat /\ length ak = 32%nat)
  /\ (exists ek ak,
        Java.SymmetricKeyDeriver.deriveSubKeys key Aead = Ok (mkSubKeys ek (Some ak))
        /\ length ek = 32%nat /\ length ak = 32%nat).
Proof.
  intros Hk. split.
  - pose proof (deriveSubKeys_aead_typescript key Hk) as Hd. cbv zeta in Hd.
    set (d := hkdf None key (SymmetricKeyDeriver.infoWithCipherVersion Aead) 64) in *.
    assert (Hl : byteLength d = 64) by (apply hkdf_length; lia).
    assert (Hh : length d = (2 * 32)%nat) by (unfold byteLength in Hl; lia).
    destruct (halves 32 d Hh) as (_ & H1 & H2 & H3).
    exists (firstn 32 d), (skipn 32 d). rewrite H3 in H2. auto.
  - destruct (deriveSubKeys_aead_java key Hk) as (Hd & H1 & H2). eauto.
Qed.

Lemma deriveSubKeys_aead_key_sizes_witness :
  (exists ek ak,
     SymmetricKeyDeriver.deriveSubKeys (Toy.zeros 16) Aead = Ok (mkSubKeys ek (Some ak))
     /\ length ek = 32%nat /\ length ak = 32%nat)
  /\ (exists ek ak,
        Java.SymmetricKeyDeriver.deriveSubKeys (Toy.zeros 16) Aead
        = Ok (mkSubKeys ek (Some ak))
        /\ length ek = 32%nat /\ length ak = 32%nat).
Proof.
  apply (deriveSubKeys_aead_key_sizes (P := Toy.primitives)). left. reflexivity.
Defined.

(* ------------------------------------------------------------------ *)
(** ** AesCbcFacade.java *)

Section JavaAesCbcFacadeProperties.
Context {P : Primitives} {OK : PrimitivesOk P}.

Lemma java_deriveSubKeys_hmac_128 (key : bytes) :
  length key = 16%nat ->
  Java.SymmetricKeyDeriver.deriveSubKeys key AesCbcThenHmac
  = Ok (mkSubKeys (firstn 16 (sha256Hash key)) (Some (skipn 16 (sha256Hash key)))).
Proof.
  intros H. unfold Java.SymmetricKeyDeriver.deriveSubKeys.
  rewrite AesKeyLength_get_16 by assumption.
  cbn [bindR]. unfold Java.keyToBytes.
  pose proof (sha256Hash_length key) as Hh.
  destruct (halves 16 (sha256Hash key) Hh) as (_ & H1 & H2 & H3).
  change (Java.getKeyLengthBytes Aes128) with 16. change (2 * 16) with 32.
  rewrite !copyOfRange_in_range by (unfold byteLength; lia).
  change (Z.to_nat (16 - 0)) with 16%nat. change (Z.to_nat 0) with 0%nat.
  change (Z.to_nat (32 - 16)) with 16%nat. change (Z.to_nat 16) with 16%nat.
  rewrite skipn_O. cbn [bindR]. rewrite H3. reflexivity.
Qed.

(** For AesCbcThenHmac and a valid key, the Java and the TypeScript
    derivation yield the same sub-keys. *)
Lemma java_deriveSubKeys_hmac_agrees (key : bytes) :
  length key = 16%nat \/ length key = 32%nat ->
  Java.SymmetricKeyDeriver.deriveSubKeys key AesCbcThenHmac
  = SymmetricKeyDeriver.deriveSubKeys key AesCbcThenHmac.
Proof.
  intros [H|H].
  - rewrite java_deriveSubKeys_hmac_128, deriveSubKeys_hmac_128 by assumption. reflexivity.
  - rewrite java_deriveSubKeys_hmac_256, deriveSubKeys_hmac_256 by assumption. reflexivity.
Qed.

Lemma java_deriveSubKeys_hmac_inv (key : bytes) (sk : SubKeys) :
  Java.SymmetricKeyDeriver.deriveSubKeys key AesCbcThenHmac = Ok sk ->
  (length key = 16%nat \/ length key = 32%nat)
  /\ exists ak, authenticationKey sk = Some ak.
Proof.
  unfold Java.SymmetricKeyDeriver.deriveSubKeys.
  destruct (Java.AesKeyLength_get key) as [l|e] eqn:El; cbn [bindR]; [|discriminate].
  destruct (Java.copyOfRange _ 0 _) as [ek|]; cbn [bindR]; [|discriminate].
  destruct (Java.copyOfRange _ _ _) as [ak|]; cbn [bindR]; [|discriminate].
  intros [= <-]. split.
  - destruct (AesKeyLength_get_inv key l El) as [[_ H]|[_ H]]; auto.
  - exists ak. reflexivity.
Qed.

Lemma java_deriveSubKeys_unauthenticated_inv (key : bytes) (sk : SubKeys) :
  Java.SymmetricKeyDeriver.deriveSubKeys key UnusedReservedUnauthenticated = Ok sk ->
  sk = mkSubKeys key None /\ length key = 16%nat.
Proof.
  unfold Java.SymmetricKeyDeriver.deriveSubKeys.
  destruct (Java.AesKeyLength_get key) as [l|e] eqn:El; cbn [bindR]; [|discriminate].
  destruct (AesKeyLength_get_inv key l El) as [[-> Hl]|[-> Hl]];
    cbn [AesKeyLength.eqb negb]; [|discriminate].
  intros [= <-]. auto.
Qed.

Lemma java_encrypt_unauthenticated_run (key pt iv : bytes) (prepend padding : bool)
      (w : World) :
  length key = 16%nat ->
  Java.AesCbcFacade.encrypt key pt prepend iv padding UnusedReservedUnauthenticated w
  = (match cbcEncrypt key pt iv padding with
     | Ok c => Ok (if prepend then iv ++ c else c)
     | Throw e => Throw e
     end,
     addEvents w [EvCbcEncrypt key iv pt padding]).
Proof.
  intros Hk. unfold Java.AesCbcFacade.encrypt.
  rewrite java_deriveSubKeys_unauthenticated_128 by assumption.
  run_monad.
  destruct (cbcEncrypt key pt iv padding) as [c|e]; [|reflexivity].
  destruct prepend; unfold Java.merge, concat; cbn [List.concat];
    rewrite ?app_nil_r; reflexivity.
Qed.

Lemma java_encrypt_hmac_run (key pt iv ek ak : bytes) (prepend padding : bool) (w : World) :
  Java.SymmetricKeyDeriver.deriveSubKeys key AesCbcThenHmac = Ok (mkSubKeys ek (Some ak)) ->
  Java.AesCbcFacade.encrypt key pt prepend iv padding AesCbcThenHmac w
  = match cbcEncrypt ek pt iv padding with
    | Ok c =>
        let unauthenticated := if prepend then iv ++ c else c in
        (Ok ([versionValue AesCbcThenHmac] ++ unauthenticated
             ++ hmacSha256 ak unauthenticated),
         addEvents w [EvCbcEncrypt ek iv pt padding; EvHmac ak unauthenticated])
    | Throw e => (Throw e, addEvents w [EvCbcEncrypt ek iv pt padding])
    end.
Proof.
  intros Hd. unfold Java.AesCbcFacade.encrypt. rewrite Hd.
  run_monad. cbn [negb]. rewrite andb_false_r.
  destruct (cbcEncrypt ek pt iv padding) as [c|e]; [|reflexivity].
  rewrite addEvents_addEvents.
  destruct prepend; unfold Java.merge, concat, symmetricCipherVersionToUint8Array;
    cbn [List.concat app]; rewrite ?app_nil_r; reflexivity.
Qed.

Lemma java_decrypt_unauthenticated_run (key iv c : bytes) (randomIv padding : bool)
      (w : World) :
  length key = 16%nat -> (randomIv = true -> length iv = 16%nat) ->
  let body := if randomIv then iv ++ c else c in
  let iv' := if randomIv then iv else FIXED_IV in
  Java.AesCbcFacade.decrypt key body randomIv padding UnusedReservedUnauthenticated w
  = (match cbcDecrypt key c iv' padding with
     | Ok p => Ok p
     | Throw e => Throw (Java.wrapError e)
     end,
     addEvents w [EvCbcDecrypt key iv' c padding]).
Proof.
  intros Hk Hiv body iv'. unfold Java.AesCbcFacade.decrypt.
  rewrite java_deriveSubKeys_unauthenticated_128 by assumption.
  subst body iv'. destruct randomIv.
  - specialize (Hiv eq_refl). run_monad.
    rewrite (copyOfRange_app_prefix iv c) by (unfold byteLength; rewrite Hiv; reflexivity).
    rewrite (copyOfRange_app_suffix iv c) by (unfold byteLength; rewrite ?Hiv; reflexivity).
    cbv beta iota. cbn [fst snd].
    destruct (cbcDecrypt key c iv padding); reflexivity.
  - run_monad. cbn [fst snd].
    destruct (cbcDecrypt key c FIXED_IV padding); reflexivity.
Qed.

Lemma java_decrypt_hmac_run (key iv c tag ek ak : bytes) (v : Z) (randomIv padding : bool)
      (w : World) :
  Java.SymmetricKeyDeriver.deriveSubKeys key AesCbcThenHmac = Ok (mkSubKeys ek (Some ak)) ->
  length tag = 32%nat -> (randomIv = true -> length iv = 16%nat) ->
  let body := if randomIv then iv ++ c else c in
  let iv' := if randomIv then iv else FIXED_IV in
  Java.AesCbcFacade.decrypt key ([v] ++ body ++ tag) randomIv padding AesCbcThenHmac w
  = if bytesEqual (hmacSha256 ak body) tag
    then (match cbcDecrypt ek c iv' padding with
          | Ok p => Ok p
          | Throw e => Throw (Java.wrapError e)
          end,
          addEvents w [EvHmac ak body; EvCbcDecrypt ek iv' c padding])
    else (Throw AuthenticationFailed, addEvents w [EvHmac ak body]).
Proof.
  intros Hd Htag Hiv body iv'. unfold Java.AesCbcFacade.decrypt. rewrite Hd.
  change SYMMETRIC_AUTHENTICATION_TAG_LENGTH_BYTES with 32.
  change SYMMETRIC_CIPHER_VERSION_PREFIX_LENGTH_BYTES with 1.
  assert (Hb : Java.copyOfRange ([v] ++ body ++ tag) 1
                 (byteLength ([v] ++ body ++ tag) - 32) = Ok body).
  { pose proof (copyOfRange_mid [v] body tag) as H. change (byteLength [v]) with 1 in H.
    rewrite !byteLength_app. change (byteLength [v]) with 1.
    replace (1 + (byteLength body + byteLength tag) - 32) with (1 + byteLength body)
      by (unfold byteLength; lia).
    exact H. }
  assert (Ht : Java.copyOfRange ([v] ++ body ++ tag)
                 (byteLength ([v] ++ body ++ tag) - 32)
                 (byteLength ([v] ++ body ++ tag)) = Ok tag).
  { rewrite app_assoc. apply copyOfRange_app_suffix; [|reflexivity].
    rewrite !byteLength_app. unfold byteLength. lia. }
  rewrite Hb, Ht. run_monad. cbn [negb]. rewrite andb_false_r.
  destruct (bytesEqual (hmacSha256 ak body) tag); [|reflexivity].
  subst body iv'. destruct randomIv.
  - specialize (Hiv eq_refl).
    rewrite (copyOfRange_app_prefix iv c) by (unfold byteLength; rewrite Hiv; reflexivity).
    rewrite (copyOfRange_app_suffix iv c) by (unfold byteLength; rewrite ?Hiv; reflexivity).
    cbv beta iota. cbn [fst snd]. rewrite addEvents_addEvents.
    destruct (cbcDecrypt ek c iv padding); reflexivity.
  - cbn [fst snd]. rewrite addEvents_addEvents.
    destruct (cbcDecrypt ek c FIXED_IV padding); reflexivity.
Qed.

Lemma java_encrypt_inv (key pt iv env : bytes) (prepend padding : bool)
      (version : SymmetricCipherVersion) (w w' : World) :
  Java.AesCbcFacade.encrypt key pt prepend iv padding version w = (Ok env, w') ->
  (version = UnusedReservedUnauthenticated /\ length key = 16%nat
   /\ exists c, cbcEncrypt key pt iv padding = Ok c
                /\ env = (if prepend then iv ++ c else c))
  \/ (version = AesCbcThenHmac
      /\ exists ek ak c,
           Java.SymmetricKeyDeriver.deriveSubKeys key AesCbcThenHmac
           = Ok (mkSubKeys ek (Some ak))
           /\ cbcEncrypt ek pt iv padding = Ok c
           /\ env = [versionValue AesCbcThenHmac] ++ (if prepend then iv ++ c else c)
                    ++ hmacSha256 ak (if prepend then iv ++ c else c)).
Proof.
  intros H. destruct version.
  - left. split; [reflexivity|].
    destruct (Java.SymmetricKeyDeriver.deriveSubKeys key UnusedReservedUnauthenticated)
      as [sk|e] eqn:Hd.
    + destruct (java_deriveSubKeys_unauthenticated_inv key sk Hd) as [_ Hk].
      split; [exact Hk|].
      rewrite (java_encrypt_unauthenticated_run key pt iv prepend padding w Hk) in H.
      destruct (cbcEncrypt key pt iv padding) as [c|e] eqn:Hc; [|discriminate].
      injection H as <- <-. eauto.
    + unfold Java.AesCbcFacade.encrypt in H. rewrite Hd in H. discriminate.
  - right. split; [reflexivity|].
    destruct (Java.SymmetricKeyDeriver.deriveSubKeys key AesCbcThenHmac) as [sk|e] eqn:Hd.
    + destruct (java_deriveSubKeys_hmac_inv key sk Hd) as [_ [ak Hak]].
      destruct sk as [ek oak]. cbn [authenticationKey] in Hak. subst oak.
      rewrite (java_encrypt_hmac_run key pt iv ek ak prepend padding w Hd) in H.
      destruct (cbcEncrypt ek pt iv padding) as [c|e] eqn:Hc; [|discriminate].
      cbv zeta in H. injection H as <- _. exists ek, ak, c. auto.
    + unfold Java.AesCbcFacade.encrypt in H. rewrite Hd in H. discriminate.
  - unfold Java.AesCbcFacade.encrypt in H. run_monad_in H.
    destruct (Java.SymmetricKeyDeriver.deriveSubKeys key Aead) as [sk|e]; [|discriminate].
    destruct (cbcEncrypt _ pt iv padding); discriminate.
Qed.

Lemma java_aesCbcFacade_roundtrip_pair (key pt iv env : bytes) (prepend padding : bool)
      (version : SymmetricCipherVersion) (w w' : World) :
  Java.AesCbcFacade.encrypt key pt prepend iv padding version w = (Ok env, w') ->
  prepend = true \/ iv = FIXED_IV ->
  forall w2, fst (Java.AesCbcFacade.decrypt key env prepend padding version w2) = Ok pt.
Proof.
  intros H Hiv w2.
  destruct (java_encrypt_inv _ _ _ _ _ _ _ _ _ H)
    as [(-> & Hk & c & Hc & ->)|(-> & ek & ak & c & Hd & Hc & ->)];
    pose proof (cbcEncrypt_iv_length _ _ _ _ _ Hc) as Hl.
  - pose proof (java_decrypt_unauthenticated_run key iv c prepend padding w2 Hk
                  (fun _ => Hl)) as Hrun.
    cbv zeta in Hrun.
    destruct prepend; cbv iota in Hrun |- *; rewrite Hrun; cbn [fst].
    + rewrite (cbcDecrypt_cbcEncrypt _ _ _ _ _ Hc). reflexivity.
    + destruct Hiv as [Hp | ->]; [discriminate|].
      rewrite (cbcDecrypt_cbcEncrypt _ _ _ _ _ Hc). reflexivity.
  - pose proof (java_decrypt_hmac_run key iv c
                  (hmacSha256 ak (if prepend then iv ++ c else c)) ek ak
                  (versionValue AesCbcThenHmac) prepend padding w2 Hd
                  (hmacSha256_length _ _) (fun _ => Hl)) as Hrun.
    cbv zeta in Hrun. rewrite bytesEqual_refl in Hrun.
    destruct prepend; cbv iota in Hrun |- *; rewrite Hrun; cbn [fst].
    + rewrite (cbcDecrypt_cbcEncrypt _ _ _ _ _ Hc). reflexivity.
    + destruct Hiv as [Hp | ->]; [discriminate|].
      rewrite (cbcDecrypt_cbcEncrypt _ _ _ _ _ Hc). reflexivity.
Qed.
End JavaAesCbcFacadeProperties.

(** Java AesCbcFacade: what encrypt produced is recovered by decrypt under
    the same key, flags and version, provided the IV was prepended or is the
    fixed IV. *)
Theorem java_aesCbcFacade_roundtrip {P : Primitives} {OK : PrimitivesOk P}
        (key pt iv env : bytes) (prepend padding : bool)
        (version : SymmetricCipherVersion) (w w2 : World) :
  fst (Java.AesCbcFacade.encrypt key pt prepend iv padding version w) = Ok env ->
  prepend = true \/ iv = FIXED_IV ->
  fst (Java.AesCbcFacade.decrypt key env prepend padding version w2) = Ok pt.
Proof.
  intros H Hiv.
  destruct (Java.AesCbcFacade.encrypt key pt prepend iv padding version w) as [r w'] eqn:E.
  cbn [fst] in H. subst r.
  exact (java_aesCbcFacade_roundtrip_pair key pt iv env prepend padding version w w' E
           Hiv w2).
Qed.

Lemma java_aesCbcFacade_roundtrip_witness :
  fst (Java.AesCbcFacade.decrypt (Toy.zeros 32)
         [1; 139; 138; 137; 136; 143; 142; 141; 140; 131; 130; 129; 128; 255; 249; 236; 252;
          52; 53; 54; 55; 56; 57; 58; 59; 60; 61; 62; 63; 64; 65; 66; 67;
          68; 69; 70; 71; 72; 73; 74; 75; 76; 77; 78; 79; 80; 81; 82; 83]
         false true AesCbcThenHmac Toy.world0) = Ok [116; 101; 115; 116].
Proof.
  apply (java_aesCbcFacade_roundtrip (P := Toy.primitives)
           (Toy.zeros 32) [116; 101; 115; 116] FIXED_IV _ false true AesCbcThenHmac
           Toy.world0 Toy.world0).
  - vm_compute. reflexivity.
  - right. reflexivity.
Defined.

(** The Java and the TypeScript AesCbcFacade.encrypt write the same envelope
    and perform the same operations, for AesCbcThenHmac with any valid key
    and for UnusedReservedUnauthenticated with a 16-byte key. *)
Theorem aesCbcFacade_encrypt_java_agrees_with_typescript
        {P : Primitives} {OK : PrimitivesOk P}
        (key pt iv : bytes) (prepend padding : bool)
        (version : SymmetricCipherVersion) (w : World) :
  (version = AesCbcThenHmac /\ (length key = 16%nat \/ length key = 32%nat))
  \/ (version = UnusedReservedUnauthenticated /\ length key = 16%nat) ->
  Java.AesCbcFacade.encrypt key pt prepend iv padding version w
  = AesCbcFacade.encrypt key pt prepend iv padding version w.
Proof.
  intros [[-> Hk]|[-> Hk]].
  - destruct (deriveSubKeys_hmac_valid key Hk) as (ek & ak & Hd).
    rewrite (encrypt_hmac_run key pt iv ek ak prepend padding w Hd).
    rewrite <- java_deriveSubKeys_hmac_agrees in Hd by assumption.
    rewrite (java_encrypt_hmac_run key pt iv ek ak prepend padding w Hd).
    reflexivity.
  - rewrite java_encrypt_unauthenticated_run by assumption.
    rewrite encrypt_unauthenticated_run by (apply bitArrayLength_16; assumption).
    reflexivity.
Qed.

Lemma aesCbcFacade_encrypt_java_agrees_with_typescript_witness :
  Java.AesCbcFacade.encrypt (Toy.zeros 32) [116; 101; 115; 116] true FIXED_IV true
                            AesCbcThenHmac Toy.world0
  = AesCbcFacade.encrypt (Toy.zeros 32) [116; 101; 115; 116] true FIXED_IV true
                         AesCbcThenHmac Toy.world0.
Proof.
  apply (aesCbcFacade_encrypt_java_agrees_with_typescript (P := Toy.primitives)).
  left. split; [reflexivity | right; reflexivity].
Defined.

(** Java AesCbcFacade.decrypt, AesCbcThenHmac: a ciphertext of fewer than 33
    bytes (no room for version byte and tag) makes Arrays.copyOfRange throw an
    IllegalArgumentException, which is not wrapped; nothing has been computed
    by then. *)
Theorem java_aesCbcFacade_decrypt_short_ciphertext {P : Primitives} {OK : PrimitivesOk P}
        (key ct : bytes) (randomIv padding : bool) (w : World) :
  length key = 16%nat \/ length key = 32%nat ->
  (length ct < 33)%nat ->
  Java.AesCbcFacade.decrypt key ct randomIv padding AesCbcThenHmac w
  = (Throw IllegalArgumentException, w).
Proof.
  intros Hk Hlen.
  assert (exists ek ak, Java.SymmetricKeyDeriver.deriveSubKeys key AesCbcThenHmac
                        = Ok (mkSubKeys ek (Some ak))) as (ek & ak & Hd).
  { rewrite java_deriveSubKeys_hmac_agrees by assumption.
    apply deriveSubKeys_hmac_valid. assumption. }
  unfold Java.AesCbcFacade.decrypt. rewrite Hd.
  change SYMMETRIC_AUTHENTICATION_TAG_LENGTH_BYTES with 32.
  change SYMMETRIC_CIPHER_VERSION_PREFIX_LENGTH_BYTES with 1.
  assert (Hc : Java.copyOfRange ct 1 (byteLength ct - 32) = Throw IllegalArgumentException).
  { unfold Java.copyOfRange.
    destruct (Z.ltb_spec (byteLength ct - 32 - 1) 0); [reflexivity|].
    unfold byteLength in *. lia. }
  run_monad. cbn [negb]. rewrite andb_false_r, Hc. reflexivity.
Qed.

Lemma java_aesCbcFacade_decrypt_short_ciphertext_witness :
  Java.AesCbcFacade.decrypt (Toy.zeros 32) (Toy.zeros 32) true true AesCbcThenHmac Toy.world0
  = (Throw IllegalArgumentException, Toy.world0).
Proof.
  apply (java_aesCbcFacade_decrypt_short_ciphertext (P := Toy.primitives)).
  - right. reflexivity.
  - cbn. lia.
Defined.

(** Java AesCbcFacade.decrypt, AesCbcThenHmac, on an envelope of version
    byte, body and 32-byte tag: when the HMAC over the body differs from the
    tag, the authentication failure leaves the facade unwrapped, after that
    one HMAC computation and before any CBC decryption. *)
Theorem java_aesCbcFacade_authenticates_first {P : Primitives} {OK : PrimitivesOk P}
        (key body tag : bytes) (v : Z) (randomIv padding : bool) (w : World) :
  length key = 16%nat \/ length key = 32%nat ->
  length tag = 32%nat ->
  exists ek ak,
    Java.SymmetricKeyDeriver.deriveSubKeys key AesCbcThenHmac = Ok (mkSubKeys ek (Some ak))
    /\ (hmacSha256 ak body <> tag ->
        Java.AesCbcFacade.decrypt key ([v] ++ body ++ tag) randomIv padding AesCbcThenHmac w
        = (Throw AuthenticationFailed, addEvents w [EvHmac ak body])).
Proof.
  intros Hk Htag.
  assert (exists ek ak, Java.SymmetricKeyDeriver.deriveSubKeys key AesCbcThenHmac
                        = Ok (mkSubKeys ek (Some ak))) as (ek & ak & Hd).
  { rewrite java_deriveSubKeys_hmac_agrees by assumption.
    apply deriveSubKeys_hmac_valid. assumption. }
  exists ek, ak. split; [exact Hd|]. intros Hne.
  unfold Java.AesCbcFacade.decrypt. rewrite Hd.
  change SYMMETRIC_AUTHENTICATION_TAG_LENGTH_BYTES with 32.
  change SYMMETRIC_CIPHER_VERSION_PREFIX_LENGTH_BYTES with 1.
  assert (Hb : Java.copyOfRange ([v] ++ body ++ tag) 1
                 (byteLength ([v] ++ body ++ tag) - 32) = Ok body).
  { pose proof (copyOfRange_mid [v] body tag) as H. change (byteLength [v]) with 1 in H.
    rewrite !byteLength_app. change (byteLength [v]) with 1.
    replace (1 + (byteLength body + byteLength tag) - 32) with (1 + byteLength body)
      by (unfold byteLength; lia).
    exact H. }
  assert (Ht : Java.copyOfRange ([v] ++ body ++ tag)
                 (byteLength ([v] ++ body ++ tag) - 32)
                 (byteLength ([v] ++ body ++ tag)) = Ok tag).
  { rewrite app_assoc. apply copyOfRange_app_suffix; [|reflexivity].
    rewrite !byteLength_app. unfold byteLength. lia. }
  rewrite Hb, Ht. run_monad. cbn [negb].
  rewrite andb_false_r, bytesEqual_neq by assumption. reflexivity.
Qed.

Lemma java_aesCbcFacade_authenticates_first_witness :
  Java.AesCbcFacade.decrypt (Toy.zeros 32) ([1] ++ Toy.zeros 16 ++ Toy.zeros 32) false true
                            AesCbcThenHmac Toy.world0
  = (Throw AuthenticationFailed,
     addEvents Toy.world0 [EvHmac (map Z.of_nat (seq 32 32)) (Toy.zeros 16)]).
Proof.
  destruct (java_aesCbcFacade_authenticates_first (P := Toy.primitives)
              (Toy.zeros 32) (Toy.zeros 16) (Toy.zeros 32) 1 false true Toy.world0
              (or_intror eq_refl) eq_refl) as (ek & ak & Hd & Hmismatch).
  vm_compute in Hd. injection Hd as <- <-.
  apply Hmismatch. vm_compute. discriminate.
Defined.

(* ------------------------------------------------------------------ *)
(** ** SymmetricCipherFacade.java: round trips, disabled AEAD *)

Section FacadeRoundTrips.
Context {P : Primitives} {OK : PrimitivesOk P}.

Lemma encrypt5_inv (key pt env : bytes) (hasRandomIv padding : bool)
      (version : SymmetricCipherVersion) (w w' : World) :
  Java.SymmetricCipherFacade.encrypt5 key pt hasRandomIv padding version w = (Ok env, w') ->
  exists iv w1,
    Java.AesCbcFacade.encrypt key pt hasRandomIv iv padding version w1 = (Ok env, w')
    /\ (hasRandomIv = true \/ iv = FIXED_IV).
Proof.
  unfold Java.SymmetricCipherFacade.encrypt5. run_monad. unfold nextBytes.
  destruct hasRandomIv; cbv beta iota zeta.
  - destruct version.
    + destruct (Java.AesCbcFacade.encrypt _ _ _ _ _ _ _) as [[r|e] w1] eqn:E;
        intros [= <- <-]. eauto.
    + destruct (Java.AesCbcFacade.encrypt _ _ _ _ _ _ _) as [[r|e] w1] eqn:E;
        intros [= <- <-]. eauto.
    + destruct (assertionsEnabled && negb true); discriminate.
  - destruct version.
    + destruct (Java.AesCbcFacade.encrypt _ _ _ _ _ _ _) as [[r|e] w1] eqn:E;
        intros [= <- <-]. eauto.
    + destruct (Java.AesCbcFacade.encrypt _ _ _ _ _ _ _) as [[r|e] w1] eqn:E;
        intros [= <- <-]. eauto.
    + destruct (assertionsEnabled && negb false); discriminate.
Qed.

Lemma decrypt4_dispatch (key ct : bytes) (randomIv padding : bool)
      (version : SymmetricCipherVersion) (w : World) :
  getFromCiphertext ct = Ok version ->
  version = AesCbcThenHmac \/ (version = UnusedReservedUnauthenticated /\ length key = 16%nat) ->
  Java.SymmetricCipherFacade.decrypt4 key ct randomIv padding w
  = Java.AesCbcFacade.decrypt key ct randomIv padding version w.
Proof.
  intros Hv Hcase.
  unfold Java.SymmetricCipherFacade.decrypt4, Java.SymmetricCipherFacade.getCipherVersion.
  rewrite Hv. destruct Hcase as [-> | [-> Hk]].
  - reflexivity.
  - rewrite AesKeyLength_get_16 by assumption. reflexivity.
Qed.

Lemma encrypt5_roundtrip (key pt env : bytes) (hasRandomIv padding : bool)
      (version : SymmetricCipherVersion) (w w' w2 : World) :
  Java.SymmetricCipherFacade.encrypt5 key pt hasRandomIv padding version w = (Ok env, w') ->
  getFromCiphertext env = Ok version ->
  fst (Java.SymmetricCipherFacade.decrypt4 key env hasRandomIv padding w2) = Ok pt.
Proof.
  intros H Hv.
  destruct (encrypt5_inv _ _ _ _ _ _ _ _ H) as (iv & w1 & He & Hiv).
  assert (Hcase : version = AesCbcThenHmac
                  \/ (version = UnusedReservedUnauthenticated /\ length key = 16%nat)).
  { destruct (java_encrypt_inv _ _ _ _ _ _ _ _ _ He) as [(-> & Hk & _)|(-> & _)]; auto. }
  rewrite (decrypt4_dispatch key env hasRandomIv padding version w2 Hv Hcase).
  exact (java_aesCbcFacade_roundtrip_pair key pt iv env hasRandomIv padding version
           w1 w' He Hiv w2).
Qed.
End FacadeRoundTrips.

(** decryptBytes returns what encryptBytes was given, whenever the version
    detected from the envelope is the one it was written with. *)
Theorem facade_bytes_roundtrip {P : Primitives} {OK : PrimitivesOk P}
        (key pt env : bytes) (w w2 : World) :
  fst (Java.SymmetricCipherFacade.encryptBytes key pt w) = Ok env ->
  getFromCiphertext env = Ok AesCbcThenHmac ->
  fst (Java.SymmetricCipherFacade.decryptBytes key env w2) = Ok pt.
Proof.
  intros H Hv.
  destruct (Java.SymmetricCipherFacade.encryptBytes key pt w) as [r w'] eqn:E.
  cbn [fst] in H. subst r.
  exact (encrypt5_roundtrip key pt env true true AesCbcThenHmac w w' w2 E Hv).
Qed.

Lemma facade_bytes_roundtrip_witness :
  fst (Java.SymmetricCipherFacade.decryptBytes (Toy.zeros 32)
         ([1] ++ map Z.of_nat (seq 0 16)
              ++ [12; 12; 12; 12; 12; 12; 12; 12; 12; 12; 12; 12; 116; 115; 101; 116]
              ++ map Z.of_nat (seq 134 32))
         Toy.world0)
  = Ok [116; 101; 115; 116].
Proof.
  apply (facade_bytes_roundtrip (P := Toy.primitives)
           (Toy.zeros 32) [116; 101; 115; 116] _ Toy.world0 Toy.world0).
  - vm_compute. reflexivity.
  - reflexivity.
Defined.

(** decryptKey returns the key that encryptKey wrapped, for a 128-bit and
    for a 256-bit wrapping key, whenever the version detected from the
    envelope is the one encryptKey chose for that wrapping key.  (A Java
    SecretKeySpec is never empty.) *)
Theorem facade_key_wrap_roundtrip {P : Primitives} {OK : PrimitivesOk P}
        (key keyToEncrypt env : bytes) (w w2 : World) :
  fst (Java.SymmetricCipherFacade.encryptKey key keyToEncrypt w) = Ok env ->
  getFromCiphertext env
  = Ok (if (length key =? 16)%nat then UnusedReservedUnauthenticated else AesCbcThenHmac) ->
  keyToEncrypt <> [] ->
  fst (Java.SymmetricCipherFacade.decryptKey key env w2) = Ok keyToEncrypt.
Proof.
  intros H Hv Hne.
  destruct (Java.SymmetricCipherFacade.encryptKey key keyToEncrypt w) as [r w'] eqn:E.
  cbn [fst] in H. subst r.
  unfold Java.SymmetricCipherFacade.encryptKey, bind, lift in E.
  unfold Java.SymmetricCipherFacade.decryptKey, bind, lift.
  destruct (Java.AesKeyLength_get key) as [l|e] eqn:El; [|discriminate].
  destruct (AesKeyLength_get_inv key l El) as [[-> Hk]|[-> Hk]]; rewrite Hk in Hv;
    cbn [Nat.eqb] in Hv.
  - pose proof (encrypt5_roundtrip _ _ _ _ _ _ _ _ w2 E Hv) as Hr.
    destruct (Java.SymmetricCipherFacade.decrypt4 key env false false w2) as [r w3].
    cbn [fst] in Hr. subst r. unfold Java.keyToBytes.
    destruct keyToEncrypt; [congruence | reflexivity].
  - unfold Java.SymmetricCipherFacade.encrypt4 in E.
    unfold Java.SymmetricCipherFacade.decrypt3.
    pose proof (encrypt5_roundtrip _ _ _ _ _ _ _ _ w2 E Hv) as Hr.
    destruct (Java.SymmetricCipherFacade.decrypt4 key env true false w2) as [r w3].
    cbn [fst] in Hr. subst r. unfold Java.keyToBytes.
    destruct keyToEncrypt; [congruence | reflexivity].
Qed.

Lemma facade_key_wrap_roundtrip_witness :
  fst (Java.SymmetricCipherFacade.decryptKey (Toy.zeros 16) (repeat 136 32) Toy.world0)
  = Ok (Toy.zeros 32).
Proof.
  apply (facade_key_wrap_roundtrip (P := Toy.primitives)
           (Toy.zeros 16) (Toy.zeros 32) (repeat 136 32) Toy.world0 Toy.world0).
  - vm_compute. reflexivity.
  - reflexivity.
  - discriminate.
Defined.

(** AEAD is switched off in the facade: a ciphertext whose detected version
    is Aead is rejected by decrypt, decryptBytes and (for a valid key)
    decryptKey with "not yet enabled" before anything is computed, and the
    facade's encrypt never returns an envelope for version Aead nor runs a
    CBC encryption or an HMAC for it. *)
Theorem facade_aead_disabled {P : Primitives}
        (key data : bytes) (flag padding : bool) (w : World) :
  (getFromCiphertext data = Ok Aead ->
   Java.SymmetricCipherFacade.decrypt4 key data flag padding w
   = (Throw (RuntimeException "not yet enabled"), w)
   /\ Java.SymmetricCipherFacade.decryptBytes key data w
      = (Throw (RuntimeException "not yet enabled"), w)
   /\ (length key = 16%nat \/ length key = 32%nat ->
       Java.SymmetricCipherFacade.decryptKey key data w
       = (Throw (RuntimeException "not yet enabled"), w)))
  /\ exists e w',
       Java.SymmetricCipherFacade.encrypt5 key data flag padding Aead w = (Throw e, w')
       /\ (e = RuntimeException "Not enabled" \/ e = AssertionError)
       /\ existsb (fun ev => match ev with EvRandom _ _ => false | _ => true end)
                  (skipn (length (trace w)) (trace w')) = false.
Proof.
  split.
  - intros Hv.
    assert (Hd : forall r p, Java.SymmetricCipherFacade.decrypt4 key data r p w
                             = (Throw (RuntimeException "not yet enabled"), w)).
    { intros r p.
      unfold Java.SymmetricCipherFacade.decrypt4, Java.SymmetricCipherFacade.getCipherVersion.
      rewrite Hv. reflexivity. }
    repeat split.
    + apply Hd.
    + apply Hd.
    + intros Hk. unfold Java.SymmetricCipherFacade.decryptKey, bind, lift.
      destruct Hk as [Hk|Hk].
      * rewrite AesKeyLength_get_16, Hd by assumption. reflexivity.
      * rewrite AesKeyLength_get_32 by assumption.
        unfold Java.SymmetricCipherFacade.decrypt3. rewrite Hd. reflexivity.
  - unfold Java.SymmetricCipherFacade.encrypt5. run_monad. unfold nextBytes.
    destruct flag; cbv beta iota zeta; cbn [negb].
    + rewrite andb_false_r. cbn [Java.wrapError Java.checkedCryptoException].
      eexists. eexists. split; [reflexivity|]. split; [auto|].
      cbn [trace]. rewrite skipn_app_exact. reflexivity.
    + rewrite andb_true_r. destruct assertionsEnabled;
        cbn [Java.wrapError Java.checkedCryptoException];
        eexists; eexists; (split; [reflexivity|]); (split; [auto|]);
        rewrite skipn_all; reflexivity.
Qed.

Lemma facade_aead_disabled_witness :
  Java.SymmetricCipherFacade.decryptBytes (Toy.zeros 32) [2; 0; 0] Toy.world0
  = (Throw (RuntimeException "not yet enabled"), Toy.world0).
Proof.
  exact (proj1 (proj2 (proj1 (facade_aead_disabled (P := Toy.primitives)
                                (Toy.zeros 32) [2; 0; 0] true true Toy.world0) eq_refl))).
Defined.

(* ------------------------------------------------------------------ *)
(** ** Aes.ts: aesDecryptImpl, authenticatedAesDecrypt, search index entries *)

Section AesProperties.
Context {P : Primitives} {OK : PrimitivesOk P}.

Lemma getAndVerifyAesKeyLength_valid (key : bytes) :
  length key = 16%nat \/ length key = 32%nat ->
  exists l, getAndVerifyAesKeyLength key ACCEPTED_BIT_LENGTHS = Ok l.
Proof.
  intros [H|H];
    [rewrite getAndVerifyAesKeyLength_16 | rewrite getAndVerifyAesKeyLength_32]; eauto.
Qed.

Lemma aesDecryptImpl_mac_run (key eb mk : bytes) (usePadding enforceMac : bool) (w : World) :
  (exists l, getAndVerifyAesKeyLength key ACCEPTED_BIT_LENGTHS = Ok l) ->
  byteLength eb mod 2 = 1 ->
  mKey (getAesSubKeys key true) = Some mk ->
  let body := subarray eb 1 (byteLength eb - 32) in
  let tag := subarray eb (byteLength eb - 32) (byteLength eb) in
  let iv := slice body 0 16 in
  let c := slice body 16 (byteLength body) in
  Aes.aesDecryptImpl key eb usePadding enforceMac w
  = if bytesEqual (hmacSha256 mk body) tag
    then
      if negb (byteLength iv =? 16)
      then (Throw (CryptoError "Invalid IV length in aesDecrypt"),
            addEvents w [EvHmac mk body])
      else (match cbcDecrypt (cKey (getAesSubKeys key true)) c iv usePadding with
            | Ok p => Ok p
            | Throw _ => Throw (CryptoError "aes decryption failed")
            end,
            addEvents w [EvHmac mk body;
                         EvCbcDecrypt (cKey (getAesSubKeys key true)) iv c usePadding])
    else (Throw AuthenticationFailed, addEvents w [EvHmac mk body]).
Proof.
  intros [l Hl] Hpar Hmk body tag iv c.
  unfold Aes.aesDecryptImpl. rewrite Hl. run_monad.
  change MAC_LENGTH_BYTES with 32. change IV_BYTE_LENGTH with 16.
  rewrite Hpar. change (1 =? 1) with true. cbv iota. cbn [negb].
  rewrite andb_false_r, Hmk. fold body tag.
  destruct (bytesEqual (hmacSha256 mk body) tag); [|reflexivity].
  fold iv c.
  destruct (negb (byteLength iv =? 16)); [reflexivity|].
  rewrite addEvents_addEvents.
  destruct (cbcDecrypt _ c iv usePadding); reflexivity.
Qed.

Lemma aesDecryptImpl_nomac_run (key eb : bytes) (usePadding : bool) (w : World) :
  (exists l, getAndVerifyAesKeyLength key ACCEPTED_BIT_LENGTHS = Ok l) ->
  byteLength eb mod 2 = 0 ->
  let iv := slice eb 0 16 in
  let c := slice eb 16 (byteLength eb) in
  Aes.aesDecryptImpl key eb usePadding false w
  = if negb (byteLength iv =? 16)
    then (Throw (CryptoError "Invalid IV length in aesDecrypt"), w)
    else (match cbcDecrypt (cKey (getAesSubKeys key false)) c iv usePadding with
          | Ok p => Ok p
          | Throw _ => Throw (CryptoError "aes decryption failed")
          end,
          addEvents w [EvCbcDecrypt (cKey (getAesSubKeys key false)) iv c usePadding]).
Proof.
  intros [l Hl] Hpar iv c.
  unfold Aes.aesDecryptImpl. rewrite Hl. run_monad.
  change IV_BYTE_LENGTH with 16.
  rewrite Hpar. change (0 =? 1) with false. cbv iota. cbn [andb].
  fold iv c.
  destruct (negb (byteLength iv =? 16)); [reflexivity|].
  destruct (cbcDecrypt _ c iv usePadding); reflexivity.
Qed.

Lemma slice_app_prefix (a b : bytes) (n : Z) :
  n = byteLength a -> slice (a ++ b) 0 n = a.
Proof. apply subarray_app_prefix. Qed.

Lemma slice_app_suffix (a b : bytes) (n m : Z) :
  n = byteLength a -> m = byteLength (a ++ b) -> slice (a ++ b) n m = b.
Proof. apply subarray_app_suffix. Qed.

Lemma aesEncrypt_inv (key pt iv env : bytes) (usePadding useMac : bool) (w w' : World) :
  Aes.aesEncrypt key pt iv usePadding useMac w = (Ok env, w') ->
  (exists l, getAndVerifyAesKeyLength key ACCEPTED_BIT_LENGTHS = Ok l)
  /\ length iv = 16%nat
  /\ exists c,
       cbcEncrypt (cKey (getAesSubKeys key useMac)) pt iv usePadding = Ok c
       /\ if useMac
          then exists mk, mKey (getAesSubKeys key true) = Some mk
                          /\ env = [1] ++ (iv ++ c) ++ hmacSha256 mk (iv ++ c)
          else env = iv ++ c.
Proof.
  unfold Aes.aesEncrypt.
  destruct (getAndVerifyAesKeyLength key ACCEPTED_BIT_LENGTHS) as [l|e] eqn:El;
    [|discriminate].
  run_monad. change IV_BYTE_LENGTH with 16.
  destruct (Z.eqb_spec (byteLength iv) 16) as [Hiv|]; cbn [negb]; [|discriminate].
  destruct (negb useMac && AesKeyLength.eqb l Aes256); [discriminate|].
  destruct (cbcEncrypt _ pt iv usePadding) as [c|e] eqn:Hc; [|discriminate].
  intros H. split; [|split].
  - exists l. reflexivity.
  - unfold byteLength in Hiv. lia.
  - exists c. split; [reflexivity|].
    destruct useMac.
    + destruct (mKey (getAesSubKeys key true)) as [mk|]; [|discriminate].
      exists mk. split; [reflexivity|].
      injection H as <- _. unfold concat, MAC_ENABLED_PREFIX.
      cbn [List.concat app]. rewrite !app_nil_r. reflexivity.
    + injection H as <- _. unfold concat. cbn [List.concat].
      rewrite app_nil_r. reflexivity.
Qed.
End AesProperties.

(** authenticatedAesDecrypt refuses every input of even length, which cannot
    be an authenticated envelope, with a CryptoError before anything is
    computed, whatever the key. *)
Theorem authenticatedAesDecrypt_rejects_even_length {P : Primitives}
        (key eb : bytes) (usePadding : bool) (w : World) :
  byteLength eb mod 2 = 0 ->
  exists msg,
    Aes.authenticatedAesDecrypt key eb usePadding w = (Throw (CryptoError msg), w).
Proof.
  intros Hpar. unfold Aes.authenticatedAesDecrypt, Aes.aesDecryptImpl.
  destruct (getAndVerifyAesKeyLength key ACCEPTED_BIT_LENGTHS) as [l|e] eqn:El.
  - run_monad. rewrite Hpar. change (0 =? 1) with false. cbn [negb andb]. eauto.
  - unfold getAndVerifyAesKeyLength in El.
    destruct (find _ ACCEPTED_BIT_LENGTHS); [discriminate|].
    injection El as <-. run_monad. eauto.
Qed.

Lemma authenticatedAesDecrypt_rejects_even_length_witness :
  exists msg,
    Aes.authenticatedAesDecrypt (Toy.zeros 32) (Toy.zeros 32) true Toy.world0
    = (Throw (CryptoError msg), Toy.world0).
Proof.
  apply (authenticatedAesDecrypt_rejects_even_length (P := Toy.primitives)). reflexivity.
Defined.

(** aesDecryptImpl on an input of odd length: the HMAC over bytes
    [1, len-32) is compared with the last 32 bytes, and on mismatch the call
    fails with an authentication failure after that HMAC computation alone,
    without any CBC decryption, whether or not the MAC is enforced. *)
Theorem aesDecryptImpl_authenticates_first {P : Primitives} {OK : PrimitivesOk P}
        (key eb mk : bytes) (usePadding enforceMac : bool) (w : World) :
  length key = 16%nat \/ length key = 32%nat ->
  byteLength eb mod 2 = 1 ->
  mKey (getAesSubKeys key true) = Some mk ->
  let body := subarray eb 1 (byteLength eb - 32) in
  let tag := subarray eb (byteLength eb - 32) (byteLength eb) in
  hmacSha256 mk body <> tag ->
  Aes.aesDecryptImpl key eb usePadding enforceMac w
  = (Throw AuthenticationFailed, addEvents w [EvHmac mk body]).
Proof.
  intros Hk Hpar Hmk body tag Hne.
  rewrite (aesDecryptImpl_mac_run key eb mk usePadding enforceMac w
             (getAndVerifyAesKeyLength_valid key Hk) Hpar Hmk).
  fold body tag. rewrite bytesEqual_neq by assumption. reflexivity.
Qed.

Lemma aesDecryptImpl_authenticates_first_witness :
  Aes.aesDecryptImpl (Toy.zeros 32) ([1] ++ Toy.zeros 16 ++ Toy.zeros 32) true false
                     Toy.world0
  = (Throw AuthenticationFailed,
     addEvents Toy.world0 [EvHmac (map Z.of_nat (seq 32 32)) (Toy.zeros 16)]).
Proof.
  apply (aesDecryptImpl_authenticates_first (P := Toy.primitives)
           (Toy.zeros 32) ([1] ++ Toy.zeros 16 ++ Toy.zeros 32) (map Z.of_nat (seq 32 32))
           true false Toy.world0 (or_intror eq_refl) eq_refl eq_refl).
  vm_compute. discriminate.
Defined.

(** aesDecryptImpl returns what aesEncrypt was given, with the same key and
    padding mode: for an authenticated envelope whether or not the MAC is
    enforced, for an unauthenticated one when the MAC is not enforced. *)
Theorem aesEncrypt_aesDecryptImpl_roundtrip {P : Primitives} {OK : PrimitivesOk P}
        (key pt iv env : bytes) (usePadding useMac enforceMac : bool) (w w2 : World) :
  fst (Aes.aesEncrypt key pt iv usePadding useMac w) = Ok env ->
  (enforceMac = true -> useMac = true) ->
  fst (Aes.aesDecryptImpl key env usePadding enforceMac w2) = Ok pt.
Proof.
  intros H Hmac.
  destruct (Aes.aesEncrypt key pt iv usePadding useMac w) as [r w'] eqn:E.
  cbn [fst] in H. subst r.
  destruct (aesEncrypt_inv _ _ _ _ _ _ _ _ E) as (Hk & Hiv & c & Hc & Henv).
  destruct (cbcEncrypt_length _ _ _ _ _ Hc) as [_ Hmod].
  destruct useMac.
  - destruct Henv as (mk & Hmk & ->).
    set (tag := hmacSha256 mk (iv ++ c)).
    assert (Ht : length tag = 32%nat) by apply hmacSha256_length.
    assert (Hpar : byteLength ([1] ++ (iv ++ c) ++ tag) mod 2 = 1).
    { unfold byteLength. rewrite !length_app, Hiv, Ht. cbn [length].
      replace (Z.of_nat (1 + (16 + length c + 32))) with (49 + Z.of_nat (length c)) by lia.
      rewrite mod2_shift by assumption. reflexivity. }
    rewrite (aesDecryptImpl_mac_run key _ mk usePadding enforceMac w2 Hk Hpar Hmk).
    rewrite (envelope_body 1 (iv ++ c) tag Ht), (envelope_tag 1 (iv ++ c) tag Ht).
    unfold tag. rewrite bytesEqual_refl.
    rewrite slice_app_prefix by (unfold byteLength; rewrite Hiv; reflexivity).
    rewrite slice_app_suffix by (unfold byteLength; rewrite ?Hiv; reflexivity).
    replace (byteLength iv =? 16) with true
      by (symmetry; apply Z.eqb_eq; unfold byteLength; lia).
    cbn [negb fst]. rewrite (cbcDecrypt_cbcEncrypt _ _ _ _ _ Hc). reflexivity.
  - subst env.
    assert (He : enforceMac = false)
      by (destruct enforceMac; [discriminate (Hmac eq_refl) | reflexivity]).
    subst enforceMac.
    assert (Hpar : byteLength (iv ++ c) mod 2 = 0).
    { unfold byteLength. rewrite length_app, Hiv.
      replace (Z.of_nat (16 + length c)) with (16 + Z.of_nat (length c)) by lia.
      rewrite mod2_shift by assumption. reflexivity. }
    rewrite (aesDecryptImpl_nomac_run key _ usePadding w2 Hk Hpar).
    rewrite slice_app_prefix by (unfold byteLength; rewrite Hiv; reflexivity).
    rewrite slice_app_suffix by (unfold byteLength; rewrite ?Hiv; reflexivity).
    replace (byteLength iv =? 16) with true
      by (symmetry; apply Z.eqb_eq; unfold byteLength; lia).
    cbn [negb fst]. rewrite (cbcDecrypt_cbcEncrypt _ _ _ _ _ Hc). reflexivity.
Qed.

Lemma aesEncrypt_aesDecryptImpl_roundtrip_witness :
  fst (Aes.aesDecryptImpl (Toy.zeros 32)
         ([1] ++ Toy.zeros 16
              ++ [3; 2; 1; 0; 7; 6; 5; 4; 11; 10; 9; 8; 119; 113; 100; 116]
              ++ map Z.of_nat (seq 52 32))
         true true Toy.world0)
  = Ok [116; 101; 115; 116].
Proof.
  apply (aesEncrypt_aesDecryptImpl_roundtrip (P := Toy.primitives)
           (Toy.zeros 32) [116; 101; 115; 116] (Toy.zeros 16) _ true true true
           Toy.world0 Toy.world0).
  - vm_compute. reflexivity.
  - reflexivity.
Defined.

(** aes256EncryptSearchIndexEntry accepts only the keys it measures as
    256-bit, those of eight 32-bit words (29 to 32 bytes).  Its output is the
    IV followed by the CBC ciphertext, with no version byte and no tag:
    aesDecryptImpl without MAC enforcement returns the plaintext from it, and
    authenticatedAesDecrypt refuses it. *)
Theorem searchIndexEntry_is_unauthenticated {P : Primitives} {OK : PrimitivesOk P}
        (key pt iv : bytes) (usePadding : bool) (w w2 : World) :
  (byteLength key < 29 \/ 32 < byteLength key ->
   exists msg,
     Aes.aes256EncryptSearchIndexEntry key pt iv usePadding w = (Throw (CryptoError msg), w))
  /\ (forall env,
        fst (Aes.aes256EncryptSearchIndexEntry key pt iv usePadding w) = Ok env ->
        29 <= byteLength key <= 32
        /\ (exists c, env = iv ++ c /\ length iv = 16%nat)
        /\ fst (Aes.aesDecryptImpl key env usePadding false w2) = Ok pt
        /\ exists msg,
             Aes.authenticatedAesDecrypt key env usePadding w2
             = (Throw (CryptoError msg), w2)).
Proof.
  unfold Aes.aes256EncryptSearchIndexEntry.
  destruct (getAndVerifyAesKeyLength key [Aes256]) as [l|e] eqn:El.
  - apply getAndVerifyAesKeyLength_iff in El. destruct El as [Hin Hb].
    destruct Hin as [<- | []]. cbn [bits] in Hb.
    assert (Hw : bitArrayLength key = 8) by lia.
    assert (Hk : 29 <= byteLength key <= 32)
      by (apply bitArrayLength_words in Hw; lia).
    pose proof (getAndVerifyAesKeyLength_words8 key Hw) as Hv.
    split; [intros; lia|].
    intros env. run_monad. change IV_BYTE_LENGTH with 16.
    destruct (Z.eqb_spec (byteLength iv) 16) as [Hiv|]; cbn [negb]; [|discriminate].
    destruct (cbcEncrypt _ pt iv usePadding) as [c|e] eqn:Hc; cbn [fst]; [|discriminate].
    unfold concat, keyToUint8Array. cbn [List.concat]. rewrite app_nil_r.
    intros [= <-].
    assert (Hiv' : length iv = 16%nat) by (unfold byteLength in Hiv; lia).
    destruct (cbcEncrypt_length _ _ _ _ _ Hc) as [_ Hmod].
    assert (Hpar : byteLength (iv ++ c) mod 2 = 0).
    { unfold byteLength. rewrite length_app, Hiv'.
      replace (Z.of_nat (16 + length c)) with (16 + Z.of_nat (length c)) by lia.
      rewrite mod2_shift by assumption. reflexivity. }
    split; [exact Hk|]. split; [eauto|]. split.
    + rewrite (aesDecryptImpl_nomac_run key _ usePadding w2
                 (ex_intro _ Aes256 Hv) Hpar).
      rewrite slice_app_prefix by (unfold byteLength; rewrite Hiv'; reflexivity).
      rewrite slice_app_suffix by (unfold byteLength; rewrite ?Hiv'; reflexivity).
      rewrite Hiv. change (16 =? 16) with true.
      cbn [negb fst]. rewrite (cbcDecrypt_cbcEncrypt _ _ _ _ _ Hc). reflexivity.
    + unfold Aes.authenticatedAesDecrypt, Aes.aesDecryptImpl.
      rewrite Hv.
      run_monad. rewrite Hpar. change (0 =? 1) with false. cbn [negb andb]. eauto.
  - unfold getAndVerifyAesKeyLength in El.
    destruct (find _ [Aes256]); [discriminate|]. injection El as <-.
    run_monad. split; [eauto | discriminate].
Qed.

Lemma searchIndexEntry_is_unauthenticated_witness :
  fst (Aes.aesDecryptImpl (Toy.zeros 32)
         (Toy.zeros 16 ++ [12; 12; 12; 12; 12; 12; 12; 12; 12; 12; 12; 12; 116; 115; 101; 116])
         true false Toy.world0)
  = Ok [116; 101; 115; 116].
Proof.
  refine (proj1 (proj2 (proj2 (proj2 (searchIndexEntry_is_unauthenticated
                                        (P := Toy.primitives)
                                        (Toy.zeros 32) [116; 101; 115; 116] (Toy.zeros 16)
                                        true Toy.world0 Toy.world0) _ _)))).
  vm_compute. reflexivity.
Defined.

(* ------------------------------------------------------------------ *)
(** ** SymmetricCipherUtils.ts: extractIvFromCipherText *)

(** extractIvFromCipherText either fails or returns exactly 16 bytes. *)
Theorem extractIvFromCipherText_length (decode : string -> Res bytes) (encrypted : string)
        (iv : bytes) :
  extractIvFromCipherText decode encrypted = Ok iv -> length iv = 16%nat.
Proof.
  unfold extractIvFromCipherText.
  destruct (decode encrypted) as [eb|e]; cbn [bindR]; [|discriminate].
  set (body := if byteLength eb mod 2 =? 1 then _ else _).
  change IV_BYTE_LENGTH with 16.
  destruct (Z.ltb_spec (byteLength body) 16) as [|Hge]; [discriminate|].
  intros [= <-]. unfold slice.
  rewrite subarray_in_range by lia.
  rewrite length_firstn, skipn_O. unfold byteLength in Hge. lia.
Qed.

Lemma extractIvFromCipherText_length_witness :
  length (Toy.zeros 16) = 16%nat.
Proof.
  apply (extractIvFromCipherText_length (fun _ => Ok (Toy.zeros 16 ++ Toy.zeros 16)) "").
  reflexivity.
Defined.

(** extractIvFromCipherText recovers the IV that AesCbcFacade.encrypt
    prepended, from the authenticated and from the unauthenticated
    envelope. *)
Theorem extractIvFromCipherText_of_envelope {P : Primitives} {OK : PrimitivesOk P}
        (decode : string -> Res bytes) (encrypted : string)
        (key pt iv env : bytes) (padding : bool) (version : SymmetricCipherVersion)
        (w : World) :
  fst (AesCbcFacade.encrypt key pt true iv padding version w) = Ok env ->
  decode encrypted = Ok env ->
  extractIvFromCipherText decode encrypted = Ok iv.
Proof.
  intros H Hdec.
  destruct (AesCbcFacade.encrypt key pt true iv padding version w) as [r w'] eqn:E.
  cbn [fst] in H. subst r.
  unfold extractIvFromCipherText. rewrite Hdec. cbn [bindR].
  change MAC_LENGTH_BYTES with 32. change IV_BYTE_LENGTH with 16.
  destruct version.
  - destruct (encrypt_unauthenticated_inv _ _ _ _ _ _ _ _ E) as (c & Hk & Hc & ->).
    pose proof (cbcEncrypt_iv_length _ _ _ _ _ Hc) as Hl.
    destruct (cbcEncrypt_length _ _ _ _ _ Hc) as [_ Hmod].
    assert (Hpar : byteLength (iv ++ c) mod 2 = 0).
    { unfold byteLength. rewrite length_app, Hl.
      replace (Z.of_nat (16 + length c)) with (16 + Z.of_nat (length c)) by lia.
      rewrite mod2_shift by assumption. reflexivity. }
    rewrite Hpar. change (0 =? 1) with false. cbv iota.
    destruct (Z.ltb_spec (byteLength (iv ++ c)) 16) as [Hlt|_].
    + rewrite byteLength_app in Hlt. unfold byteLength in Hlt. lia.
    + unfold slice. rewrite subarray_app_prefix; [reflexivity|].
      unfold byteLength. rewrite Hl. reflexivity.
  - destruct (encrypt_hmac_inv _ _ _ _ _ _ _ _ E) as (ek & ak & c & Hd & Hc & -> & _).
    pose proof (cbcEncrypt_iv_length _ _ _ _ _ Hc) as Hl.
    destruct (cbcEncrypt_length _ _ _ _ _ Hc) as [_ Hmod].
    set (tag := hmacSha256 ak (iv ++ c)).
    assert (Ht : length tag = 32%nat) by apply hmacSha256_length.
    assert (Hpar : byteLength ([versionValue AesCbcThenHmac] ++ (iv ++ c) ++ tag) mod 2 = 1).
    { unfold byteLength. rewrite !length_app, Hl, Ht. cbn [length].
      replace (Z.of_nat (1 + (16 + length c + 32))) with (49 + Z.of_nat (length c)) by lia.
      rewrite mod2_shift by assumption. reflexivity. }
    rewrite Hpar. change (1 =? 1) with true. cbv iota.
    rewrite (envelope_body _ (iv ++ c) tag Ht).
    destruct (Z.ltb_spec (byteLength (iv ++ c)) 16) as [Hlt|_].
    + rewrite byteLength_app in Hlt. unfold byteLength in Hlt. lia.
    + unfold slice. rewrite subarray_app_prefix; [reflexivity|].
      unfold byteLength. rewrite Hl. reflexivity.
  - unfold AesCbcFacade.encrypt in E. run_monad_in E.
    destruct (SymmetricKeyDeriver.deriveSubKeys key Aead) as [sk|e]; [|discriminate].
    destruct (cbcEncrypt _ pt iv padding); discriminate.
Qed.

Lemma extractIvFromCipherText_of_envelope_witness :
  extractIvFromCipherText
    (fun _ => Ok ([1] ++ Toy.zeros 16 ++ map Z.of_nat (seq 0 15) ++ [7]
                      ++ map Z.of_nat (seq 16 32))) ""
  = Ok (Toy.zeros 16).
Proof.
  apply (extractIvFromCipherText_of_envelope (P := Toy.primitives) _ ""
           (Toy.zeros 32) [7] (Toy.zeros 16)
           ([1] ++ Toy.zeros 16 ++ map Z.of_nat (seq 0 15) ++ [7]
                ++ map Z.of_nat (seq 16 32))
           true AesCbcThenHmac Toy.world0).
  - vm_compute. reflexivity.
  - reflexivity.
Defined.

(* ------------------------------------------------------------------ *)
(** ** AeadFacade.java: layout, short input, associated data *)

(** The AEAD envelope is the version byte 2, the IV, the CBC ciphertext and
    a 32-byte tag; the tag is the HMAC over version byte, IV, ciphertext and
    associated data, under the authentication key; the associated data itself
    is not part of the envelope, whose length is 49 bytes plus the
    ciphertext. *)
Theorem aeadFacade_envelope_layout {P : Primitives} {OK : PrimitivesOk P}
        (key pt iv ad env : bytes) (padding : bool) (w w' : World) :
  Java.AeadFacade.encrypt key pt iv padding ad w = (Ok env, w') ->
  exists ek ak c,
    Java.SymmetricKeyDeriver.deriveSubKeys key Aead = Ok (mkSubKeys ek (Some ak))
    /\ cbcEncrypt ek pt iv padding = Ok c
    /\ env = [2] ++ iv ++ c ++ hmacSha256 ak ([2] ++ iv ++ c ++ ad)
    /\ length env
       = (49 + (if padding then 16 * (length pt / 16 + 1) else length pt))%nat
    /\ w' = addEvents w [EvCbcEncrypt ek iv pt padding;
                         EvHmac ak ([2] ++ iv ++ c ++ ad)].
Proof.
  intros H.
  destruct (aeadFacade_encrypt_inv _ _ _ _ _ _ _ _ H) as (ek & ak & c & Hd & Hc & He).
  exists ek, ak, c.
  rewrite (aeadFacade_encrypt_run key pt iv ad ek ak padding w Hd), Hc in H.
  cbv zeta in H. injection H as _ <-.
  change (versionValue Aead) with 2 in *.
  rewrite <- !app_assoc in He. rewrite <- !app_assoc.
  repeat split; try assumption.
  subst env. rewrite !length_app, hmacSha256_length.
  rewrite (cbcEncrypt_iv_length _ _ _ _ _ Hc).
  destruct (cbcEncrypt_length _ _ _ _ _ Hc) as [-> _]. cbn [length]. lia.
Qed.

Lemma aeadFacade_envelope_layout_witness :
  exists ek ak c,
    cbcEncrypt ek [116; 101; 115; 116] (Toy.zeros 16) true = Ok c
    /\ fst (Java.AeadFacade.encrypt (Toy.zeros 32) [116; 101; 115; 116] (Toy.zeros 16)
                                    true [9] Toy.world0)
       = Ok ([2] ++ Toy.zeros 16 ++ c ++ hmacSha256 ak ([2] ++ Toy.zeros 16 ++ c ++ [9])).
Proof.
  destruct (Java.AeadFacade.encrypt (Toy.zeros 32) [116; 101; 115; 116] (Toy.zeros 16)
                                    true [9] Toy.world0) as [[env|e] w'] eqn:E.
  - destruct (aeadFacade_envelope_layout (P := Toy.primitives) _ _ _ _ _ _ _ _ E)
      as (ek & ak & c & _ & Hc & He & _).
    exists ek, ak, c. cbn [fst]. rewrite He. auto.
  - vm_compute in E. discriminate.
Defined.

(** AeadFacade.decrypt on fewer than 32 bytes: Arrays.copyOfRange throws an
    IllegalArgumentException, which is not wrapped; nothing has been computed
    by then. *)
Theorem aeadFacade_decrypt_short_ciphertext {P : Primitives} {OK : PrimitivesOk P}
        (key ct ad : bytes) (padding : bool) (w : World) :
  length key = 16%nat \/ length key = 32%nat ->
  (length ct < 32)%nat ->
  Java.AeadFacade.decrypt key ct padding ad w = (Throw IllegalArgumentException, w).
Proof.
  intros Hk Hlen.
  destruct (java_deriveSubKeys_aead_valid key Hk) as (ek & ak & Hd).
  unfold Java.AeadFacade.decrypt. rewrite Hd.
  change SYMMETRIC_AUTHENTICATION_TAG_LENGTH_BYTES with 32.
  assert (Hc : Java.copyOfRange ct 0 (byteLength ct - 32) = Throw IllegalArgumentException).
  { unfold Java.copyOfRange.
    destruct (Z.ltb_spec (byteLength ct - 32 - 0) 0); [reflexivity|].
    unfold byteLength in *. lia. }
  run_monad. cbn [negb]. rewrite andb_false_r, Hc. reflexivity.
Qed.

Lemma aeadFacade_decrypt_short_ciphertext_witness :
  Java.AeadFacade.decrypt (Toy.zeros 32) [2; 0; 0] true [9] Toy.world0
  = (Throw IllegalArgumentException, Toy.world0).
Proof.
  apply (aeadFacade_decrypt_short_ciphertext (P := Toy.primitives)).
  - right. reflexivity.
  - cbn. lia.
Defined.

(** The associated data is bound by the tag alone: an envelope written with
    associated data [ad1] is refused under [ad2] exactly when HMAC tells the
    two authenticated messages apart, and then before any CBC decryption. *)
Theorem aeadFacade_associated_data_binding {P : Primitives} {OK : PrimitivesOk P}
        (key pt iv ad1 ad2 env : bytes) (padding : bool) (w w2 : World) :
  fst (Java.AeadFacade.encrypt key pt iv padding ad1 w) = Ok env ->
  exists ek ak c,
    Java.SymmetricKeyDeriver.deriveSubKeys key Aead = Ok (mkSubKeys ek (Some ak))
    /\ cbcEncrypt ek pt iv padding = Ok c
    /\ let region := [2] ++ iv ++ c in
       env = region ++ hmacSha256 ak (region ++ ad1)
       /\ (hmacSha256 ak (region ++ ad2) <> hmacSha256 ak (region ++ ad1) ->
           Java.AeadFacade.decrypt key env padding ad2 w2
           = (Throw AuthenticationFailed, addEvents w2 [EvHmac ak (region ++ ad2)]))
       /\ (hmacSha256 ak (region ++ ad2) = hmacSha256 ak (region ++ ad1) ->
           fst (Java.AeadFacade.decrypt key env padding ad2 w2) = Ok pt).
Proof.
  intros H.
  destruct (Java.AeadFacade.encrypt key pt iv padding ad1 w) as [r w'] eqn:E.
  cbn [fst] in H. subst r.
  destruct (aeadFacade_encrypt_inv _ _ _ _ _ _ _ _ E) as (ek & ak & c & Hd & Hc & ->).
  pose proof (cbcEncrypt_iv_length _ _ _ _ _ Hc) as Hl.
  exists ek, ak, c. split; [exact Hd|]. split; [exact Hc|].
  change (versionValue Aead) with 2. cbv zeta.
  set (region := [2] ++ iv ++ c).
  split; [reflexivity|].
  pose proof (aeadFacade_decrypt_run key iv c (hmacSha256 ak (region ++ ad1)) ad2 ek ak
                2 padding w2 Hd Hl (hmacSha256_length _ _)) as Hrun.
  cbv zeta in Hrun. fold region in Hrun. split; intros Hcmp; rewrite Hrun.
  - rewrite bytesEqual_neq by assumption. reflexivity.
  - rewrite Hcmp, bytesEqual_refl. cbn [fst].
    rewrite (cbcDecrypt_cbcEncrypt _ _ _ _ _ Hc). reflexivity.
Qed.

Lemma aeadFacade_associated_data_binding_witness :
  fst (Java.AeadFacade.decrypt (Toy.zeros 32)
         [2; 0; 0; 0; 0; 0; 0; 0; 0; 0; 0; 0; 0; 0; 0; 0; 0;
          24; 216; 152; 88; 24; 216; 152; 88; 24; 216; 152; 88; 96; 167; 241; 32;
          177; 146; 115; 84; 53; 22; 247; 216; 185; 154; 123; 92; 61; 30; 255; 224;
          193; 162; 131; 100; 69; 38; 7; 232; 201; 170; 139; 108; 77; 46; 15; 240]
         true [10] Toy.world0)
  = Throw AuthenticationFailed.
Proof.
  destruct (aeadFacade_associated_data_binding (P := Toy.primitives)
              (Toy.zeros 32) [116; 101; 115; 116] (Toy.zeros 16) [9] [10]
              [2; 0; 0; 0; 0; 0; 0; 0; 0; 0; 0; 0; 0; 0; 0; 0; 0;
               24; 216; 152; 88; 24; 216; 152; 88; 24; 216; 152; 88; 96; 167; 241; 32;
               177; 146; 115; 84; 53; 22; 247; 216; 185; 154; 123; 92; 61; 30; 255; 224;
               193; 162; 131; 100; 69; 38; 7; 232; 201; 170; 139; 108; 77; 46; 15; 240]
              true Toy.world0 Toy.world0) as (ek & ak & c & Hd & Hc & He & Hdiff & _).
  - vm_compute. reflexivity.
  - vm_compute in Hd. injection Hd as <- <-.
    vm_compute in Hc. injection Hc as <-.
    rewrite Hdiff; [reflexivity|]. vm_compute. discriminate.
Defined.

(* ------------------------------------------------------------------ *)
(** ** Aes.ts and AesCbcFacade.ts write the same envelope *)

(** Where getAesSubKeys yields the sub-keys that deriveSubKeys yields for
    AesCbcThenHmac, aesEncrypt with a MAC and AesCbcFacade.encrypt with a
    prepended IV return the same envelope and perform the same operations,
    for every 16-byte IV. *)
Theorem aesEncrypt_agrees_with_aesCbcFacade {P : Primitives} {OK : PrimitivesOk P}
        (key pt iv : bytes) (usePadding : bool) (w : World) :
  SymmetricKeyDeriver.deriveSubKeys key AesCbcThenHmac
  = Ok (mkSubKeys (cKey (getAesSubKeys key true)) (mKey (getAesSubKeys key true))) ->
  length iv = 16%nat ->
  Aes.aesEncrypt key pt iv usePadding true w
  = AesCbcFacade.encrypt key pt true iv usePadding AesCbcThenHmac w.
Proof.
  intros Hd Hiv.
  destruct (deriveSubKeys_hmac_inv key _ Hd) as [ak Hak]. cbn [authenticationKey] in Hak.
  rewrite Hak in Hd.
  rewrite (encrypt_hmac_run key pt iv _ ak true usePadding w Hd).
  assert (Hvalid : exists l, getAndVerifyAesKeyLength key ACCEPTED_BIT_LENGTHS = Ok l).
  { unfold SymmetricKeyDeriver.deriveSubKeys in Hd.
    destruct (getAndVerifyAesKeyLength key ACCEPTED_BIT_LENGTHS); [eauto | discriminate]. }
  destruct Hvalid as [l Hl].
  unfold Aes.aesEncrypt. rewrite Hl. run_monad.
  change IV_BYTE_LENGTH with 16.
  replace (byteLength iv =? 16) with true
    by (symmetry; apply Z.eqb_eq; unfold byteLength; lia).
  cbn [negb andb]. rewrite Hak.
  destruct (cbcEncrypt _ pt iv usePadding) as [c|e]; [|reflexivity].
  rewrite addEvents_addEvents.
  unfold concat, MAC_ENABLED_PREFIX. cbn [List.concat app versionValue].
  rewrite !app_nil_r. reflexivity.
Qed.

Lemma aesEncrypt_agrees_with_aesCbcFacade_witness :
  Aes.aesEncrypt (Toy.zeros 32) [116; 101; 115; 116] (Toy.zeros 16) true true Toy.world0
  = AesCbcFacade.encrypt (Toy.zeros 32) [116; 101; 115; 116] true (Toy.zeros 16) true
                         AesCbcThenHmac Toy.world0.
Proof.
  apply (aesEncrypt_agrees_with_aesCbcFacade (P := Toy.primitives)); reflexivity.
Defined.
